(** * Kyros: rendering presets, 2D fallback and diagnostic scripts

    A shallow embedding of the JavaScript helpers of the Kyros site:

    - [MobileOptimizer] (device sniffing and quality presets, emergency
      memory cleanup, context-loss handler),
    - [WebGLFallback] (capability probing and the 2D canvas fallback),
    - the puppeteer diagnostic scripts ([check.mjs], [check-detailed.mjs],
      [check-site.mjs], [test-mobile-safari.mjs]).

    Browser state (the document tree, timers, listeners, the console) is
    threaded explicitly through every function as a [page] record; the
    three.js scene graph touched by the memory cleanup is a store of
    objects indexed by identity. *)

From Stdlib Require Import ZArith QArith Qminmax Ascii String DecimalString List Bool Lia.
From stdpp Require Import base option list gmap.
Import ListNotations.

Local Open Scope string_scope.
Local Open Scope list_scope.
Local Open Scope Z_scope.

#[local] Arguments String.append !_ _ / : simpl nomatch.

(** ** JavaScript strings and the regular expressions of the sniffing code *)

(** A JavaScript string is held as the bytes of its UTF-8 encoding.  The
    patterns of the code are ASCII literals, so a match can only start
    and end on character boundaries. *)

Module JsString.

(** ASCII case folding used by the [i] flag.  Without the [u] flag a
    character outside ASCII never folds onto an ASCII letter, so folding
    the 26 letters is the whole relation for the ASCII patterns used. *)
Definition is_lower (c : ascii) : bool :=
  ((97 <=? nat_of_ascii c) && (nat_of_ascii c <=? 122))%nat.

Definition canonicalize (c : ascii) : ascii :=
  if is_lower c then ascii_of_nat (nat_of_ascii c - 32) else c.

Definition char_eq (ignore_case : bool) (a b : ascii) : bool :=
  if ignore_case then Ascii.eqb (canonicalize a) (canonicalize b)
  else Ascii.eqb a b.

(** [matches_at ic pat s]: the literal [pat] matches at the start of [s]. *)
Fixpoint matches_at (ic : bool) (pat s : string) : bool :=
  match pat, s with
  | EmptyString, _ => true
  | String _ _, EmptyString => false
  | String p pat', String c s' => char_eq ic p c && matches_at ic pat' s'
  end.

Definition any_matches_at (ic : bool) (alts : list string) (s : string) : bool :=
  existsb (fun alt => matches_at ic alt s) alts.

(** [/a|b|c/.test(s)] for literal alternatives: some alternative matches
    at some position of [s]. *)
Fixpoint test_alternatives (ic : bool) (alts : list string) (s : string) : bool :=
  any_matches_at ic alts s ||
  match s with
  | EmptyString => false
  | String _ s' => test_alternatives ic alts s'
  end.

(** [String.prototype.includes]: case-sensitive substring test. *)
Definition includes (s sub : string) : bool := test_alternatives false [sub] s.

(** The line terminators of the language, which [.] refuses: LF, CR,
    U+2028 and U+2029 (the last two are three bytes each). *)
Definition line_terminators : list string :=
  [String "010" EmptyString;
   String "013" EmptyString;
   String "226" (String "128" (String "168" EmptyString));
   String "226" (String "128" (String "169" EmptyString))].

(** The character that begins [s] is a line terminator. *)
Definition is_line_terminator (s : string) : bool :=
  any_matches_at false line_terminators s.

(** [/^((?!x|y).)*lit/i.test(s)]: [lit] occurs at a position such that no
    earlier position starts one of the forbidden words or a line
    terminator. *)
Fixpoint test_guarded_prefix (forbidden : list string) (lit : string) (s : string) : bool :=
  matches_at true lit s ||
  match s with
  | EmptyString => false
  | String c s' =>
      negb (any_matches_at true forbidden s)
      && negb (is_line_terminator s)
      && test_guarded_prefix forbidden lit s'
  end.

End JsString.

(** ** The page: document tree, timers, listeners, console *)

Module Dom.

Inductive tag := canvas | div | other (name : string).

(** An element with its identity, tag, [innerHTML] text and children. *)
Inductive node := Elem (uid : nat) (t : tag) (html : string) (children : list node).

Definition is_canvas (t : tag) : bool :=
  match t with canvas => true | _ => false end.

(** Elements of a subtree in document order. *)
Fixpoint preorder (n : node) : list (nat * tag) :=
  match n with
  | Elem u t _ cs => (u, t) :: flat_map preorder cs
  end.

Definition elements (f : list node) : list (nat * tag) := flat_map preorder f.

Definition uids (f : list node) : list nat := map fst (elements f).

Definition canvases (f : list node) : list nat :=
  map fst (List.filter (fun e => is_canvas (snd e)) (elements f)).

(** [document.querySelector('canvas')]: the first canvas in document order. *)
Definition querySelector_canvas (f : list node) : option nat := head (canvases f).

(** Detaching the element [u] (with its subtree) from wherever it sits. *)
Fixpoint prune (u : nat) (n : node) : list node :=
  match n with
  | Elem v t h cs =>
      if Nat.eqb v u then [] else [Elem v t h (flat_map (prune u) cs)]
  end.

Definition remove (u : nat) (f : list node) : list node := flat_map (prune u) f.

Definition attached (u : nat) (f : list node) : Prop := In u (uids f).

End Dom.

Module Page.
Import Dom.

(** Callbacks handed to [setTimeout] by the page scripts. *)
Inductive timer_action :=
| RemoveIfAttached (uid : nat)  (* if (el.parentNode) el.parentNode.removeChild(el) *)
| ReloadPage.                   (* window.location.reload() *)

Record timer := { due : Z; action : timer_action }.

(** The three.js renderer as far as the scripts use it. *)
Record renderer := { domElement : nat; has_setAnimationLoop : bool }.

Inductive event := webglcontextlost | webglcontextrestored | resize.

Inductive target := Window | Element (uid : nat).

(** Listener closures registered by the page scripts. *)
Inductive listener :=
| OptimizerContextLost (r : renderer)
| OptimizerContextRestored (r : renderer)
| FallbackResize.

Inductive completion (A : Type) :=
| Normal (a : A)
| Throw (msg : string).
Arguments Normal {A} a.
Arguments Throw {A} msg.

Record debug_renderer_info := {
  UNMASKED_RENDERER_WEBGL : string;
  UNMASKED_VENDOR_WEBGL : string
}.

(** What a WebGL context answers to the probing calls; a [Throw] is a
    [getParameter] call that raises. *)
Record gl_context := {
  WEBGL_debug_renderer_info : option debug_renderer_info;
  MAX_TEXTURE_SIZE : completion Z;
  MAX_VERTEX_ATTRIBS : completion Z
}.

Record page := {
  body : list node;              (* children of document.body *)
  next_id : nat;                 (* identity of the next created element *)
  now : Z;                       (* milliseconds *)
  timers : list timer;           (* pending setTimeout callbacks *)
  listeners : list (target * event * listener);
  console : list string;
  webgl : option gl_context;               (* getContext('webgl') *)
  experimental_webgl : option gl_context;  (* getContext('experimental-webgl') *)
  innerWidth : Z;
  innerHeight : Z;
  window_animate : bool;         (* window.animate is defined *)
  performance_memory : bool;     (* window.performance.memory is defined *)
  animationLoop : bool;          (* the renderer's animation loop is set *)
  memoryMonitoring : bool;       (* the 5 s memory interval is installed *)
  defaultPrevented : bool;       (* preventDefault() was called on a context-loss event *)
  next_frame : nat;              (* next requestAnimationFrame id *)
  reloads : nat                  (* calls of window.location.reload() *)
}.

Definition set_body (f : list node -> list node) (p : page) : page :=
  {| body := f (body p); next_id := next_id p; now := now p; timers := timers p;
     listeners := listeners p; console := console p; webgl := webgl p;
     experimental_webgl := experimental_webgl p; innerWidth := innerWidth p;
     innerHeight := innerHeight p; window_animate := window_animate p;
     performance_memory := performance_memory p; animationLoop := animationLoop p;
     memoryMonitoring := memoryMonitoring p; defaultPrevented := defaultPrevented p;
     next_frame := next_frame p; reloads := reloads p |}.

Definition set_next_id (n : nat) (p : page) : page :=
  {| body := body p; next_id := n; now := now p; timers := timers p;
     listeners := listeners p; console := console p; webgl := webgl p;
     experimental_webgl := experimental_webgl p; innerWidth := innerWidth p;
     innerHeight := innerHeight p; window_animate := window_animate p;
     performance_memory := performance_memory p; animationLoop := animationLoop p;
     memoryMonitoring := memoryMonitoring p; defaultPrevented := defaultPrevented p;
     next_frame := next_frame p; reloads := reloads p |}.

Definition set_now (z : Z) (p : page) : page :=
  {| body := body p; next_id := next_id p; now := z; timers := timers p;
     listeners := listeners p; console := console p; webgl := webgl p;
     experimental_webgl := experimental_webgl p; innerWidth := innerWidth p;
     innerHeight := innerHeight p; window_animate := window_animate p;
     performance_memory := performance_memory p; animationLoop := animationLoop p;
     memoryMonitoring := memoryMonitoring p; defaultPrevented := defaultPrevented p;
     next_frame := next_frame p; reloads := reloads p |}.

Definition set_timers (ts : list timer) (p : page) : page :=
  {| body := body p; next_id := next_id p; now := now p; timers := ts;
     listeners := listeners p; console := console p; webgl := webgl p;
     experimental_webgl := experimental_webgl p; innerWidth := innerWidth p;
     innerHeight := innerHeight p; window_animate := window_animate p;
     performance_memory := performance_memory p; animationLoop := animationLoop p;
     memoryMonitoring := memoryMonitoring p; defaultPrevented := defaultPrevented p;
     next_frame := next_frame p; reloads := reloads p |}.

Definition set_listeners (ls : list (target * event * listener)) (p : page) : page :=
  {| body := body p; next_id := next_id p; now := now p; timers := timers p;
     listeners := ls; console := console p; webgl := webgl p;
     experimental_webgl := experimental_webgl p; innerWidth := innerWidth p;
     innerHeight := innerHeight p; window_animate := window_animate p;
     performance_memory := performance_memory p; animationLoop := animationLoop p;
     memoryMonitoring := memoryMonitoring p; defaultPrevented := defaultPrevented p;
     next_frame := next_frame p; reloads := reloads p |}.

Definition set_console (c : list string) (p : page) : page :=
  {| body := body p; next_id := next_id p; now := now p; timers := timers p;
     listeners := listeners p; console := c; webgl := webgl p;
     experimental_webgl := experimental_webgl p; innerWidth := innerWidth p;
     innerHeight := innerHeight p; window_animate := window_animate p;
     performance_memory := performance_memory p; animationLoop := animationLoop p;
     memoryMonitoring := memoryMonitoring p; defaultPrevented := defaultPrevented p;
     next_frame := next_frame p; reloads := reloads p |}.

Definition set_animationLoop (b : bool) (p : page) : page :=
  {| body := body p; next_id := next_id p; now := now p; timers := timers p;
     listeners := listeners p; console := console p; webgl := webgl p;
     experimental_webgl := experimental_webgl p; innerWidth := innerWidth p;
     innerHeight := innerHeight p; window_animate := window_animate p;
     performance_memory := performance_memory p; animationLoop := b;
     memoryMonitoring := memoryMonitoring p; defaultPrevented := defaultPrevented p;
     next_frame := next_frame p; reloads := reloads p |}.

Definition set_memoryMonitoring (b : bool) (p : page) : page :=
  {| body := body p; next_id := next_id p; now := now p; timers := timers p;
     listeners := listeners p; console := console p; webgl := webgl p;
     experimental_webgl := experimental_webgl p; innerWidth := innerWidth p;
     innerHeight := innerHeight p; window_animate := window_animate p;
     performance_memory := performance_memory p; animationLoop := animationLoop p;
     memoryMonitoring := b; defaultPrevented := defaultPrevented p;
     next_frame := next_frame p; reloads := reloads p |}.

Definition set_defaultPrevented (b : bool) (p : page) : page :=
  {| body := body p; next_id := next_id p; now := now p; timers := timers p;
     listeners := listeners p; console := console p; webgl := webgl p;
     experimental_webgl := experimental_webgl p; innerWidth := innerWidth p;
     innerHeight := innerHeight p; window_animate := window_animate p;
     performance_memory := performance_memory p; animationLoop := animationLoop p;
     memoryMonitoring := memoryMonitoring p; defaultPrevented := b;
     next_frame := next_frame p; reloads := reloads p |}.

Definition set_next_frame (n : nat) (p : page) : page :=
  {| body := body p; next_id := next_id p; now := now p; timers := timers p;
     listeners := listeners p; console := console p; webgl := webgl p;
     experimental_webgl := experimental_webgl p; innerWidth := innerWidth p;
     innerHeight := innerHeight p; window_animate := window_animate p;
     performance_memory := performance_memory p; animationLoop := animationLoop p;
     memoryMonitoring := memoryMonitoring p; defaultPrevented := defaultPrevented p;
     next_frame := n; reloads := reloads p |}.

(** [console.log] / [warn] / [error]. *)
Definition log (line : string) (p : page) : page := set_console (console p ++ [line]) p.

(** [document.createElement]: a fresh, detached element. *)
Definition createElement (p : page) : nat * page := (next_id p, set_next_id (S (next_id p)) p).

(** [document.body.appendChild(el)] for a detached, childless element. *)
Definition appendChild (u : nat) (tg : tag) (html : string) (p : page) : page :=
  set_body (fun f => f ++ [Elem u tg html []]) p.

(** [el.remove()] and the guarded [el.parentNode.removeChild(el)]. *)
Definition removeElement (u : nat) (p : page) : page := set_body (Dom.remove u) p.

Definition setTimeout (a : timer_action) (delay : Z) (p : page) : page :=
  set_timers (timers p ++ [{| due := now p + delay; action := a |}]) p.

Definition addEventListener (tg : target) (e : event) (l : listener) (p : page) : page :=
  set_listeners (listeners p ++ [(tg, e, l)]) p.

(** [requestAnimationFrame]: hands out the next frame id. *)
Definition requestAnimationFrame (p : page) : nat * page :=
  (next_frame p, set_next_frame (S (next_frame p)) p).

(** [window.location.reload()]: the document and everything scheduled
    on it are discarded. *)
Definition reload (p : page) : page :=
  {| body := []; next_id := next_id p; now := now p; timers := [];
     listeners := []; console := console p; webgl := webgl p;
     experimental_webgl := experimental_webgl p; innerWidth := innerWidth p;
     innerHeight := innerHeight p; window_animate := window_animate p;
     performance_memory := performance_memory p; animationLoop := false;
     memoryMonitoring := false; defaultPrevented := defaultPrevented p;
     next_frame := next_frame p; reloads := S (reloads p) |}.

Definition fire (a : timer_action) (p : page) : page :=
  match a with
  | RemoveIfAttached u => removeElement u p
  | ReloadPage => reload p
  end.

(** The pending timer that fires next: least due time, earliest
    registered among equals; returned with the remaining timers. *)
Fixpoint next_timer (ts : list timer) : option (timer * list timer) :=
  match ts with
  | [] => None
  | tm :: ts' =>
      match next_timer ts' with
      | Some (m, rest) =>
          if due m <? due tm then Some (m, tm :: rest) else Some (tm, ts')
      | None => Some (tm, ts')
      end
  end.

(** The event loop up to time [until]: fire the due timers in order. *)
Fixpoint run_timers (fuel : nat) (until : Z) (p : page) : page :=
  match fuel with
  | O => p
  | S fuel' =>
      match next_timer (timers p) with
      | Some (tm, rest) =>
          if due tm <=? until
          then run_timers fuel' until
                 (fire (action tm) (set_now (Z.max (now p) (due tm)) (set_timers rest p)))
          else p
      | None => p
      end
  end.

(** Let [delay] milliseconds pass.  No callback schedules a timer, so
    one unit of fuel per pending timer runs the loop to completion. *)
Definition advance (delay : Z) (p : page) : page :=
  let until := now p + delay in
  let p' := run_timers (length (timers p)) until p in
  set_now (Z.max (now p') until) p'.

End Page.

(** ** The three.js scene graph, as a store of objects *)

Module Three.

Inductive material_slot :=
| NoMaterial
| SingleMaterial (m : nat)
| MaterialArray (ms : list nat).

(** An [Object3D]: parent and children by identity, and the geometry and
    material objects it refers to (possibly shared with other objects). *)
Record object3d := {
  parent : option nat;
  children : list nat;
  geometry : option nat;
  material : material_slot
}.

Record scene := {
  objects : gmap nat object3d;
  disposed_geometries : gset nat;
  disposed_materials : gset nat
}.

Definition set_parent (q : option nat) (ob : object3d) : object3d :=
  {| parent := q; children := children ob;
     geometry := geometry ob; material := material ob |}.

Definition set_children (cs : list nat) (ob : object3d) : object3d :=
  {| parent := parent ob; children := cs;
     geometry := geometry ob; material := material ob |}.

(** [children.splice(children.indexOf(o), 1)] *)
Fixpoint remove_first (o : nat) (cs : list nat) : list nat :=
  match cs with
  | [] => []
  | c :: cs' => if Nat.eqb c o then cs' else c :: remove_first o cs'
  end.

(** [Object3D.remove]: when [o] is among the children of [p], clear the
    parent link of [o] and take it out of the children of [p]; otherwise
    nothing happens. *)
Definition object_remove (p o : nat) (objs : gmap nat object3d) : gmap nat object3d :=
  match objs !! p with
  | Some po =>
      if bool_decide (o ∈ children po) then
        alter (fun q => set_children (remove_first o (children q)) q) p
          (alter (set_parent None) o objs)
      else objs
  | None => objs
  end.

Definition dispose_geometry (g : option nat) (st : scene) : scene :=
  match g with
  | Some gid =>
      {| objects := objects st;
         disposed_geometries := {[ gid ]} ∪ disposed_geometries st;
         disposed_materials := disposed_materials st |}
  | None => st
  end.

Definition dispose_material (st : scene) (m : nat) : scene :=
  {| objects := objects st;
     disposed_geometries := disposed_geometries st;
     disposed_materials := {[ m ]} ∪ disposed_materials st |}.

Definition materials_of (ms : material_slot) : list nat :=
  match ms with
  | NoMaterial => []
  | SingleMaterial m => [m]
  | MaterialArray l => l
  end.

Definition set_objects (objs : gmap nat object3d) (st : scene) : scene :=
  {| objects := objs;
     disposed_geometries := disposed_geometries st;
     disposed_materials := disposed_materials st |}.

End Three.

(** ** MobileOptimizer: device sniffing and presets *)

Module MobileOptimizer.
Import JsString.

Record optimizer := {
  isMobile : bool;
  isSafari : bool;
  isIOS : bool;
  devicePixelRatio : Q;
  memoryLimit : Z;
  currentMemoryUsage : Q
}.

(** [/iPhone|iPad|iPod|Android/i.test(ua)] *)
Definition test_isMobile (ua : string) : bool :=
  test_alternatives true ["iPhone"; "iPad"; "iPod"; "Android"] ua.

(** [/^((?!chrome|android).)*safari/i.test(ua)] *)
Definition test_isSafari (ua : string) : bool :=
  test_guarded_prefix ["chrome"; "android"] "safari" ua.

(** [/iPad|iPhone|iPod/.test(ua)] (no [i] flag) *)
Definition test_isIOS (ua : string) : bool :=
  test_alternatives false ["iPad"; "iPhone"; "iPod"] ua.

(** [window.devicePixelRatio || 1]: [None] stands for a missing or NaN
    value; zero is falsy as well. *)
Definition dpr_or_1 (raw : option Q) : Q :=
  match raw with
  | Some q => if Qeq_bool q 0 then 1%Q else q
  | None => 1%Q
  end.

Definition estimateMemoryLimit (ios : bool) (dpr : Q) : Z :=
  if ios then
    if Qle_bool 3 dpr then 512
    else if Qle_bool 2 dpr then 256
    else 128
  else 1024.

(** The constructor, from [navigator.userAgent] and
    [window.devicePixelRatio].  (Its console line, like the one of
    [getPerformanceSettings], is left out: the presets are pure
    functions of the flags.) *)
Definition new (userAgent : string) (rawDpr : option Q) : optimizer :=
  let mobile := test_isMobile userAgent in
  let safari := test_isSafari userAgent in
  let ios := test_isIOS userAgent in
  let dpr := dpr_or_1 rawDpr in
  {| isMobile := mobile;
     isSafari := safari;
     isIOS := ios;
     devicePixelRatio := dpr;
     memoryLimit := estimateMemoryLimit ios dpr;
     currentMemoryUsage := 0%Q |}.

Record position := { pos_x : Z; pos_y : Z; pos_z : Z }.

Record camera_settings := {
  fov : Z;
  near : Q;
  far : Z;
  cam_position : position
}.

Definition getOptimizedCameraSettings (o : optimizer) : camera_settings :=
  if isMobile o then
    {| fov := 45; near := (1 # 10)%Q; far := 1000;
       cam_position := {| pos_x := 0; pos_y := 0; pos_z := 22 |} |}
  else
    {| fov := 60; near := 1%Q; far := 2000;
       cam_position := {| pos_x := 0; pos_y := 0; pos_z := 28 |} |}.

Definition getOptimizedStarCount (o : optimizer) : Z :=
  if isMobile o then (if isIOS o then 150 else 200) else 400.

Record light := { color : Z; intensity : Q; distance : option Z }.

Record lighting := {
  sunLight : light;
  ambientLight : light;
  rimLight : light;
  textLight : light
}.

Definition getOptimizedLighting (o : optimizer) : lighting :=
  if isMobile o then
    {| sunLight := {| color := 0xffffff; intensity := 4%Q; distance := None |};
       ambientLight := {| color := 0xffffff; intensity := (3 # 10)%Q; distance := None |};
       rimLight := {| color := 0xd4e5ff; intensity := 3%Q; distance := None |};
       textLight := {| color := 0xfff8e7; intensity := 3%Q; distance := Some 25 |} |}
  else
    {| sunLight := {| color := 0xffffff; intensity := 8%Q; distance := None |};
       ambientLight := {| color := 0xffffff; intensity := (4 # 10)%Q; distance := None |};
       rimLight := {| color := 0xd4e5ff; intensity := 6%Q; distance := None |};
       textLight := {| color := 0xfff8e7; intensity := 5%Q; distance := Some 30 |} |}.

Record performance_settings := {
  pixelRatio : Q;
  shadowMapSize : Z;
  maxLights : Z;
  enableShadows : bool;
  enablePostProcessing : bool;
  textureQuality : string
}.

Definition getPerformanceSettings (o : optimizer) : performance_settings :=
  {| pixelRatio := Qmin (devicePixelRatio o) (if isMobile o then 1%Q else 2%Q);
     shadowMapSize := if isMobile o then 512 else 2048;
     maxLights := if isMobile o then 3 else 8;
     enableShadows := negb (isMobile o);
     enablePostProcessing := false;
     textureQuality := if isMobile o then "medium" else "high" |}.

(** *** Page-side behaviour *)

Import Page.

Definition overlay_html (message : string) : string :=
  ("<div>KYROS</div><div>" ++ message
    ++ "</div><div>Your device may not support the full experience</div>")%string.

(** [showFallbackMessage]: a full-screen overlay, taken down by a timer
    after 5000 ms.  (Inline styles are left out of the markup.) *)
Definition showFallbackMessage (message : string) (p : page) : page :=
  let '(overlay, p1) := createElement p in
  let p2 := appendChild overlay Dom.div (overlay_html message) p1 in
  setTimeout (RemoveIfAttached overlay) 5000 p2.

Definition contextLostMessage : string := "WebGL context lost - reloading...".

Definition handleWebGLContextLoss (r : renderer) (p : page) : page :=
  let p1 := if has_setAnimationLoop r then set_animationLoop false p else p in
  let p2 := showFallbackMessage contextLostMessage p1 in
  setTimeout ReloadPage 2000 p2.

Definition handleWebGLContextRestore (r : renderer) (p : page) : page :=
  if window_animate p && has_setAnimationLoop r then set_animationLoop true p else p.

(** [startMemoryMonitoring] installs the 5 s interval; its samples are
    not part of this model. *)
Definition startMemoryMonitoring (p : page) : page := set_memoryMonitoring true p.

Definition setupWebGLProtection (o : optimizer) (r : option renderer) (p : page) : page :=
  match r with
  | None => p
  | Some rd =>
      if negb (isSafari o) then p
      else
        let p1 := log "🛡️ Setting up WebGL protection for Safari..." p in
        let cv := Element (domElement rd) in
        let p2 := addEventListener cv webglcontextlost (OptimizerContextLost rd) p1 in
        let p3 := addEventListener cv webglcontextrestored (OptimizerContextRestored rd) p2 in
        if performance_memory p3 then startMemoryMonitoring p3 else p3
  end.

(** The two closures registered by [setupWebGLProtection]. *)
Definition on_contextlost (r : renderer) (p : page) : page :=
  let p1 := log "🚨 WebGL context lost - preventing default" p in
  let p2 := set_defaultPrevented true p1 in
  handleWebGLContextLoss r p2.

Definition on_contextrestored (r : renderer) (p : page) : page :=
  handleWebGLContextRestore r (log "✅ WebGL context restored" p).

(** *** Memory cleanup over the scene globals *)

Import Three.

(** The globals the cleanup reads: [window.orbitalObjects] (an array of
    object references, or undefined), [window.scene], [window.gc], the
    identifier [THREE] (which is read bare, so it has to be declared)
    with its [Cache], and the three.js objects themselves. *)
Record globals := {
  orbitalObjects : option (list nat);
  scene_defined : bool;
  gc_defined : bool;
  three_declared : bool;   (* a binding named THREE is in scope *)
  cache_defined : bool;    (* THREE and THREE.Cache are truthy *)
  three : scene;
  cache_clears : nat;
  gc_calls : nat;
  log_lines : list string
}.

(** A method call ends with the globals as it left them and, when it
    did not return, the message of the exception that ended it. *)
Definition ended : Type := globals * option string.

(** [if (THREE && THREE.Cache) THREE.Cache.clear()]: reading an
    undeclared [THREE] raises a ReferenceError. *)
Definition clearUnusedTextures (w : globals) : ended :=
  if negb (three_declared w) then (w, Some "THREE is not defined")
  else if cache_defined w then
    ({| orbitalObjects := orbitalObjects w; scene_defined := scene_defined w;
        gc_defined := gc_defined w; three_declared := three_declared w;
        cache_defined := cache_defined w;
        three := three w; cache_clears := S (cache_clears w);
        gc_calls := gc_calls w; log_lines := log_lines w |}, None)
  else (w, None).

Definition triggerMemoryCleanup (w : globals) : ended :=
  let w1 :=
    {| orbitalObjects := orbitalObjects w; scene_defined := scene_defined w;
       gc_defined := gc_defined w; three_declared := three_declared w;
       cache_defined := cache_defined w;
       three := three w; cache_clears := cache_clears w;
       gc_calls := gc_calls w;
       log_lines := log_lines w ++ ["🧹 Triggering memory cleanup..."] |} in
  let '(w2, raised) := if scene_defined w1 then clearUnusedTextures w1 else (w1, None) in
  match raised with
  | Some e => (w2, Some e)
  | None =>
      if gc_defined w2 then
        ({| orbitalObjects := orbitalObjects w2; scene_defined := scene_defined w2;
            gc_defined := gc_defined w2; three_declared := three_declared w2;
            cache_defined := cache_defined w2;
            three := three w2; cache_clears := cache_clears w2;
            gc_calls := S (gc_calls w2); log_lines := log_lines w2 |}, None)
      else (w2, None)
  end.

(** The body of the [forEach] over [orbitalObjects.slice(2)]. *)
Definition cleanup_object (st : scene) (o : nat) : scene :=
  match objects st !! o with
  | Some ob =>
      match parent ob with
      | Some p =>
          let st1 := set_objects (object_remove p o (objects st)) st in
          let st2 := dispose_geometry (geometry ob) st1 in
          fold_left dispose_material (materials_of (material ob)) st2
      | None => st
      end
  | None => st
  end.

(** The array and the scene are dealt with first; the closing call of
    [triggerMemoryCleanup] is the only statement that can raise. *)
Definition emergencyMemoryCleanup (w : globals) : ended :=
  let w1 :=
    {| orbitalObjects := orbitalObjects w; scene_defined := scene_defined w;
       gc_defined := gc_defined w; three_declared := three_declared w;
       cache_defined := cache_defined w;
       three := three w; cache_clears := cache_clears w;
       gc_calls := gc_calls w;
       log_lines := log_lines w ++ ["🚨 Emergency memory cleanup..."] |} in
  let w2 :=
    match orbitalObjects w1 with
    | Some arr =>
        {| orbitalObjects := Some (take 2 arr); scene_defined := scene_defined w1;
           gc_defined := gc_defined w1; three_declared := three_declared w1;
           cache_defined := cache_defined w1;
           three := fold_left cleanup_object (drop 2 arr) (three w1);
           cache_clears := cache_clears w1;
           gc_calls := gc_calls w1; log_lines := log_lines w1 |}
    | None => w1
    end in
  triggerMemoryCleanup w2.

End MobileOptimizer.

(** ** WebGLFallback: capability probing and the 2D canvas fallback *)

Module WebGLFallback.
Import JsString Dom Page.

Record orbital := { name : string; color : string; radius : Z; size : Z }.

(** Instance fields.  [ctx] holds the canvas whose 2D context is in use,
    [stars] the number of generated stars (their coordinates are random),
    [animationTime] the number of 0.016 s steps taken. *)
Record fallback := {
  fallbackMode : bool;
  canvas : option nat;
  ctx : option nat;
  animationId : option nat;
  earthImage : option nat;
  stars : nat;
  orbitalObjects : list orbital;
  animationTime : nat
}.

(** Field values set by the constructor before probing. *)
Definition initial : fallback :=
  {| fallbackMode := false; canvas := None; ctx := None; animationId := None;
     earthImage := None; stars := 0%nat; orbitalObjects := []; animationTime := 0%nat |}.

Definition problematicDrivers : list string :=
  ["Software Renderer"; "Mesa"; "Intel HD Graphics 3000"; "Intel HD Graphics 4000"].

(** [problematicDrivers.some(d => renderer.includes(d) || vendor.includes(d))] *)
Definition hasProblematicDriver (d : debug_renderer_info) : bool :=
  existsb (fun driver =>
             includes (UNMASKED_RENDERER_WEBGL d) driver
             || includes (UNMASKED_VENDOR_WEBGL d) driver)
          problematicDrivers.

(** [canvas.getContext('webgl') || canvas.getContext('experimental-webgl')] *)
Definition getContext_webgl (p : page) : option gl_context :=
  match webgl p with
  | Some gl => Some gl
  | None => experimental_webgl p
  end.

(** [resizeCanvas] changes the size attributes of the fallback canvas
    only; the document tree is untouched. *)
Definition resizeCanvas (s : fallback) (p : page) : page := p.

Definition initializeFallbackCanvas (s : fallback) (p : page) : fallback * page :=
  let p1 :=
    match querySelector_canvas (body p) with
    | Some existing => removeElement existing p
    | None => p
    end in
  let '(c, p2) := createElement p1 in
  let p3 := appendChild c Dom.canvas "" p2 in
  let s1 :=
    {| fallbackMode := fallbackMode s; canvas := Some c; ctx := Some c;
       animationId := animationId s; earthImage := earthImage s;
       stars := stars s; orbitalObjects := orbitalObjects s;
       animationTime := animationTime s |} in
  let p4 := resizeCanvas s1 p3 in
  (s1, addEventListener Window resize FallbackResize p4).

(** Iterations of [for (i = 0; i < starCount; i++)] with
    [starCount = Math.min(200, innerWidth * innerHeight / 1000)]. *)
Definition starfield_size (p : page) : nat :=
  Z.to_nat (Z.min 200 ((innerWidth p * innerHeight p + 999) / 1000)).

Definition fallbackOrbitals : list orbital :=
  [ {| name := "Pizza"; color := "#ff6b6b"; radius := 80; size := 8 |};
    {| name := "Donut"; color := "#4ecdc4"; radius := 100; size := 6 |};
    {| name := "Crystal"; color := "#45b7d1"; radius := 120; size := 5 |};
    {| name := "GameBoy"; color := "#96ceb4"; radius := 140; size := 7 |};
    {| name := "K"; color := "#feca57"; radius := 160; size := 6 |};
    {| name := "Tether"; color := "#ff9ff3"; radius := 180; size := 5 |} ].

(** [createStarfield], [createEarth] (an off-document canvas),
    [createOrbitalObjects], [createText]. *)
Definition createFallbackScene (s : fallback) (p : page) : fallback * page :=
  let '(earthCanvas, p1) := createElement p in
  ({| fallbackMode := fallbackMode s; canvas := canvas s; ctx := ctx s;
      animationId := animationId s; earthImage := Some earthCanvas;
      stars := starfield_size p; orbitalObjects := fallbackOrbitals;
      animationTime := animationTime s |}, p1).

(** The first, synchronous call of [animate]: one time step, one frame
    drawn on the fallback canvas, the next frame requested. *)
Definition startFallbackAnimation (s : fallback) (p : page) : fallback * page :=
  let '(frame, p1) := requestAnimationFrame p in
  ({| fallbackMode := fallbackMode s; canvas := canvas s; ctx := ctx s;
      animationId := Some frame; earthImage := earthImage s;
      stars := stars s; orbitalObjects := orbitalObjects s;
      animationTime := S (animationTime s) |}, p1).

Definition notification_html : string :=
  "<div>Fallback Mode Active</div><div>Your device is using a simplified version for better compatibility.</div>".

(** [showFallbackNotification]: a banner taken down by a timer after
    5000 ms. *)
Definition showFallbackNotification (p : page) : page :=
  let '(notification, p1) := createElement p in
  let p2 := appendChild notification Dom.div notification_html p1 in
  setTimeout (RemoveIfAttached notification) 5000 p2.

Definition enableFallbackMode (s : fallback) (p : page) : fallback * page :=
  let s1 :=
    {| fallbackMode := true; canvas := canvas s; ctx := ctx s;
       animationId := animationId s; earthImage := earthImage s;
       stars := stars s; orbitalObjects := orbitalObjects s;
       animationTime := animationTime s |} in
  let '(s2, p2) := initializeFallbackCanvas s1 p in
  let '(s3, p3) := createFallbackScene s2 p2 in
  let '(s4, p4) := startFallbackAnimation s3 p3 in
  (s4, showFallbackNotification p4).

Definition detectWebGLSupport (s : fallback) (p : page) : bool * (fallback * page) :=
  let '(_, p1) := createElement p in
  match getContext_webgl p1 with
  | None =>
      (false, enableFallbackMode s
                (log "🎮 WebGL not supported - enabling fallback mode" p1))
  | Some gl =>
      if match WEBGL_debug_renderer_info gl with
         | Some debugInfo => hasProblematicDriver debugInfo
         | None => false
         end
      then
        (false, enableFallbackMode s
                  (log "⚠️ Problematic WebGL driver detected - enabling fallback mode" p1))
      else
        match MAX_TEXTURE_SIZE gl with
        | Throw _ =>
            (false, enableFallbackMode s
                      (log "⚠️ WebGL capability test failed - enabling fallback mode" p1))
        | Normal maxTextureSize =>
            match MAX_VERTEX_ATTRIBS gl with
            | Throw _ =>
                (false, enableFallbackMode s
                          (log "⚠️ WebGL capability test failed - enabling fallback mode" p1))
            | Normal maxVertexAttribs =>
                if (maxTextureSize <? 1024) || (maxVertexAttribs <? 8) then
                  (false, enableFallbackMode s
                            (log "⚠️ Limited WebGL capabilities - enabling fallback mode" p1))
                else (true, (s, p1))
            end
        end
  end.

(** [new WebGLFallback()] *)
Definition new (p : page) : fallback * page := snd (detectWebGLSupport initial p).

Definition isFallbackMode (s : fallback) : bool := fallbackMode s.

Definition handleWebGLContextLoss (s : fallback) (p : page) : fallback * page :=
  if negb (fallbackMode s) then
    enableFallbackMode s (log "🚨 WebGL context lost - switching to fallback mode" p)
  else (s, p).

(** [n] context-loss notifications in a row. *)
Fixpoint contextLosses (n : nat) (s : fallback) (p : page) : fallback * page :=
  match n with
  | O => (s, p)
  | S n' => let '(s1, p1) := handleWebGLContextLoss s p in contextLosses n' s1 p1
  end.

(** Fallback canvases mounted so far on the page: every run of
    [initializeFallbackCanvas] leaves one resize listener on [window]. *)
Definition activations (p : page) : nat :=
  length (List.filter (fun l => match l with (Window, resize, FallbackResize) => true | _ => false end)
                 (listeners p)).

End WebGLFallback.

(** ** Event dispatch on the page *)

Module Browser.
Import Dom Page.

Definition run_listener (l : listener) (p : page) : page :=
  match l with
  | OptimizerContextLost r => MobileOptimizer.on_contextlost r p
  | OptimizerContextRestored r => MobileOptimizer.on_contextrestored r p
  | FallbackResize => p
  end.

Definition target_eqb (a b : target) : bool :=
  match a, b with
  | Window, Window => true
  | Element u, Element v => Nat.eqb u v
  | _, _ => false
  end.

Definition event_eqb (a b : event) : bool :=
  match a, b with
  | webglcontextlost, webglcontextlost => true
  | webglcontextrestored, webglcontextrestored => true
  | resize, resize => true
  | _, _ => false
  end.

Definition listeners_for (tg : target) (e : event) (p : page) : list listener :=
  map snd (List.filter (fun r => target_eqb (fst (fst r)) tg && event_eqb (snd (fst r)) e)
                  (listeners p)).

(** [target.dispatchEvent(e)]: the listeners registered for [e] on the
    target run in registration order. *)
Definition dispatchEvent (tg : target) (e : event) (p : page) : page :=
  fold_left (fun q l => run_listener l q) (listeners_for tg e p) p.

(** The page set-up of the integration guide, as far as context loss is
    concerned: the optimizer guards the renderer's canvas. *)
Definition protect (userAgent : string) (r : renderer) (p : page) : page :=
  MobileOptimizer.setupWebGLProtection
    (MobileOptimizer.new userAgent None) (Some r) p.

End Browser.

(** ** The puppeteer diagnostic scripts *)

Module Diagnostics.
Import Page.

(** The [Error] handed to a [pageerror] listener. *)
Record page_error := { message : string; stack : option string }.

Inductive page_event :=
| ConsoleMessage (type text : string)
| PageError (e : page_error)
| RequestFailed (url errorText : string)
| Response (status : Z) (url : string).

Definition show_Z (z : Z) : string := DecimalString.NilZero.string_of_int (Z.to_int z).

Definition show_bool (b : bool) : string := if b then "true" else "false".

(** [error.stack || error.message]: an absent or empty stack is falsy. *)
Definition stack_or_message (e : page_error) : string :=
  match stack e with
  | Some s => if String.eqb s "" then message e else s
  | None => message e
  end.

(** *** The driver's timeouts *)

(** What the other side does when nothing cuts the wait short: the
    awaited condition comes about after [after] ms, the wait fails after
    [after] ms with the driver's error text, or nothing ever comes
    back. *)
Inductive answer :=
| Loads (after : Z)
| Fails (after : Z) (msg : string)
| Silent.

(** A promise of the driver raced against its timer, as puppeteer
    documents the [timeout] option: an answer that has not come before
    [timeout] ms have passed is given up and the promise is rejected
    with the timeout error; a timeout of 0 switches the timer off.  The
    result is how the promise settles and after how many milliseconds;
    [None] is a promise that never settles. *)
Definition race (timeout : Z) (timeout_error : string) (a : answer)
  : option (completion unit * Z) :=
  match a with
  | Loads t =>
      if (timeout =? 0) || (t <? timeout) then Some (Normal tt, t)
      else Some (Throw timeout_error, timeout)
  | Fails t msg =>
      if (timeout =? 0) || (t <? timeout) then Some (Throw msg, t)
      else Some (Throw timeout_error, timeout)
  | Silent =>
      if timeout =? 0 then None else Some (Throw timeout_error, timeout)
  end.

(** [page.goto(url, { waitUntil: 'networkidle0', timeout })] *)
Definition goto (timeout : Z) (a : answer) : option (completion unit * Z) :=
  race timeout ("Navigation timeout of " ++ show_Z timeout ++ " ms exceeded")%string a.

(** [page.waitForFunction(fn, { timeout })] *)
Definition waitForFunction (timeout : Z) (a : answer) : option (completion unit * Z) :=
  race timeout ("Waiting failed: " ++ show_Z timeout ++ "ms exceeded")%string a.

(** One browser session as the script sees it: how [page.goto] settles
    and after how many milliseconds, the events delivered to the
    listeners, and whether [page.$('canvas')] finds an element. *)
Record session := {
  navigation : completion unit;
  took : Z;
  events : list page_event;
  canvas_found : bool
}.

(** The site a script is pointed at: how it answers the navigation, the
    events its page gives rise to, and whether it shows a canvas. *)
Record website := {
  reply : answer;
  emits : list page_event;
  shows_canvas : bool
}.

(** The session a script gets out of a site when it navigates with the
    given timeout; [None] when the navigation never settles. *)
Definition visit (timeout : Z) (w : website) : option session :=
  match goto timeout (reply w) with
  | Some (outcome, t) =>
      Some {| navigation := outcome; took := t; events := emits w;
              canvas_found := shows_canvas w |}
  | None => None
  end.

(** What is left of a finished Node process: the lines the script wrote
    on either stream, the rejection that left the module body uncaught
    (Node reports it on the error stream in its own format and ends the
    process with status 1), the exit status and the time waited. *)
Record process := {
  stdout : list string;
  stderr : list string;
  uncaught : option string;
  exit_code : Z;
  waited : Z          (* milliseconds spent in page.goto and in sleeps *)
}.

(** *** check.mjs *)

Module CheckScript.

(** [msg => logs.push(`${msg.type()}: ${msg.text()}`)] *)
Definition on_console (logs : list string) (type text : string) : list string :=
  logs ++ [(type ++ ": " ++ text)%string].

(** [error => errors.push(error.message)] *)
Definition on_pageerror (errors : list string) (e : page_error) : list string :=
  errors ++ [message e].

(** The two arrays after the listeners have seen [evs]. *)
Definition listen (evs : list page_event) : list string * list string :=
  fold_left (fun '(logs, errors) ev =>
               match ev with
               | ConsoleMessage ty tx => (on_console logs ty tx, errors)
               | PageError e => (logs, on_pageerror errors e)
               | _ => (logs, errors)
               end) evs ([], []).

Definition timeout : Z := 15000.

(** The module body from the settled navigation on.  A rejected
    [page.goto] is not handled by the script: the top-level [await]
    rethrows and the process ends with status 1.  (Line breaks inside
    the printed headers and the screenshot step of the local variant are
    left out.) *)
Definition run (b : session) : process :=
  match navigation b with
  | Throw msg =>
      {| stdout := []; stderr := []; uncaught := Some msg; exit_code := 1;
         waited := took b |}
  | Normal _ =>
      let '(logs, errors) := listen (events b) in
      {| stdout :=
           ["=== Console Logs ==="] ++ logs ++ ["=== Errors ==="]
           ++ (match errors with
               | [] => ["No errors"]
               | _ => map (fun err => ("ERROR: " ++ err)%string) errors
               end)
           ++ [("Canvas exists: " ++ show_bool (canvas_found b))%string];
         stderr := [];
         uncaught := None;
         exit_code := 0;
         waited := took b + 5000 |}
  end.

(** The script against a site: [page.goto] with the script's timeout,
    then the rest of the body; [None] is a process that never ends. *)
Definition main (w : website) : option process := option_map run (visit timeout w).

End CheckScript.

(** *** check-detailed.mjs *)

Module CheckDetailedScript.

Definition on_console (logs : list string) (type text : string) : list string :=
  logs ++ [(type ++ ": " ++ text)%string].

(** [error => errors.push(error.stack || error.message)] *)
Definition on_pageerror (errors : list string) (e : page_error) : list string :=
  errors ++ [stack_or_message e].

Definition on_requestfailed (failed : list string) (url errorText : string) : list string :=
  failed ++ [(url ++ " - " ++ errorText)%string].

Definition on_response (failed : list string) (status : Z) (url : string) : list string :=
  if 400 <=? status then failed ++ [(show_Z status ++ " " ++ url)%string] else failed.

Definition listen (evs : list page_event)
  : list string * list string * list string :=
  fold_left (fun '(logs, errors, failed) ev =>
               match ev with
               | ConsoleMessage ty tx => (on_console logs ty tx, errors, failed)
               | PageError e => (logs, on_pageerror errors e, failed)
               | RequestFailed u t => (logs, errors, on_requestfailed failed u t)
               | Response st u => (logs, errors, on_response failed st u)
               end) evs ([], [], []).

Definition timeout : Z := 15000.

Definition run (b : session) : process :=
  match navigation b with
  | Throw msg =>
      {| stdout := []; stderr := []; uncaught := Some msg; exit_code := 1;
         waited := took b |}
  | Normal _ =>
      let '(logs, errors, failed) := listen (events b) in
      {| stdout :=
           ["=== Console Logs ==="] ++ logs ++ ["=== Errors ==="]
           ++ map (fun err => ("ERROR: " ++ err)%string) errors
           ++ ["=== Failed Requests ==="] ++ failed
           ++ [("Canvas exists: " ++ show_bool (canvas_found b))%string];
         stderr := [];
         uncaught := None;
         exit_code := 0;
         waited := took b + 5000 |}
  end.

Definition main (w : website) : option process := option_map run (visit timeout w).

End CheckDetailedScript.

(** *** test-mobile-safari.mjs *)

(** What the script records in its instance, what it writes on the
    error stream, how it ends and how long it waits are modelled.  Its
    standard output (progress lines, console warnings relayed from the
    page, the printed report) is not; the time stamps of the crash
    points are left out. *)

Module SafariDiagnostics.
Import JsString.

Record config := { cfg_name : string; cfg_isMobile : bool }.

Definition testConfigs : list config :=
  [ {| cfg_name := "Safari Desktop (Latest)"; cfg_isMobile := false |};
    {| cfg_name := "Safari Mobile iOS 17"; cfg_isMobile := true |};
    {| cfg_name := "Safari Mobile iOS 16"; cfg_isMobile := true |};
    {| cfg_name := "Safari iPad"; cfg_isMobile := true |} ].

(** What a successful run measured. *)
Record measurements := { loadTime : Z; sceneObjects : Z }.

(** One configuration's browser as the script meets it.  The two
    waits that have a timer of their own are given by what they wait
    for; every other awaited step is taken to settle and is given by
    how it does.
    - how [puppeteer.launch] settles;
    - how the set-up of the page settles ([newPage], [setUserAgent],
      [setViewport], [evaluateOnNewDocument]);
    - what [page.goto] meets;
    - when [window.scene && window.renderer && window.camera] comes
      true, for [page.waitForFunction];
    - how the steps from the WebGL probe to the closing diagnostics
      query end (on success with the number of scene objects) and how
      long they take;
    - the messages of the ['error'] events the page gives off while
      the inner [try] block is pending;
    - how [browser.close] settles. *)
Record attempt := {
  launch : completion unit;
  setup : completion unit;
  site : answer;
  initialised : answer;
  probes : completion Z;
  probes_took : Z;
  crashes : list string;
  close : completion unit
}.

Record crash := { crash_config : string; crash_error : string }.

Inductive metrics :=
| Succeeded (m : measurements)
| Failed (error : string).

Definition is_failed (m : metrics) : bool :=
  match m with Failed _ => true | Succeeded _ => false end.

Record recommendation := {
  category : string;
  priority : string;
  items : list string
}.

Definition mobile_optimization : recommendation :=
  {| category := "Mobile Optimization"; priority := "High";
     items := ["Implement texture atlasing to reduce draw calls";
               "Add mobile-specific LOD (Level of Detail) system";
               "Use compressed texture formats (ASTC, ETC2)";
               "Implement memory pooling for Three.js objects"] |}.

Definition webgl_stability : recommendation :=
  {| category := "WebGL Stability"; priority := "Critical";
     items := ["Add WebGL context loss/restore handlers";
               "Implement fallback to Canvas 2D rendering";
               "Add error boundaries around Three.js initialization";
               "Use WebGL 1.0 compatibility mode for older devices"] |}.

(** [generateRecommendations], the list saved in the JSON report. *)
Definition generateRecommendations (cs : list crash) : list recommendation :=
  (if existsb (fun c => includes (crash_config c) "Mobile") cs
   then [mobile_optimization] else [])
  ++ (if existsb (fun c => includes (crash_error c) "WebGL") cs
      then [webgl_stability] else []).

(** The content of safari-diagnostics-report.json. *)
Record report := {
  report_crashPoints : list crash;
  report_performanceMetrics : list (string * metrics);
  recommendations : list recommendation
}.

(** Instance fields, the error stream, the time waited and the report
    file; [performanceMetrics] is keyed by configuration name and keeps
    insertion order. *)
Record diagnostics := {
  crashPoints : list crash;
  performanceMetrics : list (string * metrics);
  err : list string;
  elapsed : Z;        (* milliseconds spent in the awaited steps of the inner try *)
  saved : option report
}.

Definition initial : diagnostics :=
  {| crashPoints := []; performanceMetrics := []; err := [];
     elapsed := 0; saved := None |}.

(** [obj[key] = value] on an insertion-ordered object. *)
Fixpoint assign (key : string) (v : metrics) (o : list (string * metrics))
  : list (string * metrics) :=
  match o with
  | [] => [(key, v)]
  | (k, w) :: o' => if String.eqb k key then (k, v) :: o' else (k, w) :: assign key v o'
  end.

Definition navigation_timeout : Z := 30000.

Definition initialisation_timeout : Z := 15000.

(** The [page.on('error')] listener. *)
Definition on_error (c : config) (d : diagnostics) (msg : string) : diagnostics :=
  {| crashPoints := crashPoints d ++ [{| crash_config := cfg_name c; crash_error := msg |}];
     performanceMetrics := performanceMetrics d;
     err := err d ++ [("💥 Page crash detected: " ++ msg)%string];
     elapsed := elapsed d;
     saved := saved d |}.

(** The [catch] block of the inner [try]. *)
Definition on_failure (c : config) (msg : string) (dt : Z) (d : diagnostics) : diagnostics :=
  {| crashPoints := crashPoints d ++ [{| crash_config := cfg_name c; crash_error := msg |}];
     performanceMetrics := assign (cfg_name c) (Failed msg) (performanceMetrics d);
     err := err d ++ [("   ❌ Failed to load: " ++ msg)%string];
     elapsed := elapsed d + dt;
     saved := saved d |}.

(** The end of the inner [try] block when nothing was thrown. *)
Definition on_success (c : config) (m : measurements) (dt : Z) (d : diagnostics)
  : diagnostics :=
  {| crashPoints := crashPoints d;
     performanceMetrics := assign (cfg_name c) (Succeeded m) (performanceMetrics d);
     err := err d;
     elapsed := elapsed d + dt;
     saved := saved d |}.

(** The inner [try ... catch]: the navigation, the wait for three.js,
    the probes; whatever is thrown on the way is caught.  The page's
    ['error'] events come in while the block is pending, so before the
    [catch] block runs.  [None]: an awaited step never settles. *)
Definition navigate (c : config) (a : attempt) (d : diagnostics) : option diagnostics :=
  let d1 := fold_left (on_error c) (crashes a) d in
  match goto navigation_timeout (site a) with
  | None => None
  | Some (Throw msg, t) => Some (on_failure c msg t d1)
  | Some (Normal _, t) =>
      match waitForFunction initialisation_timeout (initialised a) with
      | None => None
      | Some (Throw msg, t') => Some (on_failure c msg (t + t') d1)
      | Some (Normal _, t') =>
          match probes a with
          | Throw msg => Some (on_failure c msg (t + t' + probes_took a) d1)
          | Normal n =>
              Some (on_success c {| loadTime := t + t'; sceneObjects := n |}
                      (t + t' + probes_took a) d1)
          end
      end
  end.

(** [testSafariConfig]: the instance as the call leaves it and the
    rejection of the call, if any.  A failed launch rejects at once; a
    failed set-up rejects after the [finally] block has closed the
    browser; a failed [browser.close] rejects in any case. *)
Definition testSafariConfig (c : config) (a : attempt) (d : diagnostics)
  : option (diagnostics * option string) :=
  match launch a with
  | Throw msg => Some (d, Some msg)
  | Normal _ =>
      let tried :=
        match setup a with
        | Throw msg => Some (d, Some msg)
        | Normal _ => option_map (fun d1 => (d1, None)) (navigate c a d)
        end in
      match tried with
      | None => None
      | Some (d1, raised) =>
          Some (d1, match close a with
                    | Throw msg => Some msg
                    | Normal _ => raised
                    end)
      end
  end.

(** The conditions of the two recommendation sections that
    [generateDiagnosticReport] prints on the console. *)
Definition hasMobileIssues (cs : list crash) : bool :=
  existsb (fun cr => includes (crash_config cr) "Mobile"
                     || includes (crash_config cr) "iPhone"
                     || includes (crash_config cr) "iPad") cs.

Definition hasWebGLCrashes (cs : list crash) : bool :=
  existsb (fun cr => includes (crash_error cr) "WebGL"
                     || includes (crash_error cr) "context") cs.

(** [generateDiagnosticReport]: after the printing,
    [fs.writeFileSync] saves the report or throws. *)
Definition generateDiagnosticReport (write : completion unit) (d : diagnostics)
  : diagnostics * option string :=
  match write with
  | Throw msg => (d, Some msg)
  | Normal _ =>
      ({| crashPoints := crashPoints d;
          performanceMetrics := performanceMetrics d;
          err := err d;
          elapsed := elapsed d;
          saved := Some {| report_crashPoints := crashPoints d;
                           report_performanceMetrics := performanceMetrics d;
                           recommendations := generateRecommendations (crashPoints d) |} |},
       None)
  end.

(** The [for ... of] loop of [testSafariCompatibility]: a rejected
    [testSafariConfig] ends it. *)
Fixpoint test_each (env : string -> attempt) (cs : list config) (d : diagnostics)
  : option (diagnostics * option string) :=
  match cs with
  | [] => Some (d, None)
  | c :: cs' =>
      match testSafariConfig c (env (cfg_name c)) d with
      | Some (d1, None) => test_each env cs' d1
      | stopped => stopped
      end
  end.

(** [testSafariCompatibility]: every configuration in turn, then the
    report. *)
Definition testSafariCompatibility
    (env : string -> attempt) (write : completion unit) (d : diagnostics)
  : option (diagnostics * option string) :=
  match test_each env testConfigs d with
  | Some (d1, None) => Some (generateDiagnosticReport write d1)
  | stopped => stopped
  end.

(** The module body: [await diagnostics.testSafariCompatibility()] on a
    new instance. *)
Definition run (env : string -> attempt) (write : completion unit)
  : option (diagnostics * option string) :=
  testSafariCompatibility env write initial.

(** The exit status of the process: 0 when the awaited run returns, 1
    when its rejection leaves the module body. *)
Definition exit_status (ending : diagnostics * option string) : Z :=
  match snd ending with
  | Some _ => 1
  | None => 0
  end.

End SafariDiagnostics.

End Diagnostics.

(** ** Specification-side vocabulary *)

Module Spec.
Import JsString.

(** The string with every ASCII letter folded to upper case. *)
Fixpoint fold_case (s : string) : string :=
  match s with
  | EmptyString => EmptyString
  | String c s' => String (canonicalize c) (fold_case s')
  end.

(** [tok] occurs in [ua], letter case ignored. *)
Definition has_token_ci (tok ua : string) : Prop :=
  exists pre mid post : string,
    ua = (pre ++ mid ++ post)%string /\ fold_case mid = fold_case tok.

Definition mobile_tokens : list string := ["iPhone"; "iPad"; "iPod"; "Android"].

(** The user agent carries a mobile device token. *)
Definition has_mobile_token (ua : string) : Prop :=
  exists tok, In tok mobile_tokens /\ has_token_ci tok ua.

(** The desktop default bundle. *)
Import MobileOptimizer.

Definition desktop_camera : camera_settings :=
  {| fov := 60; near := 1%Q; far := 2000;
     cam_position := {| pos_x := 0; pos_y := 0; pos_z := 28 |} |}.

Definition desktop_lighting : lighting :=
  {| sunLight := {| color := 16777215; intensity := 8%Q; distance := None |};
     ambientLight := {| color := 16777215; intensity := (4 # 10)%Q; distance := None |};
     rimLight := {| color := 13952511; intensity := 6%Q; distance := None |};
     textLight := {| color := 16775399; intensity := 5%Q; distance := Some 30 |} |}.

Definition desktop_performance (dpr : Q) : performance_settings :=
  {| pixelRatio := Qmin dpr 2; shadowMapSize := 2048; maxLights := 8;
     enableShadows := true; enablePostProcessing := false;
     textureQuality := "high" |}.


(** Capability probing, in the words of the contract. *)
Import Page WebGLFallback.

Definition no_context (p : page) : Prop :=
  webgl p = None /\ experimental_webgl p = None.

Definition blocklisted (gl : gl_context) : Prop :=
  exists d driver,
    WEBGL_debug_renderer_info gl = Some d
    /\ In driver problematicDrivers
    /\ (includes (UNMASKED_RENDERER_WEBGL d) driver = true
        \/ includes (UNMASKED_VENDOR_WEBGL d) driver = true).

Definition limits_below_floor (gl : gl_context) : Prop :=
  exists texture attribs,
    MAX_TEXTURE_SIZE gl = Normal texture
    /\ MAX_VERTEX_ATTRIBS gl = Normal attribs
    /\ (texture < 1024 \/ attribs < 8).

Definition query_throws (gl : gl_context) : Prop :=
  (exists msg, MAX_TEXTURE_SIZE gl = Throw msg)
  \/ (exists msg, MAX_VERTEX_ATTRIBS gl = Throw msg).

Definition probing_fails (p : page) : Prop :=
  no_context p
  \/ exists gl, getContext_webgl p = Some gl
                /\ (blocklisted gl \/ limits_below_floor gl \/ query_throws gl).

(** Scene objects during the memory cleanup.  [x] is the object's
    record before the cleanup; its geometry and material references
    never change. *)
Import Three.

(** [o] has no parent any more and what [x] referred to is disposed. *)
Definition detached_and_disposed (st : scene) (o : nat) (x : object3d) : Prop :=
  (exists x', objects st !! o = Some x' /\ parent x' = None)
  /\ (forall g, geometry x = Some g -> g ∈ disposed_geometries st)
  /\ (forall m, m ∈ materials_of (material x) -> m ∈ disposed_materials st).

(** [o] still hangs under [p], which lists it among its children. *)
Definition linked_to_parent (st : scene) (o : nat) (x : object3d) (p : nat) : Prop :=
  exists x' po,
    objects st !! o = Some x' /\ parent x' = Some p
    /\ geometry x' = geometry x /\ material x' = material x
    /\ objects st !! p = Some po /\ o ∈ children po.

(** The script errors among the events of a session, in order. *)
Import Diagnostics.

(** A site that cannot be reached: the navigation to it fails or is
    never answered. *)
Definition unreachable (a : answer) : Prop :=
  match a with
  | Loads _ => False
  | Fails _ _ => True
  | Silent => True
  end.

Fixpoint page_errors (evs : list page_event) : list page_error :=
  match evs with
  | [] => []
  | PageError e :: evs' => e :: page_errors evs'
  | _ :: evs' => page_errors evs'
  end.

End Spec.

(** ** Sample pages and scenes *)

Module Samples.
Import Dom Page.

(** A page with the given body and WebGL answer, nothing scheduled. *)
Definition page_with (f : list node) (fresh : nat) (gl : option gl_context) : page :=
  {| body := f; next_id := fresh; now := 0; timers := []; listeners := [];
     console := []; webgl := gl; experimental_webgl := None;
     innerWidth := 1280; innerHeight := 720; window_animate := true;
     performance_memory := false; animationLoop := true;
     memoryMonitoring := false; defaultPrevented := false;
     next_frame := 0%nat; reloads := 0%nat |}.

Definition capable_gl : gl_context :=
  {| WEBGL_debug_renderer_info :=
       Some {| UNMASKED_RENDERER_WEBGL := "Apple GPU";
               UNMASKED_VENDOR_WEBGL := "Apple Inc." |};
     MAX_TEXTURE_SIZE := Normal 16384;
     MAX_VERTEX_ATTRIBS := Normal 16 |}.

(** One 3D canvas (element 0) inside a container, no WebGL. *)
Definition one_canvas_no_webgl : page :=
  page_with [Elem 1 div "" [Elem 0 canvas "" []]] 2 None.

(** Two canvases side by side, no WebGL. *)
Definition two_canvases_no_webgl : page :=
  page_with [Elem 0 canvas "" []; Elem 1 canvas "" []] 2 None.

(** The 3D canvas (element 0) on a page with working WebGL. *)
Definition live_scene : page :=
  page_with [Elem 0 canvas "" []] 1 (Some capable_gl).

Definition scene_renderer : renderer :=
  {| domElement := 0%nat; has_setAnimationLoop := true |}.

Definition safari_desktop : string :=
  "Mozilla/5.0 (Macintosh; Intel Mac OS X 10_15_7) AppleWebKit/605.1.15 (KHTML, like Gecko) Version/17.0 Safari/605.1.15".

Definition chrome_desktop : string :=
  "Mozilla/5.0 (Macintosh; Intel Mac OS X 10_15_7) AppleWebKit/537.36 (KHTML, like Gecko) Chrome/119.0.0.0 Safari/537.36".

Definition iphone_safari : string :=
  "Mozilla/5.0 (iPhone; CPU iPhone OS 17_0 like Mac OS X) AppleWebKit/605.1.15 (KHTML, like Gecko) Version/17.0 Mobile/15E148 Safari/604.1".

Definition android_chrome : string :=
  "Mozilla/5.0 (Linux; Android 13; SM-S911B) AppleWebKit/537.36 (KHTML, like Gecko) Chrome/119.0.0.0 Mobile Safari/537.36".

Import Three.

Definition mesh (p : option nat) (g : nat) (m : material_slot) : object3d :=
  {| parent := p; children := []; geometry := Some g; material := m |}.

Definition group (cs : list nat) : object3d :=
  {| parent := None; children := cs; geometry := None; material := NoMaterial |}.

Definition globals_with (arr : list nat) (objs : gmap nat object3d)
  : MobileOptimizer.globals :=
  {| MobileOptimizer.orbitalObjects := Some arr;
     MobileOptimizer.scene_defined := true;
     MobileOptimizer.gc_defined := false;
     MobileOptimizer.three_declared := true;
     MobileOptimizer.cache_defined := true;
     MobileOptimizer.three :=
       {| objects := objs; disposed_geometries := ∅; disposed_materials := ∅ |};
     MobileOptimizer.cache_clears := 0%nat;
     MobileOptimizer.gc_calls := 0%nat;
     MobileOptimizer.log_lines := [] |}.

(** Three orbital objects under the scene root (object 10). *)
Definition three_in_scene : MobileOptimizer.globals :=
  globals_with [0; 1; 2]%nat
    (list_to_map
       [(10%nat, group [0; 1; 2]%nat);
        (0%nat, mesh (Some 10%nat) 100 (SingleMaterial 200));
        (1%nat, mesh (Some 10%nat) 101 (SingleMaterial 201));
        (2%nat, mesh (Some 10%nat) 102 (MaterialArray [202; 203]%nat))]).

(** The third orbital object was never added to the scene. *)
Definition third_without_parent : MobileOptimizer.globals :=
  globals_with [0; 1; 2]%nat
    (list_to_map
       [(10%nat, group [0; 1]%nat);
        (0%nat, mesh (Some 10%nat) 100 (SingleMaterial 200));
        (1%nat, mesh (Some 10%nat) 101 (SingleMaterial 201));
        (2%nat, mesh None 102 (SingleMaterial 202))]).

(** Four orbital objects; the last two share geometry 102, and only
    the third hangs in the scene. *)
Definition shared_geometry : MobileOptimizer.globals :=
  globals_with [0; 1; 2; 3]%nat
    (list_to_map
       [(10%nat, group [0; 1; 2]%nat);
        (0%nat, mesh (Some 10%nat) 100 (SingleMaterial 200));
        (1%nat, mesh (Some 10%nat) 101 (SingleMaterial 201));
        (2%nat, mesh (Some 10%nat) 102 (SingleMaterial 202));
        (3%nat, mesh None 102 (SingleMaterial 203))]).

(** The first orbital object is listed a second time. *)
Definition first_listed_twice : MobileOptimizer.globals :=
  globals_with [0; 1; 0]%nat
    (list_to_map
       [(10%nat, group [0; 1]%nat);
        (0%nat, mesh (Some 10%nat) 100 (SingleMaterial 200));
        (1%nat, mesh (Some 10%nat) 101 (SingleMaterial 201))]).

Import Diagnostics.

(** A script error with a stack trace. *)
Definition thrown_on_load : page_error :=
  {| message := "boom is not defined";
     stack := Some "ReferenceError: boom is not defined at https://kyros.cc/:12:3" |}.

Definition connection_refused : string :=
  "net::ERR_CONNECTION_REFUSED at http://localhost:3000".

(** Nothing listens on the port: every navigation is refused after
    40 ms. *)
Definition refusing : website :=
  {| reply := Fails 40 connection_refused; emits := []; shows_canvas := false |}.

(** A host that never answers. *)
Definition black_hole : website :=
  {| reply := Silent; emits := []; shows_canvas := false |}.

(** The browser starts and stops normally and every navigation is
    refused after 40 ms. *)
Definition unreachable (config_name : string) : SafariDiagnostics.attempt :=
  {| SafariDiagnostics.launch := Normal tt;
     SafariDiagnostics.setup := Normal tt;
     SafariDiagnostics.site := Fails 40 connection_refused;
     SafariDiagnostics.initialised := Silent;
     SafariDiagnostics.probes := Throw "";
     SafariDiagnostics.probes_took := 0;
     SafariDiagnostics.crashes := [];
     SafariDiagnostics.close := Normal tt |}.

(** The page crashes once while the navigation is pending, and the
    navigation then fails. *)
Definition crashing (config_name : string) : SafariDiagnostics.attempt :=
  {| SafariDiagnostics.launch := Normal tt;
     SafariDiagnostics.setup := Normal tt;
     SafariDiagnostics.site := Fails 900 "Navigating frame was detached";
     SafariDiagnostics.initialised := Silent;
     SafariDiagnostics.probes := Throw "";
     SafariDiagnostics.probes_took := 0;
     SafariDiagnostics.crashes := ["Page crashed!"];
     SafariDiagnostics.close := Normal tt |}.

End Samples.

(** ** Further behaviour of the optimizer *)

Module RendererOptions.
Import Page MobileOptimizer.

(** The object handed to [THREE.WebGLRenderer]; [None] is a property the
    object does not have. *)
Record renderer_options := {
  antialias : bool;
  alpha : bool;
  powerPreference : string;
  precision : option string;
  logarithmicDepthBuffer : option bool;
  stencil : option bool;
  depth : option bool
}.

Definition getOptimizedRendererOptions (o : optimizer) : renderer_options :=
  if isMobile o then
    {| antialias := negb (isMobile o); alpha := false;
       powerPreference := "high-performance";
       precision := Some "mediump"; logarithmicDepthBuffer := Some false;
       stencil := Some false; depth := Some true |}
  else
    {| antialias := negb (isMobile o); alpha := false;
       powerPreference := "high-performance";
       precision := None; logarithmicDepthBuffer := None;
       stencil := None; depth := None |}.

End RendererOptions.

Module TouchGestures.

Inductive touch_event :=
| touchstart (touches : nat)
| touchmove (touches : nat)
| touchend (time : Z).   (* [Date.now()] when the handler runs *)

(** One event through the three listeners of [optimizeTouchGestures]:
    whether [preventDefault] is called, and [lastTouchTime] afterwards. *)
Definition handle (e : touch_event) (lastTouchTime : Z) : bool * Z :=
  match e with
  | touchstart n => ((1 <? n)%nat, lastTouchTime)
  | touchmove n => ((1 <? n)%nat, lastTouchTime)
  | touchend currentTime => (currentTime - lastTouchTime <? 300, currentTime)
  end.

(** The events of a session in order: the calls of [preventDefault] and
    the closing [lastTouchTime]. *)
Fixpoint deliver (evs : list touch_event) (lastTouchTime : Z) : list bool * Z :=
  match evs with
  | [] => ([], lastTouchTime)
  | e :: evs' =>
      let '(prevented, t) := handle e lastTouchTime in
      let '(rest, t') := deliver evs' t in
      (prevented :: rest, t')
  end.

(** [optimizeTouchGestures]: on a mobile optimizer the listeners are
    installed with [lastTouchTime = 0] and see every event; otherwise
    nothing is installed and no default is ever prevented. *)
Definition optimizeTouchGestures (o : MobileOptimizer.optimizer)
    (evs : list touch_event) : list bool :=
  if negb (MobileOptimizer.isMobile o) then map (fun _ => false) evs
  else fst (deliver evs 0).

Definition is_touchend (e : touch_event) : bool :=
  match e with touchend _ => true | _ => false end.

End TouchGestures.

Module MemoryMonitor.
Import Three MobileOptimizer.

(** What one run of the interval callback reads: [None] when
    [window.performance.memory] is missing, else the computed [usedMB]
    and [usagePercent] (the latter [None] when it is NaN). *)
Definition sample := option (Q * option Q).

Definition above (threshold : Q) (usagePercent : option Q) : bool :=
  match usagePercent with
  | Some u => negb (Qle_bool u threshold)
  | None => false
  end.

Definition set_currentMemoryUsage (usedMB : Q) (o : optimizer) : optimizer :=
  {| isMobile := isMobile o; isSafari := isSafari o; isIOS := isIOS o;
     devicePixelRatio := devicePixelRatio o; memoryLimit := memoryLimit o;
     currentMemoryUsage := usedMB |}.

Definition add_log (line : string) (w : globals) : globals :=
  {| orbitalObjects := orbitalObjects w; scene_defined := scene_defined w;
     gc_defined := gc_defined w; three_declared := three_declared w;
     cache_defined := cache_defined w;
     three := three w; cache_clears := cache_clears w;
     gc_calls := gc_calls w; log_lines := log_lines w ++ [line] |}.

(** The callback of [startMemoryMonitoring]: the optimizer and the
    globals as it leaves them, and the exception that ended it, if any.
    An exception out of [triggerMemoryCleanup] ends the callback before
    the second threshold is looked at.  (The figures inside the first
    console line are left out.) *)
Definition tick (s : sample) (o : optimizer) (w : globals) : optimizer * ended :=
  match s with
  | None => (o, (w, None))
  | Some (usedMB, usagePercent) =>
      let o1 := set_currentMemoryUsage usedMB o in
      let '(w1, raised) :=
        if above 80 usagePercent
        then triggerMemoryCleanup (add_log "⚠️ High memory usage" w)
        else (w, None) in
      match raised with
      | Some e => (o1, (w1, Some e))
      | None =>
          if above 95 usagePercent
          then (o1, emergencyMemoryCleanup
                      (add_log "🚨 Critical memory usage - forcing cleanup" w1))
          else (o1, (w1, None))
      end
  end.

End MemoryMonitor.

(** ** Further diagnostic scripts *)

Module CheckSiteScript.
Import Page Diagnostics JsString.

Definition on_console (logs : list string) (type text : string) : list string :=
  logs ++ [(type ++ ": " ++ text)%string].

Definition on_pageerror (errors : list string) (e : page_error) : list string :=
  errors ++ [message e].

(** [response => { if (url.includes('Fabric_Lace')) networkRequests.push(...) }] *)
Definition on_response (networkRequests : list string) (status : Z) (url : string)
  : list string :=
  if includes url "Fabric_Lace"
  then networkRequests ++ [(show_Z status ++ " " ++ url)%string]
  else networkRequests.

Definition listen (evs : list page_event) : list string * list string * list string :=
  fold_left (fun '(logs, errors, networkRequests) ev =>
               match ev with
               | ConsoleMessage ty tx => (on_console logs ty tx, errors, networkRequests)
               | PageError e => (logs, on_pageerror errors e, networkRequests)
               | Response st u => (logs, errors, on_response networkRequests st u)
               | RequestFailed _ _ => (logs, errors, networkRequests)
               end) evs ([], [], []).

(** [log.includes('font') || log.includes('texture') || log.includes('load')] *)
Definition relevant (log : string) : bool :=
  includes log "font" || includes log "texture" || includes log "load".

Definition timeout : Z := 20000.

(** The module body; the first line is printed before the navigation
    starts.  (Line breaks inside the printed headers are left out.) *)
Definition run (b : session) : process :=
  match navigation b with
  | Throw msg =>
      {| stdout := ["Loading https://kyros.cc..."]; stderr := [];
         uncaught := Some msg; exit_code := 1; waited := took b |}
  | Normal _ =>
      let '(logs, errors, networkRequests) := listen (events b) in
      {| stdout :=
           ["Loading https://kyros.cc...";
            "Waiting 10 seconds for textures and fonts to load...";
            "=== Lace Texture Loading ==="]
           ++ (match networkRequests with
               | [] => ["No lace texture requests detected"]
               | _ => networkRequests
               end)
           ++ ["=== JavaScript Errors ==="]
           ++ (match errors with
               | [] => ["No errors"]
               | _ => map (fun err => ("ERROR: " ++ err)%string) errors
               end)
           ++ ["=== Relevant Console Logs ==="]
           ++ List.filter relevant logs
           ++ ["=== Canvas ==="; ("Exists: " ++ show_bool (canvas_found b))%string];
         stderr := [];
         uncaught := None;
         exit_code := 0;
         waited := took b + 10000 |}
  end.

Definition main (w : website) : option process := option_map run (visit timeout w).

End CheckSiteScript.

(** ** Vocabulary for the further properties *)

Module Reading.
Import Dom Page.

(** [sub] occurs in [s], letter case respected. *)
Definition has_substring (sub s : string) : Prop :=
  exists pre post : string, s = (pre ++ sub ++ post)%string.

(** [s] begins with [word], letter case ignored. *)
Definition begins_with_ci (word s : string) : Prop :=
  exists mid post : string,
    s = (mid ++ post)%string /\ Spec.fold_case mid = Spec.fold_case word.

(** [s] begins with [word], letter case respected. *)
Definition begins_with (word s : string) : Prop :=
  exists post : string, s = (word ++ post)%string.

(** Reading [ua] as [pre ++ rest]: no position inside [pre] begins one
    of the words (read on into [rest], letter case ignored) or a line
    terminator (LF, CR, U+2028, U+2029). *)
Definition clear_before (words : list string) (pre rest : string) : Prop :=
  forall pre1 c pre2,
    pre = (pre1 ++ String c pre2)%string ->
    (forall w, In w words -> ~ begins_with_ci w (String c pre2 ++ rest)%string)
    /\ (forall lt, In lt JsString.line_terminators ->
          ~ begins_with lt (String c pre2 ++ rest)%string).

(** The user agent reads as Safari: the word occurs with neither
    "chrome" nor "android" beginning anywhere before it. *)
Definition safari_signal (ua : string) : Prop :=
  exists pre rest : string,
    ua = (pre ++ rest)%string
    /\ begins_with_ci "safari" rest
    /\ clear_before ["chrome"; "android"] pre rest.

(** Element identities are distinct and below the creation counter. *)
Definition well_formed (p : page) : Prop :=
  List.Forall (fun u => (u < next_id p)%nat) (uids (body p))
  /\ NoDup (uids (body p)).

(** Everything on the page has been discarded by a reload. *)
Definition discarded (p : page) : Prop :=
  body p = [] /\ timers p = [] /\ listeners p = [].

(** The console messages among the events of a session, in order, as
    the scripts print them. *)
Fixpoint console_lines (evs : list Diagnostics.page_event) : list string :=
  match evs with
  | [] => []
  | Diagnostics.ConsoleMessage ty tx :: evs' =>
      (ty ++ ": " ++ tx)%string :: console_lines evs'
  | _ :: evs' => console_lines evs'
  end.

(** The failed configurations among the recorded metrics. *)
Definition failures (ms : list (string * Diagnostics.SafariDiagnostics.metrics)) : nat :=
  length (List.filter (fun e => Diagnostics.SafariDiagnostics.is_failed (snd e)) ms).

End Reading.

(** * Properties *)

(** ** Regular-expression tests against their reading as substring search *)

Section RegexFacts.
Import JsString Spec.

Lemma matches_at_ci_iff (pat s : string) :
  matches_at true pat s = true <->
  exists mid post, s = (mid ++ post)%string /\ fold_case mid = fold_case pat.
Proof.
  revert s. induction pat as [|p pat IH]; intros s; simpl.
  - split; [intros _|reflexivity].
    exists EmptyString, s. split; reflexivity.
  - destruct s as [|c s].
    + split; [discriminate|].
      intros (mid & post & Hs & Hf).
      destruct mid; simpl in *; discriminate.
    + rewrite andb_true_iff, IH. unfold char_eq. rewrite Ascii.eqb_eq. split.
      * intros (Hc & mid & post & -> & Hf).
        exists (String c mid), post. simpl. split; [reflexivity|].
        rewrite Hf, Hc. reflexivity.
      * intros (mid & post & Hs & Hf).
        destruct mid as [|m mid]; simpl in *; [discriminate|].
        injection Hs as -> ->. injection Hf as Hc Hf.
        split; [symmetry; exact Hc|]. exists mid, post. split; [reflexivity|exact Hf].
Qed.

Lemma test_alternatives_iff (ic : bool) (alts : list string) (s : string) :
  test_alternatives ic alts s = true <->
  exists pre suf, s = (pre ++ suf)%string /\ any_matches_at ic alts suf = true.
Proof.
  induction s as [|c s IH]; simpl.
  - rewrite orb_false_r. split.
    + intros H. exists EmptyString, EmptyString. split; [reflexivity|exact H].
    + intros (pre & suf & Hs & H).
      destruct pre; simpl in Hs; [|discriminate]. subst suf. exact H.
  - rewrite orb_true_iff, IH. split.
    + intros [H|(pre & suf & -> & H)].
      * exists EmptyString, (String c s). split; [reflexivity|exact H].
      * exists (String c pre), suf. split; [reflexivity|exact H].
    + intros (pre & suf & Hs & H).
      destruct pre as [|a pre]; simpl in Hs.
      * subst suf. left. exact H.
      * injection Hs as -> ->. right. exists pre, suf. split; [reflexivity|exact H].
Qed.

(** The mobile regular expression holds exactly of the user agents
    that carry one of the four tokens, letter case ignored. *)
Lemma test_isMobile_iff (ua : string) :
  MobileOptimizer.test_isMobile ua = true <-> has_mobile_token ua.
Proof.
  unfold MobileOptimizer.test_isMobile, has_mobile_token, has_token_ci.
  rewrite test_alternatives_iff. unfold any_matches_at. split.
  - intros (pre & suf & -> & H).
    apply existsb_exists in H as (tok & Hin & Hm).
    apply matches_at_ci_iff in Hm as (mid & post & -> & Hf).
    exists tok. split; [exact Hin|]. exists pre, mid, post. split; [reflexivity|exact Hf].
  - intros (tok & Hin & pre & mid & post & -> & Hf).
    exists pre, (mid ++ post)%string. split; [reflexivity|].
    apply existsb_exists. exists tok. split; [exact Hin|].
    apply matches_at_ci_iff. exists mid, post. split; [reflexivity|exact Hf].
Qed.

End RegexFacts.

(** ** Quality presets *)

Section Presets.
Import JsString Spec MobileOptimizer.

Lemma pixelRatio_capped (o : optimizer) :
  (pixelRatio (getPerformanceSettings o) <= (if isMobile o then 1 else 2))%Q.
Proof. simpl. apply Q.le_min_r. Qed.



(** Every getter of a non-mobile optimizer answers with the desktop
    values, whatever the other flags are. *)
Lemma non_mobile_getters (o : optimizer) :
  isMobile o = false ->
  getOptimizedStarCount o = 400
  /\ getOptimizedCameraSettings o = desktop_camera
  /\ getOptimizedLighting o = desktop_lighting
  /\ getPerformanceSettings o = desktop_performance (devicePixelRatio o).
Proof.
  intros Hm.
  unfold getOptimizedStarCount, getOptimizedCameraSettings, getOptimizedLighting,
    getPerformanceSettings.
  rewrite Hm. repeat split; reflexivity.
Qed.

(** C4. A user agent with no mobile token and no Safari signal (the
    empty string among them) makes every preset getter return the
    desktop default bundle: 400 stars, field of view 60, the desktop
    lights, and a pixel ratio that is the device's capped at 2.  The
    getters are total functions: no path of them raises. *)
Theorem unknown_user_agent_selects_desktop_bundle (ua : string) (rawDpr : option Q) :
  ~ has_mobile_token ua ->
  test_isSafari ua = false ->
  let o := MobileOptimizer.new ua rawDpr in
  getOptimizedStarCount o = 400
  /\ getOptimizedCameraSettings o = desktop_camera
  /\ fov (getOptimizedCameraSettings o) = 60
  /\ getOptimizedLighting o = desktop_lighting
  /\ getPerformanceSettings o = desktop_performance (dpr_or_1 rawDpr)
  /\ (pixelRatio (getPerformanceSettings o) <= 2)%Q.
Proof.
  intros Hno _ o.
  assert (Hm : isMobile o = false).
  { destruct (isMobile o) eqn:E; [|reflexivity].
    exfalso. apply Hno. apply test_isMobile_iff. exact E. }
  destruct (non_mobile_getters o Hm) as (Hs & Hc & Hl & Hp).
  split; [exact Hs|]. split; [exact Hc|].
  split; [rewrite Hc; reflexivity|].
  split; [exact Hl|]. split; [exact Hp|].
  pose proof (pixelRatio_capped o) as H. rewrite Hm in H. exact H.
Qed.

Lemma unknown_user_agent_selects_desktop_bundle_witness :
  let o := MobileOptimizer.new "" None in
  getOptimizedStarCount o = 400
  /\ fov (getOptimizedCameraSettings o) = 60
  /\ pixelRatio (getPerformanceSettings o) = 1%Q.
Proof.
  intros o.
  assert (Hno : ~ has_mobile_token "").
  { intros H. apply test_isMobile_iff in H. discriminate H. }
  destruct (unknown_user_agent_selects_desktop_bundle "" None Hno eq_refl)
    as (Hs & _ & Hf & _ & Hp & _).
  split; [exact Hs|]. split; [exact Hf|].
  subst o. rewrite Hp. reflexivity.
Defined.

End Presets.

(** ** The document tree *)

Section DomFacts.
Import Dom.

(** Induction on a node with the property available for all children. *)
Lemma node_children_ind (P : node -> Prop) :
  (forall u t h cs, List.Forall P cs -> P (Elem u t h cs)) ->
  forall n, P n.
Proof.
  intros step. fix self 1. intros [u t h cs]. apply step.
  induction cs as [|c cs IHcs]; constructor; [apply self | exact IHcs].
Qed.

Lemma in_elements_prune (u : nat) (n : node) (e : nat * tag) :
  In e (elements (prune u n)) -> In e (preorder n) /\ fst e <> u.
Proof.
  revert e. induction n as [v t h cs IH] using node_children_ind. intros e.
  simpl. destruct (Nat.eqb_spec v u) as [->|Hne]; [intros []|].
  unfold elements. simpl. rewrite app_nil_r. intros [<-|Hin].
  - split; [left; reflexivity | exact Hne].
  - apply List.in_flat_map in Hin as (m & Hm & He).
    apply List.in_flat_map in Hm as (c & Hc & Hm).
    rewrite List.Forall_forall in IH.
    destruct (IH c Hc e) as [Hpre Hfst].
    { apply List.in_flat_map. exists m. split; assumption. }
    split; [right; apply List.in_flat_map; exists c; split; assumption | exact Hfst].
Qed.

(** What is left after detaching [u] was there before, and is not [u]. *)
Lemma in_elements_remove (u : nat) (f : list node) (e : nat * tag) :
  In e (elements (remove u f)) -> In e (elements f) /\ fst e <> u.
Proof.
  unfold elements at 1, remove. intros Hin.
  apply List.in_flat_map in Hin as (m & Hm & He).
  apply List.in_flat_map in Hm as (c & Hc & Hm).
  destruct (in_elements_prune u c e) as [Hpre Hfst].
  { apply List.in_flat_map. exists m. split; assumption. }
  split; [apply List.in_flat_map; exists c; split; assumption | exact Hfst].
Qed.

Lemma not_attached_remove (u : nat) (f : list node) : ~ attached u (remove u f).
Proof.
  unfold attached, uids. intros Hin.
  apply List.in_map_iff in Hin as (e & He & Hin).
  apply in_elements_remove in Hin as [_ Hne]. contradiction.
Qed.

Lemma attached_remove_before (u v : nat) (f : list node) :
  attached v (remove u f) -> attached v f.
Proof.
  unfold attached, uids. intros Hin.
  apply List.in_map_iff in Hin as (e & He & Hin).
  apply in_elements_remove in Hin as [Hin _].
  apply List.in_map_iff. exists e. split; assumption.
Qed.

Lemma in_canvases (v : nat) (f : list node) :
  In v (canvases f) <-> In (v, canvas) (elements f).
Proof.
  unfold canvases. rewrite List.in_map_iff. split.
  - intros ([w t] & Hw & Hin). apply List.filter_In in Hin as [Hin Hc].
    simpl in *. subst w. destruct t; try discriminate. exact Hin.
  - intros Hin. exists (v, canvas). split; [reflexivity|].
    apply List.filter_In. split; [exact Hin | reflexivity].
Qed.

Lemma canvases_attached (v : nat) (f : list node) :
  In v (canvases f) -> attached v f.
Proof.
  intros Hin. apply in_canvases in Hin.
  unfold attached, uids. apply List.in_map_iff. exists (v, canvas).
  split; [reflexivity | exact Hin].
Qed.

Lemma canvases_app (f g : list node) :
  canvases (f ++ g) = canvases f ++ canvases g.
Proof.
  unfold canvases, elements.
  rewrite List.flat_map_app, List.filter_app, List.map_app. reflexivity.
Qed.

Lemma uids_app (f g : list node) : uids (f ++ g) = uids f ++ uids g.
Proof.
  unfold uids, elements. rewrite List.flat_map_app, List.map_app. reflexivity.
Qed.

(** Detaching the only canvas leaves none. *)
Lemma canvases_remove_only (u : nat) (f : list node) :
  canvases f = [u] -> canvases (remove u f) = [].
Proof.
  intros Hone. destruct (canvases (remove u f)) as [|v l] eqn:E; [reflexivity|].
  assert (Hv : In v (canvases (remove u f))) by (rewrite E; left; reflexivity).
  apply in_canvases in Hv. apply in_elements_remove in Hv as [Hv Hne].
  apply in_canvases in Hv. rewrite Hone in Hv.
  destruct Hv as [<-|[]]. contradiction.
Qed.

End DomFacts.

(** ** The fallback *)

Section Fallback.
Import Dom Page WebGLFallback Spec.

(** The document after [enableFallbackMode]: the first canvas is gone,
    a new canvas and the notification banner close the body. *)
Lemma enableFallbackMode_body (s : fallback) (p : page) :
  body (snd (enableFallbackMode s p)) =
  match querySelector_canvas (body p) with
  | Some existing => remove existing (body p)
  | None => body p
  end ++ [Elem (next_id p) Dom.canvas "" [];
          Elem (S (S (next_id p))) div notification_html []].
Proof.
  unfold enableFallbackMode, initializeFallbackCanvas.
  destruct (querySelector_canvas (body p)); simpl; rewrite <- app_assoc; reflexivity.
Qed.

Lemma enableFallbackMode_fields (s : fallback) (p : page) :
  fallbackMode (fst (enableFallbackMode s p)) = true
  /\ canvas (fst (enableFallbackMode s p)) = Some (next_id p)
  /\ ctx (fst (enableFallbackMode s p)) = Some (next_id p).
Proof.
  unfold enableFallbackMode, initializeFallbackCanvas.
  destruct (querySelector_canvas (body p)); simpl; repeat split.
Qed.

Lemma enableFallbackMode_listeners (s : fallback) (p : page) :
  listeners (snd (enableFallbackMode s p)) =
  listeners p ++ [(Window, resize, FallbackResize)].
Proof.
  unfold enableFallbackMode, initializeFallbackCanvas.
  destruct (querySelector_canvas (body p)); reflexivity.
Qed.

Lemma enableFallbackMode_activations (s : fallback) (p : page) :
  activations (snd (enableFallbackMode s p)) = S (activations p).
Proof.
  unfold activations. rewrite enableFallbackMode_listeners.
  rewrite List.filter_app, length_app. simpl. lia.
Qed.

(** With at most one canvas in the document, [enableFallbackMode]
    leaves exactly the new one. *)
Lemma enableFallbackMode_single_canvas (s : fallback) (p : page) :
  (length (canvases (body p)) <= 1)%nat ->
  canvases (body (snd (enableFallbackMode s p))) = [next_id p].
Proof.
  intros Hlen. rewrite enableFallbackMode_body, canvases_app.
  unfold querySelector_canvas.
  destruct (canvases (body p)) as [|u [|v l]] eqn:E; simpl in Hlen; try lia; simpl.
  - rewrite E. reflexivity.
  - rewrite (canvases_remove_only u (body p) E). reflexivity.
Qed.

(** The two ways probing ends: it fails, one line is logged and the
    fallback is enabled on the page as it stood; or it succeeds and
    nothing but the detached probe canvas was created. *)
Lemma detectWebGLSupport_cases (p : page) :
  let p1 := set_next_id (S (next_id p)) p in
  (probing_fails p
   /\ exists line,
       detectWebGLSupport initial p = (false, enableFallbackMode initial (log line p1)))
  \/ (~ probing_fails p /\ detectWebGLSupport initial p = (true, (initial, p1))).
Proof.
  intros p1. subst p1.
  unfold detectWebGLSupport, createElement.
  change (getContext_webgl (set_next_id (S (next_id p)) p)) with (getContext_webgl p).
  destruct (getContext_webgl p) as [gl|] eqn:Hctx.
  2:{ left. split; [|eexists; reflexivity].
      left. unfold getContext_webgl in Hctx. unfold no_context.
      destruct (webgl p); [discriminate|]. split; [reflexivity | exact Hctx]. }
  assert (Hgl : forall gl', getContext_webgl p = Some gl' -> gl' = gl)
    by (intros gl' H; rewrite Hctx in H; injection H as <-; reflexivity).
  assert (Hnoctx : ~ no_context p).
  { intros [H1 H2]. unfold getContext_webgl in Hctx. rewrite H1, H2 in Hctx. discriminate. }
  destruct (match WEBGL_debug_renderer_info gl with
            | Some debugInfo => hasProblematicDriver debugInfo
            | None => false
            end) eqn:Hdrv.
  { left. split; [|eexists; reflexivity].
    right. exists gl. split; [exact Hctx|]. left.
    destruct (WEBGL_debug_renderer_info gl) as [d|] eqn:Hd; [|discriminate].
    unfold hasProblematicDriver in Hdrv.
    apply existsb_exists in Hdrv as (driver & Hin & Hor).
    apply orb_true_iff in Hor.
    exists d, driver. split; [exact Hd|]. split; assumption. }
  assert (Hnoblock : ~ blocklisted gl).
  { intros (d & driver & Hd & Hin & Hor). rewrite Hd in Hdrv.
    unfold hasProblematicDriver in Hdrv.
    assert (Ht : existsb
              (fun drv => JsString.includes (UNMASKED_RENDERER_WEBGL d) drv
                          || JsString.includes (UNMASKED_VENDOR_WEBGL d) drv)
              problematicDrivers = true).
    { apply existsb_exists. exists driver. split; [exact Hin|].
      apply orb_true_iff. exact Hor. }
    rewrite Ht in Hdrv. discriminate. }
  destruct (MAX_TEXTURE_SIZE gl) as [texture|msg] eqn:Ht.
  2:{ left. split; [|eexists; reflexivity].
      right. exists gl. split; [exact Hctx|]. right. right. left. exists msg. exact Ht. }
  destruct (MAX_VERTEX_ATTRIBS gl) as [attribs|msg] eqn:Ha.
  2:{ left. split; [|eexists; reflexivity].
      right. exists gl. split; [exact Hctx|]. right. right. right. exists msg. exact Ha. }
  destruct ((texture <? 1024) || (attribs <? 8)) eqn:Hlow.
  { left. split; [|eexists; reflexivity].
    right. exists gl. split; [exact Hctx|]. right. left.
    exists texture, attribs. split; [exact Ht|]. split; [exact Ha|].
    apply orb_true_iff in Hlow as [H|H]; apply Z.ltb_lt in H; [left|right]; exact H. }
  right. split; [|reflexivity].
  intros [Hn|(gl' & Hgl' & Hcase)]; [exact (Hnoctx Hn)|].
  apply Hgl in Hgl'. subst gl'.
  destruct Hcase as [Hb|[(t & a & Ht' & Ha' & Hlt)|[(m & Hm)|(m & Hm)]]].
  - exact (Hnoblock Hb).
  - rewrite Ht in Ht'. rewrite Ha in Ha'. injection Ht' as <-. injection Ha' as <-.
    apply orb_false_iff in Hlow as [H1 H2].
    apply Z.ltb_ge in H1. apply Z.ltb_ge in H2. lia.
  - rewrite Ht in Hm. discriminate.
  - rewrite Ha in Hm. discriminate.
Qed.

(** C1 (as amended).  When capability probing fails (no WebGL context
    among the ways) and the document holds at most one canvas,
    constructing the fallback leaves exactly one canvas in the document:
    the canvas that was there is detached, and the only canvas left is
    the newly created fallback canvas held in the [canvas] field.
    Element identities handed out so far are below the page's counter. *)
Theorem forced_fallback_leaves_single_canvas (p : page) :
  probing_fails p ->
  (length (canvases (body p)) <= 1)%nat ->
  List.Forall (fun u => (u < next_id p)%nat) (uids (body p)) ->
  let s := fst (WebGLFallback.new p) in
  let p' := snd (WebGLFallback.new p) in
  fallbackMode s = true
  /\ canvas s = Some (S (next_id p))
  /\ canvases (body p') = [S (next_id p)]
  /\ (forall old, In old (canvases (body p)) -> ~ attached old (body p')).
Proof.
  intros Hfail Hlen Hfresh s p'. subst s p'. unfold WebGLFallback.new.
  destruct (detectWebGLSupport_cases p) as [(_ & line & ->)|(Hok & _)];
    [|contradiction].
  cbn [snd].
  set (p1 := log _ _).
  destruct (enableFallbackMode_fields initial p1) as (Hmode & Hcanvas & _).
  split; [exact Hmode|]. split; [exact Hcanvas|].
  split; [exact (enableFallbackMode_single_canvas initial p1 Hlen)|].
  intros old Hold. rewrite enableFallbackMode_body.
  change (body p1) with (body p). change (next_id p1) with (S (next_id p)).
  assert (Hlt : (old < next_id p)%nat).
  { rewrite List.Forall_forall in Hfresh. apply Hfresh.
    apply canvases_attached. exact Hold. }
  unfold querySelector_canvas.
  destruct (canvases (body p)) as [|u [|v l]] eqn:E; simpl in Hlen; try lia.
  - destruct Hold.
  - destruct Hold as [<-|[]]. simpl.
    unfold attached. rewrite uids_app. intros Hin.
    apply List.in_app_or in Hin as [Hin|Hin].
    + exact (not_attached_remove u (body p) Hin).
    + simpl in Hin. lia.
Qed.

Lemma forced_fallback_leaves_single_canvas_witness :
  let p' := snd (WebGLFallback.new Samples.one_canvas_no_webgl) in
  canvases (body Samples.one_canvas_no_webgl) = [0%nat]
  /\ canvases (body p') = [3%nat]
  /\ ~ attached 0%nat (body p').
Proof.
  intros p'.
  assert (Hfresh : List.Forall (fun u => (u < 2)%nat) [1; 0]%nat)
    by (repeat constructor).
  assert (Hfail : probing_fails Samples.one_canvas_no_webgl)
    by (left; split; reflexivity).
  destruct (forced_fallback_leaves_single_canvas Samples.one_canvas_no_webgl
              Hfail (le_n 1) Hfresh) as (_ & _ & Hone & Hgone).
  split; [reflexivity|]. split; [exact Hone|].
  apply Hgone. left. reflexivity.
Defined.

(** C1, the claim as stated, fails on a document with two canvases:
    only the first is detached, so two canvases remain, one of them a
    canvas that was there before. *)
Lemma two_canvases_survive_forced_fallback :
  let p := Samples.two_canvases_no_webgl in
  let p' := snd (WebGLFallback.new p) in
  getContext_webgl p = None
  /\ canvases (body p) = [0; 1]%nat
  /\ canvases (body p') = [1; 3]%nat
  /\ canvas (fst (WebGLFallback.new p)) = Some 3%nat.
Proof. repeat split. Qed.

End Fallback.

Section Activation.
Import Dom Page WebGLFallback Spec.

Lemma handle_when_active (s : fallback) (p : page) :
  fallbackMode s = true -> handleWebGLContextLoss s p = (s, p).
Proof. intros H. unfold handleWebGLContextLoss. rewrite H. reflexivity. Qed.

Lemma handle_sets_mode (s : fallback) (p : page) :
  fallbackMode (fst (handleWebGLContextLoss s p)) = true.
Proof.
  unfold handleWebGLContextLoss. destruct (fallbackMode s) eqn:E; cbn [negb fst].
  - exact E.
  - apply enableFallbackMode_fields.
Qed.

Lemma contextLosses_when_active (n : nat) (s : fallback) (p : page) :
  fallbackMode s = true -> contextLosses n s p = (s, p).
Proof.
  intros H. induction n as [|n IH]; simpl; [reflexivity|].
  rewrite (handle_when_active s p H). exact IH.
Qed.

Lemma contextLosses_collapse (n : nat) (s : fallback) (p : page) :
  contextLosses (S n) s p = handleWebGLContextLoss s p.
Proof.
  simpl. pose proof (handle_sets_mode s p) as H.
  destruct (handleWebGLContextLoss s p) as [s1 p1]. simpl in H.
  apply contextLosses_when_active. exact H.
Qed.

Lemma handle_activations (s : fallback) (p : page) :
  activations (snd (handleWebGLContextLoss s p)) =
  if fallbackMode s then activations p else S (activations p).
Proof.
  unfold handleWebGLContextLoss. destruct (fallbackMode s); cbn [negb snd]; [reflexivity|].
  rewrite enableFallbackMode_activations. reflexivity.
Qed.

(** The constructor either leaves the instance untouched (probing
    succeeded) or has activated the fallback exactly once. *)
Lemma new_activations (p : page) :
  (fallbackMode (fst (WebGLFallback.new p)) = true
   /\ activations (snd (WebGLFallback.new p)) = S (activations p))
  \/ (fallbackMode (fst (WebGLFallback.new p)) = false
      /\ activations (snd (WebGLFallback.new p)) = activations p).
Proof.
  unfold WebGLFallback.new, detectWebGLSupport, createElement.
  repeat match goal with
         | |- context [match ?x with _ => _ end] => destruct x
         end;
    cbn [snd fst];
    try (left; split;
         [apply enableFallbackMode_fields | rewrite enableFallbackMode_activations; reflexivity]);
    right; split; reflexivity.
Qed.

(** C2. A context-loss notification that arrives while the fallback is
    active changes nothing, neither the instance nor the page; any run
    of notifications has the effect of its first one; and an instance,
    from its construction on, mounts at most one fallback canvas however
    many notifications follow. *)
Theorem context_loss_activates_at_most_once (s : fallback) (p : page) (n : nat) :
  (fallbackMode s = true -> handleWebGLContextLoss s p = (s, p))
  /\ handleWebGLContextLoss (fst (handleWebGLContextLoss s p))
                            (snd (handleWebGLContextLoss s p))
     = handleWebGLContextLoss s p
  /\ contextLosses (S n) s p = handleWebGLContextLoss s p
  /\ (activations
        (snd (contextLosses n (fst (WebGLFallback.new p)) (snd (WebGLFallback.new p))))
      <= S (activations p))%nat.
Proof.
  split; [apply handle_when_active|].
  split.
  { pose proof (handle_sets_mode s p) as H.
    destruct (handleWebGLContextLoss s p) as [s1 p1]. simpl in *.
    apply handle_when_active. exact H. }
  split; [apply contextLosses_collapse|].
  destruct (new_activations p) as [[Hmode Hact]|[Hmode Hact]].
  - rewrite (contextLosses_when_active n _ _ Hmode). simpl. lia.
  - destruct n as [|n]; [simpl; lia|].
    rewrite contextLosses_collapse, handle_activations, Hmode. lia.
Qed.

Lemma enable_branch (s : fallback) (p : page) :
  fallbackMode (fst (enableFallbackMode s p)) = true.
Proof. apply enableFallbackMode_fields. Qed.

(** The instance after [enableFallbackMode]: the scene is built and
    the first frame has been drawn. *)
Lemma enableFallbackMode_instance (s : fallback) (p : page) :
  stars (fst (enableFallbackMode s p)) = starfield_size p
  /\ orbitalObjects (fst (enableFallbackMode s p)) = fallbackOrbitals
  /\ earthImage (fst (enableFallbackMode s p)) = Some (S (next_id p))
  /\ animationId (fst (enableFallbackMode s p)) = Some (next_frame p)
  /\ animationTime (fst (enableFallbackMode s p)) = S (animationTime s)
  /\ timers (snd (enableFallbackMode s p))
     = timers p ++ [{| due := now p + 5000;
                       action := RemoveIfAttached (S (S (next_id p))) |}].
Proof.
  unfold enableFallbackMode, initializeFallbackCanvas.
  destruct (querySelector_canvas (body p)); repeat split.
Qed.

(** C5. Probing at construction enables the fallback exactly when it
    fails: no context is obtainable, or the renderer or vendor string
    contains a blocklisted driver name, or a probed limit is below the
    floor (texture size under 1024 or vertex attributes under 8), or a
    limit query raises.  Otherwise [detectWebGLSupport] answers true,
    the instance keeps its initial fields and nothing is mounted: the
    document, the timers and the listeners are as before.  When probing
    fails the 2D fallback is put up: the first canvas of the document is
    taken out, a new canvas (held in the [canvas] and [ctx] fields) and
    the notification banner are appended to the body, the starfield, the
    earth image and the six orbiting objects are created, the first
    frame is drawn and the next one requested, one resize listener is
    added and the banner's removal is scheduled. *)
Theorem fallback_enabled_iff_probing_fails (p : page) :
  let r := detectWebGLSupport initial p in
  (fallbackMode (fst (snd r)) = true <-> probing_fails p)
  /\ (fst r = true <-> ~ probing_fails p)
  /\ (~ probing_fails p ->
      fst (snd r) = initial
      /\ body (snd (snd r)) = body p
      /\ timers (snd (snd r)) = timers p
      /\ listeners (snd (snd r)) = listeners p)
  /\ (probing_fails p ->
      let s := fst (snd r) in
      let q := snd (snd r) in
      let mounted := S (next_id p) in
      let banner := S (S mounted) in
      body q = match querySelector_canvas (body p) with
               | Some existing => remove existing (body p)
               | None => body p
               end ++ [Elem mounted Dom.canvas "" [];
                       Elem banner div notification_html []]
      /\ In mounted (canvases (body q))
      /\ canvas s = Some mounted
      /\ ctx s = Some mounted
      /\ stars s = starfield_size p
      /\ orbitalObjects s = fallbackOrbitals
      /\ length (orbitalObjects s) = 6%nat
      /\ earthImage s = Some (S mounted)
      /\ animationId s = Some (next_frame p)
      /\ animationTime s = 1%nat
      /\ listeners q = listeners p ++ [(Window, resize, FallbackResize)]
      /\ timers q = timers p ++ [{| due := now p + 5000;
                                    action := RemoveIfAttached banner |}]).
Proof.
  intros r. subst r.
  destruct (detectWebGLSupport_cases p) as [(Hfail & line & ->)|(Hok & ->)]; cbn [fst snd].
  - rewrite enable_branch.
    split; [tauto|]. split; [split; [discriminate | tauto]|].
    split; [tauto|]. intros _. cbn zeta.
    set (p1 := log line (set_next_id (S (next_id p)) p)).
    pose proof (enableFallbackMode_body initial p1) as Hbody.
    destruct (enableFallbackMode_fields initial p1) as (_ & Hcanvas & Hctx).
    destruct (enableFallbackMode_instance initial p1)
      as (Hst & Horb & Hearth & Hid & Htime & Htim).
    pose proof (enableFallbackMode_listeners initial p1) as Hlis.
    change (body p1) with (body p) in Hbody.
    change (next_id p1) with (S (next_id p)) in Hbody, Hcanvas, Hctx, Hearth, Htim.
    change (starfield_size p1) with (starfield_size p) in Hst.
    change (next_frame p1) with (next_frame p) in Hid.
    change (listeners p1) with (listeners p) in Hlis.
    change (timers p1) with (timers p) in Htim.
    change (now p1) with (now p) in Htim.
    split; [exact Hbody|].
    split.
    { rewrite Hbody, canvases_app. apply List.in_or_app. right. left. reflexivity. }
    split; [exact Hcanvas|]. split; [exact Hctx|].
    split; [exact Hst|]. split; [exact Horb|].
    split; [rewrite Horb; reflexivity|].
    split; [exact Hearth|]. split; [exact Hid|].
    split; [exact Htime|]. split; [exact Hlis | exact Htim].
  - change (fallbackMode initial) with false.
    split; [split; [discriminate | tauto]|].
    split; [tauto|]. split; [intros _; repeat split | contradiction].
Qed.

End Activation.

(** ** Timers and banners *)

Section Timers.
Import Dom Page.

Lemma next_timer_none (ts : list timer) : next_timer ts = None -> ts = [].
Proof.
  destruct ts as [|tm ts]; [reflexivity|]. simpl.
  destruct (next_timer ts) as [[m rest]|]; [destruct (due m <? due tm)|]; discriminate.
Qed.

(** The timer picked is a pending one with the least due time, and the
    rest is what was pending without it. *)
Lemma next_timer_some (ts : list timer) (m : timer) (rest : list timer) :
  next_timer ts = Some (m, rest) ->
  (forall x, In x ts <-> x = m \/ In x rest)
  /\ (forall x, In x ts -> due m <= due x)
  /\ length ts = S (length rest).
Proof.
  revert m rest. induction ts as [|tm ts IH]; intros m rest; simpl; [discriminate|].
  destruct (next_timer ts) as [[m' rest']|] eqn:E.
  - destruct (IH m' rest' eq_refl) as (Hmem & Hmin & Hlen).
    destruct (Z.ltb_spec (due m') (due tm)) as [Hlt|Hge]; intros [= <- <-].
    + split; [|split].
      * intros x. simpl. rewrite Hmem. intuition congruence.
      * intros x [<-|Hx]; [lia | apply Hmin; exact Hx].
      * simpl. rewrite Hlen. reflexivity.
    + split; [|split].
      * intros x. simpl. intuition congruence.
      * intros x [<-|Hx]; [lia|]. specialize (Hmin x Hx). lia.
      * reflexivity.
  - intros [= <- <-]. apply next_timer_none in E. subst ts.
    split; [|split].
    + intros x. simpl. intuition congruence.
    + intros x [<-|[]]. lia.
    + reflexivity.
Qed.

(** Once the loop has run up to [until], an element with a removal
    timer due by then is no longer in the document; an element that was
    not attached stays so. *)
Lemma run_timers_detaches (fuel : nat) (until : Z) (u : nat) (p : page) :
  (length (timers p) <= fuel)%nat ->
  (exists tm, In tm (timers p) /\ action tm = RemoveIfAttached u /\ due tm <= until)
  \/ ~ attached u (body p) ->
  ~ attached u (body (run_timers fuel until p)).
Proof.
  revert p. induction fuel as [|fuel IH]; intros p Hlen Hcase.
  - simpl. destruct Hcase as [(tm & Hin & _)|Hgone]; [|exact Hgone].
    destruct (timers p); [destruct Hin | simpl in Hlen; lia].
  - simpl. destruct (next_timer (timers p)) as [[m rest]|] eqn:E.
    2:{ apply next_timer_none in E. destruct Hcase as [(tm & Hin & _)|Hgone]; [|exact Hgone].
        rewrite E in Hin. destruct Hin. }
    destruct (next_timer_some _ _ _ E) as (Hmem & Hmin & Hl).
    destruct (Z.leb_spec (due m) until) as [Hdue|Hlate].
    2:{ destruct Hcase as [(tm & Hin & _ & Htm)|Hgone]; [|exact Hgone].
        specialize (Hmin tm Hin). lia. }
    apply IH.
    + destruct (action m); simpl; lia.
    + destruct Hcase as [(tm & Hin & Hact & Htm)|Hgone].
      * apply Hmem in Hin as [->|Hin].
        -- right. rewrite Hact. simpl. apply not_attached_remove.
        -- destruct (action m) as [v|]; simpl.
           ++ left. exists tm. split; [exact Hin|]. split; assumption.
           ++ right. intros [].
      * right. destruct (action m) as [v|]; simpl.
        -- intros Hin. apply Hgone. exact (attached_remove_before v u _ Hin).
        -- intros [].
Qed.

Lemma advance_detaches (delay : Z) (u : nat) (p : page) :
  (exists tm, In tm (timers p) /\ action tm = RemoveIfAttached u
              /\ due tm <= now p + delay) ->
  ~ attached u (body (advance delay p)).
Proof.
  intros H. unfold advance. cbn [body set_now].
  apply run_timers_detaches; [lia | left; exact H].
Qed.

(** With nothing else pending, a lone timer does not fire early. *)
Lemma advance_before_due (delay : Z) (tm : timer) (p : page) :
  timers p = [tm] -> now p + delay < due tm ->
  body (advance delay p) = body p.
Proof.
  intros Hts Hearly. unfold advance. rewrite Hts. simpl. rewrite Hts. simpl.
  destruct (Z.leb_spec (due tm) (now p + delay)); [lia | reflexivity].
Qed.

End Timers.

Section Banners.
Import Dom Page.

Lemma showFallbackMessage_effect (msg : string) (p : page) :
  body (MobileOptimizer.showFallbackMessage msg p)
    = body p ++ [Elem (next_id p) div (MobileOptimizer.overlay_html msg) []]
  /\ timers (MobileOptimizer.showFallbackMessage msg p)
    = timers p ++ [{| due := now p + 5000; action := RemoveIfAttached (next_id p) |}]
  /\ now (MobileOptimizer.showFallbackMessage msg p) = now p.
Proof. repeat split. Qed.

Lemma showFallbackNotification_effect (p : page) :
  body (WebGLFallback.showFallbackNotification p)
    = body p ++ [Elem (next_id p) div WebGLFallback.notification_html []]
  /\ timers (WebGLFallback.showFallbackNotification p)
    = timers p ++ [{| due := now p + 5000; action := RemoveIfAttached (next_id p) |}]
  /\ now (WebGLFallback.showFallbackNotification p) = now p.
Proof. repeat split. Qed.

Lemma attached_last (u : nat) (t : tag) (h : string) (f : list node) :
  attached u (f ++ [Elem u t h []]).
Proof.
  unfold attached. rewrite uids_app. apply List.in_or_app. right. left. reflexivity.
Qed.

Lemma enableFallbackMode_timers (s : WebGLFallback.fallback) (p : page) :
  timers (snd (WebGLFallback.enableFallbackMode s p))
    = timers p ++ [{| due := now p + 5000;
                      action := RemoveIfAttached (S (S (next_id p))) |}]
  /\ now (snd (WebGLFallback.enableFallbackMode s p)) = now p.
Proof.
  unfold WebGLFallback.enableFallbackMode, WebGLFallback.initializeFallbackCanvas.
  destruct (querySelector_canvas (body p)); split; reflexivity.
Qed.

(** C9. Each banner of the rendering-failure paths is put in the
    document together with one timer of 5000 ms that takes it down:
    once 5000 ms or more have passed the banner is no longer in the
    document, and, when nothing else is pending, it is still there at
    any earlier time.  This holds for the overlay of
    [showFallbackMessage], for the notification of
    [showFallbackNotification], and along the two paths that raise
    them ([enableFallbackMode] and the optimizer's context-loss
    handler). *)
Theorem banners_removed_after_5s (p : page) (msg : string) (delay : Z) :
  5000 <= delay ->
  (let q := MobileOptimizer.showFallbackMessage msg p in
   attached (next_id p) (body q)
   /\ timers q = timers p ++ [{| due := now p + 5000;
                                 action := RemoveIfAttached (next_id p) |}]
   /\ ~ attached (next_id p) (body (advance delay q))
   /\ (timers p = [] -> forall early, early < 5000 ->
       attached (next_id p) (body (advance early q))))
  /\ (let q := WebGLFallback.showFallbackNotification p in
      attached (next_id p) (body q)
      /\ timers q = timers p ++ [{| due := now p + 5000;
                                    action := RemoveIfAttached (next_id p) |}]
      /\ ~ attached (next_id p) (body (advance delay q))
      /\ (timers p = [] -> forall early, early < 5000 ->
          attached (next_id p) (body (advance early q))))
  /\ (forall s,
      ~ attached (S (S (next_id p)))
          (body (advance delay (snd (WebGLFallback.enableFallbackMode s p)))))
  /\ (forall r,
      ~ attached (next_id p)
          (body (advance delay (MobileOptimizer.handleWebGLContextLoss r p)))).
Proof.
  intros Hdelay.
  split; [|split; [|split]].
  - intros q. destruct (showFallbackMessage_effect msg p) as (Hb & Ht & Hn).
    fold q in Hb, Ht, Hn.
    split; [rewrite Hb; apply attached_last|].
    split; [exact Ht|].
    split.
    + apply advance_detaches. eexists. rewrite Ht, Hn.
      split; [apply List.in_or_app; right; left; reflexivity|].
      split; [reflexivity | simpl; lia].
    + intros Hnone early Hearly.
      rewrite (advance_before_due early _ q (eq_trans Ht (f_equal (fun l => l ++ _) Hnone))).
      * rewrite Hb. apply attached_last.
      * rewrite Hn. simpl. lia.
  - intros q. destruct (showFallbackNotification_effect p) as (Hb & Ht & Hn).
    fold q in Hb, Ht, Hn.
    split; [rewrite Hb; apply attached_last|].
    split; [exact Ht|].
    split.
    + apply advance_detaches. eexists. rewrite Ht, Hn.
      split; [apply List.in_or_app; right; left; reflexivity|].
      split; [reflexivity | simpl; lia].
    + intros Hnone early Hearly.
      rewrite (advance_before_due early _ q (eq_trans Ht (f_equal (fun l => l ++ _) Hnone))).
      * rewrite Hb. apply attached_last.
      * rewrite Hn. simpl. lia.
  - intros s. destruct (enableFallbackMode_timers s p) as (Ht & Hn).
    apply advance_detaches. eexists. rewrite Ht, Hn.
    split; [apply List.in_or_app; right; left; reflexivity|].
    split; [reflexivity | simpl; lia].
  - intros r. apply advance_detaches.
    exists {| due := now p + 5000; action := RemoveIfAttached (next_id p) |}.
    split; [|split; [reflexivity|]].
    + unfold MobileOptimizer.handleWebGLContextLoss.
      destruct (has_setAnimationLoop r); simpl;
        apply List.in_or_app; left; apply List.in_or_app; right; left; reflexivity.
    + unfold MobileOptimizer.handleWebGLContextLoss.
      destruct (has_setAnimationLoop r); simpl; lia.
Qed.

Lemma banners_removed_after_5s_witness :
  let q := MobileOptimizer.showFallbackMessage "WebGL context lost - reloading..."
             Samples.live_scene in
  attached 1%nat (body q)
  /\ attached 1%nat (body (advance 4999 q))
  /\ ~ attached 1%nat (body (advance 5000 q)).
Proof.
  intros q.
  destruct (banners_removed_after_5s Samples.live_scene
              "WebGL context lost - reloading..." 5000 (Z.le_refl 5000))
    as ((Hshown & _ & Hgone & Hearly) & _).
  split; [exact Hshown|]. split; [|exact Hgone].
  apply (Hearly eq_refl 4999). reflexivity.
Defined.

End Banners.

(** ** Context loss on the 3D canvas *)

Section ContextLoss.
Import Dom Page Browser.

(** The optimizer's handler adds the overlay and two timers and
    touches nothing else of the document. *)
Lemma optimizer_handler_effect (r : renderer) (p : page) :
  let q := MobileOptimizer.handleWebGLContextLoss r p in
  body q = body p
             ++ [Elem (next_id p) div (MobileOptimizer.overlay_html MobileOptimizer.contextLostMessage) []]
  /\ timers q = timers p
                  ++ [{| due := now p + 5000; action := RemoveIfAttached (next_id p) |};
                      {| due := now p + 2000; action := ReloadPage |}]
  /\ animationLoop q = (if has_setAnimationLoop r then false else animationLoop p)
  /\ listeners q = listeners p.
Proof.
  unfold MobileOptimizer.handleWebGLContextLoss.
  destruct (has_setAnimationLoop r); simpl; rewrite <- app_assoc; repeat split.
Qed.

Lemma canvases_with_banner (f : list node) (u : nat) (h : string) :
  canvases (f ++ [Elem u div h []]) = canvases f.
Proof. rewrite canvases_app. simpl. apply app_nil_r. Qed.

Lemma listeners_for_app (tg : target) (e : event) (p : page)
      (extra : list (target * event * listener)) :
  listeners_for tg e (set_listeners (listeners p ++ extra) p) =
  listeners_for tg e p
    ++ map snd (List.filter
                  (fun r => target_eqb (fst (fst r)) tg && event_eqb (snd (fst r)) e)
                  extra).
Proof.
  unfold listeners_for. cbn [listeners set_listeners].
  rewrite List.filter_app, List.map_app. reflexivity.
Qed.

(** On Safari, [setupWebGLProtection] leaves exactly one more listener
    for [webglcontextlost] on the renderer's canvas. *)
Lemma protect_listeners (ua : string) (r : renderer) (p : page) :
  MobileOptimizer.test_isSafari ua = true ->
  listeners_for (Element (domElement r)) webglcontextlost (protect ua r p)
    = listeners_for (Element (domElement r)) webglcontextlost p
        ++ [OptimizerContextLost r].
Proof.
  intros Hs. unfold protect, MobileOptimizer.setupWebGLProtection, MobileOptimizer.new.
  cbn [MobileOptimizer.isSafari]. rewrite Hs. cbn [negb].
  unfold listeners_for.
  destruct (performance_memory _); cbn; rewrite !List.filter_app, !List.map_app;
    cbn; rewrite Nat.eqb_refl; cbn; rewrite app_nil_r; reflexivity.
Qed.

Lemma protect_body (ua : string) (r : renderer) (p : page) :
  body (protect ua r p) = body p
  /\ timers (protect ua r p) = timers p
  /\ next_id (protect ua r p) = next_id p
  /\ now (protect ua r p) = now p.
Proof.
  unfold protect, MobileOptimizer.setupWebGLProtection.
  destruct (negb _); [repeat split|].
  destruct (performance_memory _) eqn:E; cbn; rewrite ?E; repeat split.
Qed.

(** C6 (as amended).  On a page guarded by [setupWebGLProtection] with
    no earlier listener for the event on the canvas, a
    [webglcontextlost] event does the following.  Under a Safari user
    agent the optimizer's handler runs: the default is prevented, the
    animation loop is stopped (when the renderer has
    [setAnimationLoop]; otherwise it is left as it was), the overlay
    banner is appended, its removal is scheduled after 5000 ms and a
    page reload after 2000 ms; the canvases of the document are exactly
    those from before, so the 3D canvas stays and no fallback canvas is
    mounted.  Under any other
    user agent no listener was installed and the event changes
    nothing.  The fallback's own [handleWebGLContextLoss], when it is
    called on a document with at most one canvas, mounts the fallback
    canvas only if the fallback is not yet active. *)
Theorem context_loss_overlay_and_reload (ua : string) (r : renderer) (p : page) :
  listeners_for (Element (domElement r)) webglcontextlost p = [] ->
  let guarded := protect ua r p in
  let q := dispatchEvent (Element (domElement r)) webglcontextlost guarded in
  (MobileOptimizer.test_isSafari ua = true ->
     body q = body p ++ [Elem (next_id p) div
                           (MobileOptimizer.overlay_html MobileOptimizer.contextLostMessage) []]
     /\ canvases (body q) = canvases (body p)
     /\ timers q = timers p
                     ++ [{| due := now p + 5000; action := RemoveIfAttached (next_id p) |};
                         {| due := now p + 2000; action := ReloadPage |}]
     /\ defaultPrevented q = true
     /\ animationLoop q = (if has_setAnimationLoop r then false else animationLoop p))
  /\ (MobileOptimizer.test_isSafari ua = false -> q = p)
  /\ (forall s : WebGLFallback.fallback,
        (length (canvases (body p)) <= 1)%nat ->
        canvases (body (snd (WebGLFallback.handleWebGLContextLoss s p)))
        = if WebGLFallback.fallbackMode s then canvases (body p) else [next_id p]).
Proof.
  intros Hnone guarded q. split; [|split].
  - intros Hs. subst q. unfold dispatchEvent.
    subst guarded. rewrite (protect_listeners ua r p Hs), Hnone. cbn [app fold_left].
    unfold run_listener, MobileOptimizer.on_contextlost.
    destruct (protect_body ua r p) as (Hb & Ht & Hi & Hn).
    assert (Hloop : animationLoop (protect ua r p) = animationLoop p).
    { unfold protect, MobileOptimizer.setupWebGLProtection.
      destruct (negb _); [reflexivity|].
      destruct (performance_memory _); reflexivity. }
    set (g := protect ua r p) in *.
    destruct (optimizer_handler_effect r
                (set_defaultPrevented true
                   (log "🚨 WebGL context lost - preventing default" g)))
      as (Hb' & Ht' & Ha' & _).
    cbn [body timers next_id now animationLoop set_defaultPrevented log set_console]
      in Hb', Ht', Ha'.
    rewrite Hb, Hi in Hb'. rewrite Ht, Hi, Hn in Ht'. rewrite Hloop in Ha'.
    split; [exact Hb'|]. split; [rewrite Hb'; apply canvases_with_banner|].
    split; [exact Ht'|].
    split; [|exact Ha'].
    unfold MobileOptimizer.handleWebGLContextLoss.
    destruct (has_setAnimationLoop r); reflexivity.
  - intros Hs. subst q guarded.
    unfold protect, MobileOptimizer.setupWebGLProtection, MobileOptimizer.new.
    cbn [MobileOptimizer.isSafari]. rewrite Hs. cbn [negb].
    unfold dispatchEvent. rewrite Hnone. reflexivity.
  - intros s Hlen. unfold WebGLFallback.handleWebGLContextLoss.
    destruct (WebGLFallback.fallbackMode s); cbn [negb snd]; [reflexivity|].
    apply (enableFallbackMode_single_canvas s
             (log "🚨 WebGL context lost - switching to fallback mode" p) Hlen).
Qed.

Lemma context_loss_overlay_and_reload_witness :
  let q := dispatchEvent (Element 0) webglcontextlost
             (protect Samples.safari_desktop Samples.scene_renderer Samples.live_scene) in
  canvases (body q) = [0%nat]
  /\ timers q = [{| due := 5000; action := RemoveIfAttached 1 |};
                 {| due := 2000; action := ReloadPage |}].
Proof.
  intros q.
  destruct (context_loss_overlay_and_reload Samples.safari_desktop
              Samples.scene_renderer Samples.live_scene eq_refl)
    as (Hsafari & _ & _).
  destruct (Hsafari eq_refl) as (_ & Hc & Ht & _ & _).
  split; [exact Hc | exact Ht].
Defined.

(** C6, the claim as stated, fails on the guarded Safari page: after
    the event the 3D canvas is still the only canvas of the document,
    no fallback canvas was mounted, and a reload is pending that is
    carried out 2000 ms later. *)
Lemma context_loss_keeps_canvas_and_reloads :
  let guarded := protect Samples.safari_desktop Samples.scene_renderer Samples.live_scene in
  let q := dispatchEvent (Element 0) webglcontextlost guarded in
  canvases (body guarded) = [0%nat]
  /\ canvases (body q) = [0%nat]
  /\ timers q = [{| due := 5000; action := RemoveIfAttached 1 |};
                 {| due := 2000; action := ReloadPage |}]
  /\ reloads (advance 2000 q) = 1%nat
  /\ dispatchEvent (Element 0) webglcontextlost
       (protect Samples.chrome_desktop Samples.scene_renderer Samples.live_scene)
     = Samples.live_scene.
Proof.
  repeat split; vm_compute; reflexivity.
Qed.

End ContextLoss.

(** ** Diagnostic scripts *)

Section Scripts.
Import Page Diagnostics Spec.

Lemma check_listen_from (evs : list page_event) (logs errors : list string) :
  snd (fold_left (fun '(logs, errors) ev =>
                    match ev with
                    | ConsoleMessage ty tx => (CheckScript.on_console logs ty tx, errors)
                    | PageError e => (logs, CheckScript.on_pageerror errors e)
                    | _ => (logs, errors)
                    end) evs (logs, errors))
  = errors ++ map message (page_errors evs).
Proof.
  revert logs errors. induction evs as [|ev evs IH]; intros logs errors; simpl.
  - rewrite app_nil_r. reflexivity.
  - destruct ev; rewrite IH; try reflexivity.
    unfold CheckScript.on_pageerror. rewrite <- app_assoc. reflexivity.
Qed.

Lemma detailed_listen_from (evs : list page_event) (logs errors failed : list string) :
  snd (fst (fold_left (fun '(logs, errors, failed) ev =>
                    match ev with
                    | ConsoleMessage ty tx =>
                        (CheckDetailedScript.on_console logs ty tx, errors, failed)
                    | PageError e => (logs, CheckDetailedScript.on_pageerror errors e, failed)
                    | RequestFailed u t =>
                        (logs, errors, CheckDetailedScript.on_requestfailed failed u t)
                    | Response st u => (logs, errors, CheckDetailedScript.on_response failed st u)
                    end) evs (logs, errors, failed)))
  = errors ++ map stack_or_message (page_errors evs).
Proof.
  revert logs errors failed.
  induction evs as [|ev evs IH]; intros logs errors failed; simpl.
  - rewrite app_nil_r. reflexivity.
  - destruct ev; rewrite IH; try reflexivity.
    unfold CheckDetailedScript.on_pageerror. rewrite <- app_assoc. reflexivity.
Qed.

(** C7 (as amended).  The listener of check.mjs appends the error's
    message text unchanged, so the error list of a run is the list of
    messages of the script errors delivered, in order.  The listener of
    check-detailed.mjs appends the error's stack text when the error has
    a non-empty one, and the message text only when the stack is missing
    or empty. *)
Theorem pageerror_text_recorded
    (errors : list string) (e : page_error) (evs : list page_event) :
  CheckScript.on_pageerror errors e = errors ++ [message e]
  /\ snd (CheckScript.listen evs) = map message (page_errors evs)
  /\ (forall trace, stack e = Some trace -> trace <> "" ->
      CheckDetailedScript.on_pageerror errors e = errors ++ [trace])
  /\ (stack e = None \/ stack e = Some "" ->
      CheckDetailedScript.on_pageerror errors e = errors ++ [message e])
  /\ snd (fst (CheckDetailedScript.listen evs)) = map stack_or_message (page_errors evs).
Proof.
  split; [reflexivity|].
  split; [exact (check_listen_from evs [] [])|].
  split; [|split].
  - intros trace Hs Hne. unfold CheckDetailedScript.on_pageerror, stack_or_message.
    rewrite Hs. destruct (String.eqb_spec trace ""); [contradiction | reflexivity].
  - intros [Hs|Hs]; unfold CheckDetailedScript.on_pageerror, stack_or_message;
      rewrite Hs; reflexivity.
  - exact (detailed_listen_from evs [] [] []).
Qed.

(** C7, the claim as stated, fails for check-detailed.mjs: for an error
    that carries a stack trace the text recorded is the trace, which is
    not the message text. *)
Lemma detailed_script_records_stack :
  CheckDetailedScript.on_pageerror [] Samples.thrown_on_load
    = ["ReferenceError: boom is not defined at https://kyros.cc/:12:3"]
  /\ message Samples.thrown_on_load = "boom is not defined"
  /\ CheckDetailedScript.on_pageerror [] Samples.thrown_on_load
     <> [message Samples.thrown_on_load].
Proof. split; [reflexivity|]. split; [reflexivity | discriminate]. Qed.

Import SafariDiagnostics.

(** With its timer on, a raced promise settles, and no later than the
    timeout. *)
Lemma race_settles (timeout : Z) (e : string) (a : answer) :
  timeout <> 0 ->
  exists outcome t, race timeout e a = Some (outcome, t) /\ t <= timeout.
Proof.
  intros Hon. apply Z.eqb_neq in Hon. unfold race. rewrite Hon. cbn [orb].
  destruct a as [after|after msg|].
  - destruct (Z.ltb_spec after timeout); eexists _, _; (split; [reflexivity | lia]).
  - destruct (Z.ltb_spec after timeout); eexists _, _; (split; [reflexivity | lia]).
  - eexists _, _. split; [reflexivity | lia].
Qed.

(** Against a site that cannot be reached the promise is rejected. *)
Lemma race_unreachable (timeout : Z) (e : string) (a : answer) :
  timeout <> 0 -> unreachable a ->
  exists msg t, race timeout e a = Some (Throw msg, t) /\ t <= timeout.
Proof.
  intros Hon Hun. apply Z.eqb_neq in Hon. unfold race. rewrite Hon. cbn [orb].
  destruct a as [after|after msg|]; [destruct Hun| |].
  - destruct (Z.ltb_spec after timeout); eexists _, _; (split; [reflexivity | lia]).
  - eexists _, _. split; [reflexivity | lia].
Qed.

(** With the timer off a silent site leaves the promise pending. *)
Lemma race_silent (timeout : Z) (e : string) :
  race timeout e Silent = None <-> timeout = 0.
Proof.
  unfold race. destruct (Z.eqb_spec timeout 0) as [->|Hne].
  - split; reflexivity.
  - split; [discriminate | contradiction].
Qed.

Lemma assign_fresh (key : string) (v : metrics) (o : list (string * metrics)) :
  ~ In key (map fst o) -> assign key v o = o ++ [(key, v)].
Proof.
  induction o as [|[k w] o IH]; intros Hfresh; simpl; [reflexivity|].
  destruct (String.eqb_spec k key) as [->|Hne].
  - exfalso. apply Hfresh. left. reflexivity.
  - rewrite IH; [reflexivity|]. intros Hin. apply Hfresh. right. exact Hin.
Qed.

(** The page's ['error'] events: one crash point and one line each. *)
Lemma on_error_fold (c : config) (ms : list string) (d : diagnostics) :
  crashPoints (fold_left (on_error c) ms d)
  = crashPoints d ++ map (fun m => {| crash_config := cfg_name c; crash_error := m |}) ms
  /\ err (fold_left (on_error c) ms d)
     = err d ++ map (fun m => ("💥 Page crash detected: " ++ m)%string) ms
  /\ performanceMetrics (fold_left (on_error c) ms d) = performanceMetrics d
  /\ elapsed (fold_left (on_error c) ms d) = elapsed d
  /\ saved (fold_left (on_error c) ms d) = saved d.
Proof.
  revert d. induction ms as [|m ms IH]; intros d; simpl.
  - rewrite !app_nil_r. repeat split.
  - destruct (IH (on_error c d m)) as (H1 & H2 & H3 & H4 & H5).
    rewrite H1, H2, H3, H4, H5. cbn [crashPoints err performanceMetrics elapsed saved on_error].
    rewrite <- !app_assoc. repeat split.
Qed.

(** A rejected navigation in [testSafariConfig] is caught: the call
    returns, with the failure recorded. *)
Lemma testSafariConfig_unreachable (c : config) (a : attempt) (msg : string) (t : Z)
      (d : diagnostics) :
  launch a = Normal tt -> setup a = Normal tt -> close a = Normal tt ->
  goto navigation_timeout (site a) = Some (Throw msg, t) ->
  testSafariConfig c a d
  = Some (on_failure c msg t (fold_left (on_error c) (crashes a) d), None).
Proof.
  intros Hl Hs Hc Hgoto. unfold testSafariConfig, navigate.
  rewrite Hl, Hs, Hc, Hgoto. reflexivity.
Qed.

(** Every configuration in turn against sites that cannot be reached. *)
Lemma test_each_unreachable (env : string -> attempt) (msg : string -> string)
      (cs : list config) (d : diagnostics) :
  List.NoDup (map cfg_name cs) ->
  (forall c, In c cs -> ~ In (cfg_name c) (map fst (performanceMetrics d))) ->
  (forall c, In c cs ->
     launch (env (cfg_name c)) = Normal tt
     /\ setup (env (cfg_name c)) = Normal tt
     /\ close (env (cfg_name c)) = Normal tt
     /\ exists t, goto navigation_timeout (site (env (cfg_name c)))
                  = Some (Throw (msg (cfg_name c)), t)
                  /\ t <= navigation_timeout) ->
  exists d',
    test_each env cs d = Some (d', None)
    /\ crashPoints d'
       = crashPoints d
         ++ flat_map (fun c =>
                        map (fun m => {| crash_config := cfg_name c; crash_error := m |})
                            (crashes (env (cfg_name c)))
                        ++ [{| crash_config := cfg_name c;
                               crash_error := msg (cfg_name c) |}]) cs
    /\ err d'
       = err d
         ++ flat_map (fun c =>
                        map (fun m => ("💥 Page crash detected: " ++ m)%string)
                            (crashes (env (cfg_name c)))
                        ++ [("   ❌ Failed to load: " ++ msg (cfg_name c))%string]) cs
    /\ performanceMetrics d'
       = performanceMetrics d ++ map (fun c => (cfg_name c, Failed (msg (cfg_name c)))) cs
    /\ saved d' = saved d
    /\ elapsed d' <= elapsed d + navigation_timeout * Z.of_nat (length cs).
Proof.
  revert d. induction cs as [|c cs IH]; intros d Hnd Hfresh Henv.
  - exists d. simpl. rewrite !app_nil_r. repeat split. lia.
  - inversion Hnd as [|? ? Hc Hnd']; subst.
    destruct (Henv c (or_introl eq_refl)) as (Hl & Hs & Hcl & t & Hgoto & Ht).
    destruct (on_error_fold c (crashes (env (cfg_name c))) d) as (F1 & F2 & F3 & F4 & F5).
    set (d0 := fold_left (on_error c) (crashes (env (cfg_name c))) d) in *.
    set (d1 := on_failure c (msg (cfg_name c)) t d0).
    assert (Hm1 : performanceMetrics d1
                  = performanceMetrics d ++ [(cfg_name c, Failed (msg (cfg_name c)))]).
    { subst d1. cbn [performanceMetrics on_failure]. rewrite F3.
      apply assign_fresh. apply Hfresh. left. reflexivity. }
    destruct (IH d1 Hnd') as (d' & Hrun & Hcr & Herr & Hpm & Hsv & Hel).
    + intros c' Hc' Hin. rewrite Hm1, List.map_app in Hin.
      apply List.in_app_or in Hin as [Hin|[Hin|[]]].
      * apply (Hfresh c'); [right; exact Hc' | exact Hin].
      * apply Hc. simpl in Hin. rewrite Hin. apply List.in_map. exact Hc'.
    + intros c' Hc'. apply Henv. right. exact Hc'.
    + exists d'. split.
      { cbn [test_each].
        rewrite (testSafariConfig_unreachable c _ _ t d Hl Hs Hcl Hgoto). exact Hrun. }
      rewrite Hcr, Herr, Hpm, Hsv, Hm1.
      subst d1. cbn [crashPoints err saved elapsed on_failure] in *.
      rewrite F1, F2, F5. rewrite F4 in Hel.
      cbn [flat_map map length]. rewrite <- !app_assoc.
      repeat split. lia.
Qed.

Lemma testConfigs_distinct : List.NoDup (map cfg_name testConfigs).
Proof.
  apply List.NoDup_count_occ' with (decA := string_dec).
  intros x Hx. simpl in Hx.
  repeat (destruct Hx as [<-|Hx]; [vm_compute; reflexivity|]). destruct Hx.
Qed.

(** C8 (as amended).  Against a site that cannot be reached, one whose
    navigation fails or is never answered:
    - check.mjs: [page.goto] is rejected no later than its timeout of
      15000 ms, with the site's failure or the driver's timeout error;
      the script does not handle the rejection, so the process ends
      with it uncaught and with status 1, having printed nothing and
      waited no longer than those 15000 ms;
    - test-mobile-safari.mjs (the browser starting and closing normally,
      the report file writable): for each of the four configurations
      [page.goto] is rejected no later than its timeout of 30000 ms, the
      rejection is caught inside [testSafariConfig], its message is
      written on the error stream behind "Failed to load:" and recorded
      as a crash point (after those of the page's own error events) and
      as the failed metrics of the configuration; the run goes on to
      the report, which is saved, and returns, so the process ends with
      status 0 after at most four navigation timeouts;
    - the timer is what ends the wait: with a timeout of 0, and only
      then, a navigation that is never answered stays pending. *)
Theorem unreachable_url_outcomes (w : website) (env : string -> attempt) :
  unreachable (reply w) ->
  (forall name,
      unreachable (site (env name))
      /\ launch (env name) = Normal tt
      /\ setup (env name) = Normal tt
      /\ close (env name) = Normal tt) ->
  (exists msg t,
      goto CheckScript.timeout (reply w) = Some (Throw msg, t)
      /\ t <= 15000
      /\ CheckScript.main w
         = Some {| stdout := []; stderr := []; uncaught := Some msg;
                   exit_code := 1; waited := t |})
  /\ (exists (msg : string -> string) (d : diagnostics),
      SafariDiagnostics.run env (Normal tt) = Some (d, None)
      /\ exit_status (d, None) = 0
      /\ (forall c, In c testConfigs ->
            exists t, goto navigation_timeout (site (env (cfg_name c)))
                      = Some (Throw (msg (cfg_name c)), t)
                      /\ t <= 30000)
      /\ crashPoints d
         = flat_map (fun c =>
                       map (fun m => {| crash_config := cfg_name c; crash_error := m |})
                           (crashes (env (cfg_name c)))
                       ++ [{| crash_config := cfg_name c;
                              crash_error := msg (cfg_name c) |}]) testConfigs
      /\ err d
         = flat_map (fun c =>
                       map (fun m => ("💥 Page crash detected: " ++ m)%string)
                           (crashes (env (cfg_name c)))
                       ++ [("   ❌ Failed to load: " ++ msg (cfg_name c))%string])
                    testConfigs
      /\ performanceMetrics d
         = map (fun c => (cfg_name c, Failed (msg (cfg_name c)))) testConfigs
      /\ saved d = Some {| report_crashPoints := crashPoints d;
                           report_performanceMetrics := performanceMetrics d;
                           recommendations := generateRecommendations (crashPoints d) |}
      /\ elapsed d <= 4 * 30000)
  /\ (forall timeout, goto timeout Silent = None <-> timeout = 0).
Proof.
  intros Hsite Henv. split; [|split].
  - destruct (race_unreachable CheckScript.timeout
                ("Navigation timeout of " ++ show_Z CheckScript.timeout ++ " ms exceeded")
                (reply w)) as (msg & t & Hgoto & Ht);
      [unfold CheckScript.timeout; lia | exact Hsite |].
    fold (goto CheckScript.timeout (reply w)) in Hgoto.
    exists msg, t. split; [exact Hgoto|]. split; [exact Ht|].
    unfold CheckScript.main, visit. rewrite Hgoto. reflexivity.
  - set (msg := fun name : string =>
                  match goto navigation_timeout (site (env name)) with
                  | Some (Throw m, _) => m
                  | _ => ""
                  end).
    assert (Hmsg : forall name,
               exists t, goto navigation_timeout (site (env name))
                         = Some (Throw (msg name), t)
                         /\ t <= navigation_timeout).
    { intros name. destruct (Henv name) as (Hun & _).
      destruct (race_unreachable navigation_timeout
                  ("Navigation timeout of " ++ show_Z navigation_timeout ++ " ms exceeded")
                  (site (env name))) as (m & t & Hgoto & Ht);
        [unfold navigation_timeout; lia | exact Hun |].
      fold (goto navigation_timeout (site (env name))) in Hgoto.
      exists t. subst msg. cbn beta. rewrite Hgoto. split; [reflexivity | exact Ht]. }
    destruct (test_each_unreachable env msg testConfigs initial testConfigs_distinct)
      as (d' & Hrun & Hcr & Herr & Hpm & Hsv & Hel).
    { intros c _ []. }
    { intros c _. destruct (Henv (cfg_name c)) as (_ & Hl & Hs & Hc).
      split; [exact Hl|]. split; [exact Hs|]. split; [exact Hc|]. apply Hmsg. }
    change (crashPoints initial) with (@nil crash) in Hcr.
    change (err initial) with (@nil string) in Herr.
    change (performanceMetrics initial) with (@nil (string * metrics)) in Hpm.
    change (elapsed initial) with 0 in Hel.
    cbn [app] in Hcr, Herr, Hpm.
    exists msg.
    eexists. split.
    { unfold SafariDiagnostics.run, testSafariCompatibility. rewrite Hrun.
      unfold generateDiagnosticReport. reflexivity. }
    cbn [crashPoints err performanceMetrics saved elapsed].
    split; [reflexivity|].
    split; [intros c _; apply Hmsg|].
    split; [exact Hcr|]. split; [exact Herr|]. split; [exact Hpm|].
    split; [reflexivity|].
    unfold navigation_timeout in Hel. simpl length in Hel. lia.
  - intros timeout. apply race_silent.
Qed.

Lemma unreachable_url_outcomes_witness :
  (exists msg t,
      CheckScript.main Samples.refusing
      = Some {| stdout := []; stderr := []; uncaught := Some msg;
                exit_code := 1; waited := t |}
      /\ t <= 15000)
  /\ (exists d,
        SafariDiagnostics.run Samples.unreachable (Normal tt) = Some (d, None)
        /\ elapsed d <= 4 * 30000).
Proof.
  destruct (unreachable_url_outcomes Samples.refusing Samples.unreachable I
              (fun _ => conj I (conj eq_refl (conj eq_refl eq_refl))))
    as ((msg & t & _ & Ht & Hmain) & (m & d & Hrun & _ & _ & _ & _ & _ & _ & Hel) & _).
  split.
  - exists msg, t. split; [exact Hmain | exact Ht].
  - exists d. split; [exact Hrun | exact Hel].
Defined.

(** C8, the claim as stated, fails for test-mobile-safari.mjs: with
    every navigation refused the failures are written on the error
    stream, the run returns and the process ends with status 0. *)
Lemma safari_diagnostics_exit_zero_when_unreachable :
  option_map exit_status (SafariDiagnostics.run Samples.unreachable (Normal tt)) = Some 0
  /\ option_map (fun ending => err (fst ending))
       (SafariDiagnostics.run Samples.unreachable (Normal tt))
     = Some ["   ❌ Failed to load: net::ERR_CONNECTION_REFUSED at http://localhost:3000";
             "   ❌ Failed to load: net::ERR_CONNECTION_REFUSED at http://localhost:3000";
             "   ❌ Failed to load: net::ERR_CONNECTION_REFUSED at http://localhost:3000";
             "   ❌ Failed to load: net::ERR_CONNECTION_REFUSED at http://localhost:3000"]
  /\ option_map uncaught (CheckScript.main Samples.refusing)
     = Some (Some "net::ERR_CONNECTION_REFUSED at http://localhost:3000")
  /\ option_map exit_code (CheckScript.main Samples.refusing) = Some 1.
Proof. repeat split; vm_compute; reflexivity. Qed.

End Scripts.

(** ** Emergency memory cleanup *)

Section Cleanup.
Import Three MobileOptimizer Spec.

Lemma remove_first_subset (o c : nat) (cs : list nat) :
  c ∈ remove_first o cs -> c ∈ cs.
Proof.
  induction cs as [|d cs IH]; simpl; [intros H; exact H|].
  destruct (Nat.eqb d o).
  - intros H. apply elem_of_cons. right. exact H.
  - rewrite !elem_of_cons. intros [->|H]; [left; reflexivity | right; apply IH; exact H].
Qed.

Lemma remove_first_other (o c : nat) (cs : list nat) :
  c <> o -> c ∈ cs -> c ∈ remove_first o cs.
Proof.
  intros Hne. induction cs as [|d cs IH]; simpl; [intros H; exact H|].
  rewrite elem_of_cons. destruct (Nat.eqb_spec d o) as [->|Hdo].
  - intros [->|H]; [contradiction | exact H].
  - rewrite elem_of_cons. intros [->|H]; [left; reflexivity | right; apply IH; exact H].
Qed.

(** How [Object3D.remove] changes the record found under any key:
    resources are kept, a parent link is kept or cleared, only the
    removed child leaves a children list, and records other than the
    child's and the parent's are not touched. *)
Lemma object_remove_lookup (p o k : nat) (objs : gmap nat object3d) :
  exists f : object3d -> object3d,
    object_remove p o objs !! k = f <$> (objs !! k)
    /\ forall x,
        geometry (f x) = geometry x
        /\ material (f x) = material x
        /\ (k <> o -> parent (f x) = parent x)
        /\ (parent x = None -> parent (f x) = None)
        /\ (forall c, c <> o -> c ∈ children x -> c ∈ children (f x))
        /\ (k <> o -> k <> p -> f x = x)
        /\ (parent (f x) = parent x \/ parent (f x) = None).
Proof.
  assert (Hid : exists f : object3d -> object3d,
             objs !! k = f <$> (objs !! k)
             /\ forall x,
                 geometry (f x) = geometry x
                 /\ material (f x) = material x
                 /\ (k <> o -> parent (f x) = parent x)
                 /\ (parent x = None -> parent (f x) = None)
                 /\ (forall c, c <> o -> c ∈ children x -> c ∈ children (f x))
                 /\ (k <> o -> k <> p -> f x = x)
                 /\ (parent (f x) = parent x \/ parent (f x) = None)).
  { exists (fun x => x). split; [destruct (objs !! k); reflexivity|].
    intros x. repeat split; auto. }
  unfold object_remove. destruct (objs !! p) as [po|] eqn:Hp; [|exact Hid].
  case_bool_decide; [|exact Hid]. clear Hid.
  destruct (decide (p = k)) as [->|Hpk]; destruct (decide (o = k)) as [->|Hok].
  - exists (fun x => set_children (remove_first k (children (set_parent None x)))
                                  (set_parent None x)).
    rewrite !lookup_alter_eq. split; [destruct (objs !! k); reflexivity|].
    intros x. simpl. repeat split; try congruence; try (right; reflexivity).
    intros c Hc Hin. apply remove_first_other; assumption.
  - exists (fun x => set_children (remove_first o (children x)) x).
    rewrite lookup_alter_eq, lookup_alter_ne by exact Hok.
    split; [destruct (objs !! k); reflexivity|].
    intros x. simpl. repeat split; try congruence; try tauto; try (left; reflexivity).
    intros c Hc Hin. apply remove_first_other; assumption.
  - exists (set_parent None).
    rewrite lookup_alter_ne by exact Hpk. rewrite lookup_alter_eq.
    split; [destruct (objs !! k); reflexivity|].
    intros x. simpl. repeat split; try congruence; tauto.
  - exists (fun x => x).
    rewrite !lookup_alter_ne by assumption.
    split; [destruct (objs !! k); reflexivity|].
    intros x. repeat split; auto.
Qed.

Lemma dispose_materials_fold (ms : list nat) (st : scene) :
  objects (fold_left dispose_material ms st) = objects st
  /\ disposed_geometries (fold_left dispose_material ms st) = disposed_geometries st
  /\ forall m, m ∈ disposed_materials (fold_left dispose_material ms st)
               <-> m ∈ ms \/ m ∈ disposed_materials st.
Proof.
  revert st. induction ms as [|a ms IH]; intros st; simpl.
  - repeat split; [intros H; right; exact H | intros [H|H]; [inversion H | exact H]].
  - destruct (IH (dispose_material st a)) as (Ho & Hg & Hm).
    split; [rewrite Ho; reflexivity|]. split; [rewrite Hg; reflexivity|].
    intros m. rewrite Hm. simpl. rewrite elem_of_cons, elem_of_union, elem_of_singleton.
    tauto.
Qed.

Lemma dispose_geometry_effect (g : option nat) (st : scene) :
  objects (dispose_geometry g st) = objects st
  /\ disposed_materials (dispose_geometry g st) = disposed_materials st
  /\ (forall h, h ∈ disposed_geometries st -> h ∈ disposed_geometries (dispose_geometry g st))
  /\ (forall h, g = Some h -> h ∈ disposed_geometries (dispose_geometry g st)).
Proof.
  destruct g as [gid|]; simpl; repeat split; try (intros; discriminate); auto.
  - intros h Hh. apply elem_of_union. right. exact Hh.
  - intros h [= ->]. apply elem_of_union. left. apply elem_of_singleton. reflexivity.
Qed.

Lemma cleanup_object_objects (st : scene) (o : nat) :
  objects (cleanup_object st o) =
  match objects st !! o with
  | Some ob =>
      match parent ob with
      | Some p => object_remove p o (objects st)
      | None => objects st
      end
  | None => objects st
  end.
Proof.
  unfold cleanup_object. destruct (objects st !! o) as [ob|]; [|reflexivity].
  destruct (parent ob) as [p|]; [|reflexivity].
  destruct (dispose_materials_fold (materials_of (material ob))
              (dispose_geometry (geometry ob)
                 (set_objects (object_remove p o (objects st)) st))) as (Ho & _).
  rewrite Ho. destruct (geometry ob); reflexivity.
Qed.

(** One step of the loop, seen from any key [k]. *)
Lemma cleanup_object_lookup (st : scene) (o k : nat) :
  exists f : object3d -> object3d,
    objects (cleanup_object st o) !! k = f <$> (objects st !! k)
    /\ forall x,
        geometry (f x) = geometry x
        /\ material (f x) = material x
        /\ (k <> o -> parent (f x) = parent x)
        /\ (parent x = None -> parent (f x) = None)
        /\ (forall c, c <> o -> c ∈ children x -> c ∈ children (f x))
        /\ (k <> o ->
            (forall y, objects st !! o = Some y -> parent y <> Some k) -> f x = x)
        /\ (parent (f x) = parent x \/ parent (f x) = None).
Proof.
  rewrite cleanup_object_objects.
  destruct (objects st !! o) as [ob|] eqn:Hob.
  2:{ exists (fun x => x). split; [destruct (objects st !! k); reflexivity|].
      intros x. repeat split; auto. }
  destruct (parent ob) as [p|] eqn:Hpar.
  2:{ exists (fun x => x). split; [destruct (objects st !! k); reflexivity|].
      intros x. repeat split; auto. }
  destruct (object_remove_lookup p o k (objects st)) as (f & Hf & Hprops).
  exists f. split; [exact Hf|].
  intros x. destruct (Hprops x) as (Hg & Hm & Hp & Hn & Hc & Hsame & Hlink).
  repeat split; try assumption.
  intros Hko Hnot. apply Hsame; [exact Hko|].
  intros ->. apply (Hnot ob eq_refl). exact Hpar.
Qed.

Lemma cleanup_object_disposed_mono (st : scene) (o : nat) :
  (forall g, g ∈ disposed_geometries st -> g ∈ disposed_geometries (cleanup_object st o))
  /\ (forall m, m ∈ disposed_materials st -> m ∈ disposed_materials (cleanup_object st o)).
Proof.
  unfold cleanup_object. destruct (objects st !! o) as [ob|]; [|split; auto].
  destruct (parent ob) as [p|]; [|split; auto].
  set (st1 := set_objects _ st).
  destruct (dispose_materials_fold (materials_of (material ob))
              (dispose_geometry (geometry ob) st1)) as (_ & Hg & Hm).
  destruct (dispose_geometry_effect (geometry ob) st1) as (_ & Hm' & Hmono & _).
  split.
  - intros g H. rewrite Hg. apply Hmono. exact H.
  - intros m H. apply Hm. right. rewrite Hm'. exact H.
Qed.

(** Processing an object that hangs under its parent detaches it and
    disposes what it refers to. *)
Lemma cleanup_object_self (st : scene) (o : nat) (x : object3d) (p : nat) :
  linked_to_parent st o x p -> detached_and_disposed (cleanup_object st o) o x.
Proof.
  intros (x' & po & Hx & Hpar & Hgeo & Hmat & Hp & Hin).
  split; [|split].
  - rewrite cleanup_object_objects, Hx, Hpar.
    unfold object_remove. rewrite Hp. rewrite bool_decide_eq_true_2 by exact Hin.
    destruct (decide (p = o)) as [->|Hpo].
    + rewrite !lookup_alter_eq, Hx. simpl. eexists. split; reflexivity.
    + rewrite lookup_alter_ne by exact Hpo. rewrite lookup_alter_eq, Hx. simpl.
      eexists. split; reflexivity.
  - intros g Hg. unfold cleanup_object. rewrite Hx, Hpar.
    set (st1 := set_objects _ st).
    destruct (dispose_materials_fold (materials_of (material x'))
                (dispose_geometry (geometry x') st1)) as (_ & Hgs & _).
    rewrite Hgs. apply dispose_geometry_effect. rewrite Hgeo. exact Hg.
  - intros m Hm. unfold cleanup_object. rewrite Hx, Hpar.
    set (st1 := set_objects _ st).
    destruct (dispose_materials_fold (materials_of (material x'))
                (dispose_geometry (geometry x') st1)) as (_ & _ & Hms).
    apply Hms. left. rewrite Hmat. exact Hm.
Qed.

Lemma detached_and_disposed_step (st : scene) (o o' : nat) (x : object3d) :
  detached_and_disposed st o x -> detached_and_disposed (cleanup_object st o') o x.
Proof.
  intros ((x' & Hx & Hnone) & Hg & Hm).
  destruct (cleanup_object_disposed_mono st o') as (Hgm & Hmm).
  split; [|split].
  - destruct (cleanup_object_lookup st o' o) as (f & Hf & Hprops).
    exists (f x'). rewrite Hf, Hx. split; [reflexivity|].
    apply (Hprops x'). exact Hnone.
  - intros g H. apply Hgm, Hg, H.
  - intros m H. apply Hmm, Hm, H.
Qed.

Lemma linked_to_parent_step (st : scene) (o o' : nat) (x : object3d) (p : nat) :
  o' <> o -> linked_to_parent st o x p -> linked_to_parent (cleanup_object st o') o x p.
Proof.
  intros Hne (x' & po & Hx & Hpar & Hgeo & Hmat & Hp & Hin).
  destruct (cleanup_object_lookup st o' o) as (f & Hf & Hprops).
  destruct (cleanup_object_lookup st o' p) as (fp & Hfp & Hpprops).
  destruct (Hprops x') as (Hg1 & Hm1 & Hp1 & _).
  destruct (Hpprops po) as (_ & _ & _ & _ & Hc & _).
  exists (f x'), (fp po).
  rewrite Hf, Hx, Hfp, Hp.
  split; [reflexivity|].
  split; [rewrite Hp1; [exact Hpar | congruence]|].
  split; [congruence|]. split; [congruence|].
  split; [reflexivity|].
  apply Hc; [congruence | exact Hin].
Qed.

Lemma cleanup_fold_done (l : list nat) (st : scene) (o : nat) (x : object3d) :
  detached_and_disposed st o x ->
  detached_and_disposed (fold_left cleanup_object l st) o x.
Proof.
  revert st. induction l as [|o' l IH]; intros st H; simpl; [exact H|].
  apply IH, detached_and_disposed_step, H.
Qed.

(** Every listed object that hangs under its parent ends up detached
    and disposed. *)
Lemma cleanup_fold_linked (l : list nat) (st : scene) (o : nat) (x : object3d) (p : nat) :
  o ∈ l -> linked_to_parent st o x p ->
  detached_and_disposed (fold_left cleanup_object l st) o x.
Proof.
  revert st. induction l as [|o' l IH]; intros st Hin Hlink; [inversion Hin|].
  simpl. destruct (decide (o' = o)) as [->|Hne].
  - apply cleanup_fold_done, (cleanup_object_self st o x p), Hlink.
  - apply elem_of_cons in Hin as [->|Hin]; [contradiction|].
    apply IH; [exact Hin|]. apply linked_to_parent_step; assumption.
Qed.

(** Frame: a record that is neither listed nor the parent of a listed
    object is left as it is. *)
Lemma cleanup_fold_frame (l : list nat) (st : scene) (k : nat) :
  k ∉ l ->
  (forall o y, o ∈ l -> objects st !! o = Some y -> parent y <> Some k) ->
  objects (fold_left cleanup_object l st) !! k = objects st !! k.
Proof.
  revert st. induction l as [|o l IH]; intros st Hk Hpar; simpl; [reflexivity|].
  apply not_elem_of_cons in Hk as [Hko Hk].
  rewrite IH; [| exact Hk |].
  - destruct (cleanup_object_lookup st o k) as (f & Hf & Hprops).
    rewrite Hf. destruct (objects st !! k) as [x|]; [|reflexivity].
    simpl. f_equal. apply (Hprops x); [exact Hko|].
    intros y Hy. apply (Hpar o y); [apply elem_of_cons; left; reflexivity | exact Hy].
  - intros o' y Hin Hy.
    destruct (cleanup_object_lookup st o o') as (f & Hf & Hprops).
    rewrite Hf in Hy. destruct (objects st !! o') as [x|] eqn:Hx; [|discriminate].
    injection Hy as <-.
    destruct (Hprops x) as (_ & _ & _ & _ & _ & _ & [Hsame|Hnone]).
    + rewrite Hsame.
      apply (Hpar o' x); [apply elem_of_cons; right; exact Hin | exact Hx].
    + rewrite Hnone. discriminate.
Qed.

(** When no listed object has a parent the scene is left as it is. *)
Lemma cleanup_fold_orphans (l : list nat) (st : scene) :
  (forall o y, o ∈ l -> objects st !! o = Some y -> parent y = None) ->
  fold_left cleanup_object l st = st.
Proof.
  induction l as [|o l IH]; intros H; simpl; [reflexivity|].
  assert (Hstep : cleanup_object st o = st).
  { unfold cleanup_object. destruct (objects st !! o) as [ob|] eqn:Hob; [|reflexivity].
    rewrite (H o ob); [reflexivity | apply elem_of_cons; left; reflexivity | exact Hob]. }
  rewrite Hstep. apply IH.
  intros o' y Hin Hy. apply (H o' y); [apply elem_of_cons; right; exact Hin | exact Hy].
Qed.

(** A parentless object stays parentless and keeps what it refers
    to. *)
Lemma cleanup_fold_orphan_stays (l : list nat) (st : scene) (o : nat) (x : object3d) :
  objects st !! o = Some x -> parent x = None ->
  exists x', objects (fold_left cleanup_object l st) !! o = Some x'
             /\ parent x' = None
             /\ geometry x' = geometry x
             /\ material x' = material x.
Proof.
  revert st x. induction l as [|o' l IH]; intros st x Hx Hnone; simpl.
  - exists x. repeat split; assumption.
  - destruct (cleanup_object_lookup st o' o) as (f & Hf & Hprops).
    destruct (Hprops x) as (Hg & Hm & _ & Hp & _).
    destruct (IH (cleanup_object st o') (f x)) as (x' & Hx' & Hp' & Hg' & Hm').
    + rewrite Hf, Hx. reflexivity.
    + apply Hp. exact Hnone.
    + exists x'. split; [exact Hx'|]. split; [exact Hp'|].
      split; congruence.
Qed.

(** One step of the loop disposes exactly what the object refers to,
    and only when the object has a parent. *)
Lemma cleanup_object_disposed_exact (st : scene) (o : nat) :
  (forall g, g ∈ disposed_geometries (cleanup_object st o) <->
     g ∈ disposed_geometries st
     \/ exists x, objects st !! o = Some x /\ parent x <> None /\ geometry x = Some g)
  /\ (forall m, m ∈ disposed_materials (cleanup_object st o) <->
        m ∈ disposed_materials st
        \/ exists x, objects st !! o = Some x /\ parent x <> None
                     /\ m ∈ materials_of (material x)).
Proof.
  unfold cleanup_object. destruct (objects st !! o) as [ob|] eqn:Hob.
  2:{ split; intros z; (split; [intros H; left; exact H|]);
        intros [H|(x & Hx & _)]; first [exact H | discriminate]. }
  destruct (parent ob) as [p|] eqn:Hpar.
  2:{ split; intros z; (split; [intros H; left; exact H|]);
        (intros [H|(x & Hx & Hp & _)]; [exact H|]);
        injection Hx as <-; contradiction. }
  set (st1 := set_objects _ st).
  destruct (dispose_materials_fold (materials_of (material ob))
              (dispose_geometry (geometry ob) st1)) as (_ & Hg & Hm).
  destruct (dispose_geometry_effect (geometry ob) st1) as (_ & Hm' & _ & _).
  split.
  - intros g. rewrite Hg.
    assert (Hgeo : g ∈ disposed_geometries (dispose_geometry (geometry ob) st1)
                   <-> geometry ob = Some g \/ g ∈ disposed_geometries st).
    { destruct (geometry ob) as [h|]; simpl.
      - rewrite elem_of_union, elem_of_singleton. split.
        + intros [->|H]; [left; reflexivity | right; exact H].
        + intros [[= ->]|H]; [left; reflexivity | right; exact H].
      - split; [intros H; right; exact H | intros [H|H]; [discriminate | exact H]]. }
    rewrite Hgeo. split.
    + intros [H|H]; [right | left; exact H].
      exists ob. split; [reflexivity|]. split; [rewrite Hpar; discriminate | exact H].
    + intros [H|(x & [= <-] & _ & H)]; [right; exact H | left; exact H].
  - intros m. rewrite Hm, Hm'. split.
    + intros [H|H]; [right | left; exact H].
      exists ob. split; [reflexivity|]. split; [rewrite Hpar; discriminate | exact H].
    + intros [H|(x & [= <-] & _ & H)]; [right; exact H | left; exact H].
Qed.

(** The loop disposes exactly what the listed objects that have a
    parent refer to. *)
Lemma cleanup_fold_disposed_exact (l : list nat) (st : scene) :
  (forall g, g ∈ disposed_geometries (fold_left cleanup_object l st) <->
     g ∈ disposed_geometries st
     \/ exists o x, o ∈ l /\ objects st !! o = Some x /\ parent x <> None
                    /\ geometry x = Some g)
  /\ (forall m, m ∈ disposed_materials (fold_left cleanup_object l st) <->
        m ∈ disposed_materials st
        \/ exists o x, o ∈ l /\ objects st !! o = Some x /\ parent x <> None
                       /\ m ∈ materials_of (material x)).
Proof.
  revert st. induction l as [|o' l IH]; intros st; simpl.
  - split; intros z; (split; [intros H; left; exact H|]);
      (intros [H|(o & x & Hin & _)]; [exact H | inversion Hin]).
  - destruct (IH (cleanup_object st o')) as (IHg & IHm).
    destruct (cleanup_object_disposed_exact st o') as (Sg & Sm).
    assert (Hback : forall o x1,
               objects (cleanup_object st o') !! o = Some x1 -> parent x1 <> None ->
               exists x, objects st !! o = Some x /\ parent x <> None
                         /\ geometry x = geometry x1 /\ material x = material x1).
    { intros o x1 Hx1 Hp1.
      destruct (cleanup_object_lookup st o' o) as (f & Hf & Hprops).
      rewrite Hf in Hx1. destruct (objects st !! o) as [x|]; [|discriminate].
      injection Hx1 as <-. exists x.
      destruct (Hprops x) as (Hgeo & Hmat & _ & _ & _ & _ & [Hsame|Hnone]).
      - split; [reflexivity|]. split; [rewrite <- Hsame; exact Hp1|].
        split; congruence.
      - contradiction. }
    assert (Hforth : forall o x,
               o <> o' -> objects st !! o = Some x ->
               exists x1, objects (cleanup_object st o') !! o = Some x1
                          /\ parent x1 = parent x
                          /\ geometry x1 = geometry x /\ material x1 = material x).
    { intros o x Hne Hx.
      destruct (cleanup_object_lookup st o' o) as (f & Hf & Hprops).
      exists (f x). rewrite Hf, Hx. split; [reflexivity|].
      destruct (Hprops x) as (Hgeo & Hmat & Hpar & _).
      split; [apply Hpar; exact Hne|]. split; assumption. }
    split.
    + intros g. rewrite IHg, Sg. split.
      * intros [[H|(x & Hx & Hp & Hg)]|(o & x1 & Hin & Hx1 & Hp1 & Hg1)].
        -- left. exact H.
        -- right. exists o', x. split; [apply elem_of_cons; left; reflexivity|].
           repeat split; assumption.
        -- right. destruct (Hback o x1 Hx1 Hp1) as (x & Hx & Hp & Hgeo & _).
           exists o, x. split; [apply elem_of_cons; right; exact Hin|].
           split; [exact Hx|]. split; [exact Hp | congruence].
      * intros [H|(o & x & Hin & Hx & Hp & Hg)]; [left; left; exact H|].
        destruct (decide (o = o')) as [->|Hne].
        -- left. right. exists x. repeat split; assumption.
        -- apply elem_of_cons in Hin as [->|Hin]; [contradiction|].
           right. destruct (Hforth o x Hne Hx) as (x1 & Hx1 & Hp1 & Hgeo & _).
           exists o, x1. split; [exact Hin|]. split; [exact Hx1|].
           split; congruence.
    + intros m. rewrite IHm, Sm. split.
      * intros [[H|(x & Hx & Hp & Hg)]|(o & x1 & Hin & Hx1 & Hp1 & Hg1)].
        -- left. exact H.
        -- right. exists o', x. split; [apply elem_of_cons; left; reflexivity|].
           repeat split; assumption.
        -- right. destruct (Hback o x1 Hx1 Hp1) as (x & Hx & Hp & _ & Hmat).
           exists o, x. split; [apply elem_of_cons; right; exact Hin|].
           split; [exact Hx|]. split; [exact Hp | rewrite Hmat; exact Hg1].
      * intros [H|(o & x & Hin & Hx & Hp & Hg)]; [left; left; exact H|].
        destruct (decide (o = o')) as [->|Hne].
        -- left. right. exists x. repeat split; assumption.
        -- apply elem_of_cons in Hin as [->|Hin]; [contradiction|].
           right. destruct (Hforth o x Hne Hx) as (x1 & Hx1 & Hp1 & _ & Hmat).
           exists o, x1. split; [exact Hin|]. split; [exact Hx1|].
           split; [congruence | rewrite Hmat; exact Hg].
Qed.

(** [triggerMemoryCleanup] never touches the array or the scene.  It
    raises exactly when [window.scene] exists and [THREE] is not
    declared, and then neither the cache is cleared nor the collector
    called. *)
Lemma triggerMemoryCleanup_effect (w : globals) :
  orbitalObjects (fst (triggerMemoryCleanup w)) = orbitalObjects w
  /\ three (fst (triggerMemoryCleanup w)) = three w
  /\ scene_defined (fst (triggerMemoryCleanup w)) = scene_defined w
  /\ three_declared (fst (triggerMemoryCleanup w)) = three_declared w
  /\ cache_defined (fst (triggerMemoryCleanup w)) = cache_defined w
  /\ gc_defined (fst (triggerMemoryCleanup w)) = gc_defined w
  /\ snd (triggerMemoryCleanup w)
     = (if scene_defined w && negb (three_declared w)
        then Some "THREE is not defined" else None)
  /\ cache_clears (fst (triggerMemoryCleanup w))
     = (cache_clears w
        + if scene_defined w && three_declared w && cache_defined w then 1 else 0)%nat
  /\ gc_calls (fst (triggerMemoryCleanup w))
     = (gc_calls w
        + if gc_defined w && negb (scene_defined w && negb (three_declared w))
          then 1 else 0)%nat.
Proof.
  unfold triggerMemoryCleanup, clearUnusedTextures.
  cbn [scene_defined three_declared cache_defined gc_defined].
  destruct (scene_defined w) eqn:E1, (three_declared w) eqn:E2,
           (cache_defined w) eqn:E3, (gc_defined w) eqn:E4;
    cbn; rewrite ?E1, ?E2, ?E3, ?E4; repeat split; lia.
Qed.

(** [emergencyMemoryCleanup]: the array is cut, the loop runs over the
    entries past the second, and the closing [triggerMemoryCleanup]
    decides how the call ends. *)
Lemma emergencyMemoryCleanup_effect (w : globals) :
  orbitalObjects (fst (emergencyMemoryCleanup w)) = take 2 <$> orbitalObjects w
  /\ three (fst (emergencyMemoryCleanup w))
     = fold_left cleanup_object
         (match orbitalObjects w with Some arr => drop 2 arr | None => [] end) (three w)
  /\ scene_defined (fst (emergencyMemoryCleanup w)) = scene_defined w
  /\ three_declared (fst (emergencyMemoryCleanup w)) = three_declared w
  /\ cache_defined (fst (emergencyMemoryCleanup w)) = cache_defined w
  /\ gc_defined (fst (emergencyMemoryCleanup w)) = gc_defined w
  /\ snd (emergencyMemoryCleanup w)
     = (if scene_defined w && negb (three_declared w)
        then Some "THREE is not defined" else None)
  /\ cache_clears (fst (emergencyMemoryCleanup w))
     = (cache_clears w
        + if scene_defined w && three_declared w && cache_defined w then 1 else 0)%nat
  /\ gc_calls (fst (emergencyMemoryCleanup w))
     = (gc_calls w
        + if gc_defined w && negb (scene_defined w && negb (three_declared w))
          then 1 else 0)%nat.
Proof.
  unfold emergencyMemoryCleanup.
  cbn [orbitalObjects scene_defined gc_defined three_declared cache_defined three
       cache_clears gc_calls log_lines].
  set (w2 := match orbitalObjects w with Some _ => _ | None => _ end).
  assert (Hw2 : orbitalObjects w2 = take 2 <$> orbitalObjects w
                /\ three w2 = fold_left cleanup_object
                                 (match orbitalObjects w with
                                  | Some arr => drop 2 arr
                                  | None => []
                                  end) (three w)
                /\ scene_defined w2 = scene_defined w
                /\ three_declared w2 = three_declared w
                /\ cache_defined w2 = cache_defined w
                /\ gc_defined w2 = gc_defined w
                /\ cache_clears w2 = cache_clears w
                /\ gc_calls w2 = gc_calls w).
  { subst w2. destruct (orbitalObjects w) as [arr|] eqn:Harr; cbn; rewrite ?Harr;
      repeat split. }
  destruct Hw2 as (A1 & A2 & A3 & A4 & A5 & A6 & A7 & A8).
  destruct (triggerMemoryCleanup_effect w2) as (T1 & T2 & T3 & T4 & T5 & T6 & T7 & T8 & T9).
  rewrite T1, T2, T3, T4, T5, T6, T7, T8, T9, A1, A2, A3, A4, A5, A6, A7, A8.
  repeat split.
Qed.

Lemma emergencyMemoryCleanup_fields (w : globals) (arr : list nat) :
  orbitalObjects w = Some arr ->
  orbitalObjects (fst (emergencyMemoryCleanup w)) = Some (take 2 arr)
  /\ three (fst (emergencyMemoryCleanup w))
     = fold_left cleanup_object (drop 2 arr) (three w).
Proof.
  intros Harr. destruct (emergencyMemoryCleanup_effect w) as (H1 & H2 & _).
  rewrite H1, H2, Harr. split; reflexivity.
Qed.

End Cleanup.

Section CleanupClaim.
Import Three MobileOptimizer Spec.

(** C10 (as amended).  After [emergencyMemoryCleanup],
    [window.orbitalObjects] holds exactly the first two elements of the
    array it held before.  A record that is not among the removed
    entries and is not the parent of one of them, in particular a kept
    element that satisfies this, is unchanged.  Every removed object
    that hung under a parent listing it among its children has its
    parent link cleared and its geometry and material(s) disposed.  A
    removed object without a parent is only dropped from the array: it
    stays without a parent and keeps its geometry and material
    references, and it is no reason for a disposal.  A geometry or a
    material is disposed after the cleanup exactly when it was disposed
    before or a removed object that had a parent refers to it; so what
    a parentless removed object refers to is disposed only when it was
    disposed already or is shared with a removed object that has a
    parent.  When none of the removed objects has a parent the scene,
    disposals included, is left exactly as it was. *)
Theorem emergency_cleanup_keeps_first_two (w : globals) (arr : list nat) :
  orbitalObjects w = Some arr ->
  let w' := fst (emergencyMemoryCleanup w) in
  let removed_with_parent (x : object3d) :=
    exists o, o ∈ drop 2 arr /\ objects (three w) !! o = Some x /\ parent x <> None in
  orbitalObjects w' = Some (take 2 arr)
  /\ (forall k,
        k ∉ drop 2 arr ->
        (forall o y, o ∈ drop 2 arr -> objects (three w) !! o = Some y ->
                     parent y <> Some k) ->
        objects (three w') !! k = objects (three w) !! k)
  /\ (forall o x p po,
        o ∈ drop 2 arr ->
        objects (three w) !! o = Some x -> parent x = Some p ->
        objects (three w) !! p = Some po -> o ∈ children po ->
        detached_and_disposed (three w') o x)
  /\ (forall o x,
        o ∈ drop 2 arr ->
        objects (three w) !! o = Some x -> parent x = None ->
        exists x', objects (three w') !! o = Some x'
                   /\ parent x' = None
                   /\ geometry x' = geometry x
                   /\ material x' = material x)
  /\ (forall g,
        g ∈ disposed_geometries (three w') <->
        g ∈ disposed_geometries (three w)
        \/ exists x, removed_with_parent x /\ geometry x = Some g)
  /\ (forall m,
        m ∈ disposed_materials (three w') <->
        m ∈ disposed_materials (three w)
        \/ exists x, removed_with_parent x /\ m ∈ materials_of (material x))
  /\ ((forall o y, o ∈ drop 2 arr -> objects (three w) !! o = Some y ->
                   parent y = None) ->
      three w' = three w).
Proof.
  intros Harr w' removed_with_parent. subst w' removed_with_parent. cbn beta.
  destruct (emergencyMemoryCleanup_fields w arr Harr) as (Hkept & Hscene).
  split; [exact Hkept|]. rewrite Hscene.
  destruct (cleanup_fold_disposed_exact (drop 2 arr) (three w)) as (Hg & Hm).
  split; [|split; [|split; [|split; [|split]]]].
  - intros k Hk Hpar. apply cleanup_fold_frame; assumption.
  - intros o x p po Hin Hx Hpar Hp Hchild.
    apply (cleanup_fold_linked (drop 2 arr) (three w) o x p Hin).
    exists x, po. repeat split; assumption.
  - intros o x _ Hx Hnone. apply cleanup_fold_orphan_stays; assumption.
  - intros g. rewrite Hg. split.
    + intros [H|(o & x & Hin & Hx & Hp & Hgeo)]; [left; exact H | right].
      exists x. split; [exists o; repeat split; assumption | exact Hgeo].
    + intros [H|(x & (o & Hin & Hx & Hp) & Hgeo)]; [left; exact H | right].
      exists o, x. repeat split; assumption.
  - intros m. rewrite Hm. split.
    + intros [H|(o & x & Hin & Hx & Hp & Hmat)]; [left; exact H | right].
      exists x. split; [exists o; repeat split; assumption | exact Hmat].
    + intros [H|(x & (o & Hin & Hx & Hp) & Hmat)]; [left; exact H | right].
      exists o, x. repeat split; assumption.
  - apply cleanup_fold_orphans.
Qed.

Lemma emergency_cleanup_keeps_first_two_witness :
  let w' := fst (emergencyMemoryCleanup Samples.three_in_scene) in
  orbitalObjects w' = Some [0; 1]%nat
  /\ objects (three w') !! 0%nat = Some (Samples.mesh (Some 10%nat) 100 (SingleMaterial 200))
  /\ detached_and_disposed (three w') 2%nat
       (Samples.mesh (Some 10%nat) 102 (MaterialArray [202; 203]%nat)).
Proof.
  intros w'. subst w'.
  destruct (emergency_cleanup_keeps_first_two Samples.three_in_scene [0; 1; 2]%nat eq_refl)
    as (Hkept & Hframe & Hgone & _).
  split; [exact Hkept|]. split.
  - rewrite (Hframe 0%nat).
    + reflexivity.
    + simpl. intros H. apply list_elem_of_singleton in H. discriminate H.
    + simpl. intros o y Ho Hy. apply list_elem_of_singleton in Ho. subst o.
      vm_compute in Hy. injection Hy as <-. discriminate.
  - apply (Hgone 2%nat _ 10%nat (Samples.group [0; 1; 2]%nat)).
    + simpl. apply list_elem_of_singleton. reflexivity.
    + reflexivity.
    + reflexivity.
    + reflexivity.
    + simpl. apply elem_of_cons. right. apply elem_of_cons. right.
      apply list_elem_of_singleton. reflexivity.
Defined.

(** C10, the claim as stated, fails in two ways.  A removed object
    that has no parent is dropped from the array with its geometry and
    material left undisposed.  And an object listed both among the
    first two and again further on is kept in the array but loses its
    parent link and has its geometry disposed. *)
Lemma cleanup_skips_orphans_and_touches_kept :
  let orphan := fst (emergencyMemoryCleanup Samples.third_without_parent) in
  let twice := fst (emergencyMemoryCleanup Samples.first_listed_twice) in
  (orbitalObjects orphan = Some [0; 1]%nat
   /\ objects (three Samples.third_without_parent) !! 2%nat
      = Some (Samples.mesh None 102 (SingleMaterial 202))
   /\ elements (disposed_geometries (three orphan)) = []
   /\ elements (disposed_materials (three orphan)) = [])
  /\ (orbitalObjects twice = Some [0; 1]%nat
      /\ objects (three Samples.first_listed_twice) !! 0%nat
         = Some (Samples.mesh (Some 10%nat) 100 (SingleMaterial 200))
      /\ objects (three twice) !! 0%nat
         = Some (Samples.mesh None 100 (SingleMaterial 200))
      /\ elements (disposed_geometries (three twice)) = [100%nat]).
Proof. repeat split; vm_compute; reflexivity. Qed.

End CleanupClaim.

(** ** Worked cases *)

Section WorkedCases.
Import Dom Page.

Example sniffing_of_sample_agents :
  map (fun ua => (MobileOptimizer.test_isMobile ua,
                  MobileOptimizer.test_isSafari ua,
                  MobileOptimizer.test_isIOS ua))
      [Samples.safari_desktop; Samples.chrome_desktop;
       Samples.iphone_safari; Samples.android_chrome; ""]
  = [(false, true, false); (false, false, false);
     (true, true, true); (true, false, false); (false, false, false)].
Proof. vm_compute. reflexivity. Qed.

(** The mobile test ignores letter case, the iOS test does not: a
    lower-case token gives a mobile optimizer with 200 stars. *)
Example lower_case_token_is_mobile_not_ios :
  let o := MobileOptimizer.new "mozilla/5.0 (iphone; cpu iphone os 17_0)" (Some 3%Q) in
  MobileOptimizer.isMobile o = true
  /\ MobileOptimizer.isIOS o = false
  /\ MobileOptimizer.getOptimizedStarCount o = 200.
Proof. vm_compute. repeat split. Qed.

Example star_counts_of_sample_agents :
  map (fun ua => MobileOptimizer.getOptimizedStarCount (MobileOptimizer.new ua None))
      [Samples.iphone_safari; Samples.android_chrome; Samples.chrome_desktop]
  = [150; 200; 400].
Proof. vm_compute. reflexivity. Qed.

Example pixel_ratio_of_retina_desktop :
  MobileOptimizer.pixelRatio
    (MobileOptimizer.getPerformanceSettings
       (MobileOptimizer.new Samples.chrome_desktop (Some 3%Q))) = 2%Q.
Proof. vm_compute. reflexivity. Qed.

Example memory_limits :
  map (fun d => MobileOptimizer.memoryLimit (MobileOptimizer.new Samples.iphone_safari d))
      [Some 3%Q; Some 2%Q; Some 1%Q; None]
  = [512; 256; 128; 128]
  /\ MobileOptimizer.memoryLimit (MobileOptimizer.new Samples.android_chrome (Some 3%Q)) = 1024.
Proof. vm_compute. split; reflexivity. Qed.

Example probing_a_capable_device :
  fst (WebGLFallback.detectWebGLSupport WebGLFallback.initial Samples.live_scene) = true
  /\ canvases (body (snd (WebGLFallback.new Samples.live_scene))) = [0%nat].
Proof. vm_compute. split; reflexivity. Qed.

Example probing_a_software_renderer :
  let gl := {| WEBGL_debug_renderer_info :=
                 Some {| UNMASKED_RENDERER_WEBGL := "Mesa DRI Intel(R) HD";
                         UNMASKED_VENDOR_WEBGL := "Intel Open Source" |};
               MAX_TEXTURE_SIZE := Normal 16384;
               MAX_VERTEX_ATTRIBS := Normal 16 |} in
  let p := Samples.page_with [Elem 0 canvas "" []] 1 (Some gl) in
  fst (WebGLFallback.detectWebGLSupport WebGLFallback.initial p) = false
  /\ canvases (body (snd (WebGLFallback.new p))) = [2%nat]
  /\ console (snd (WebGLFallback.new p))
     = ["⚠️ Problematic WebGL driver detected - enabling fallback mode"].
Proof. vm_compute. repeat split. Qed.

Example probing_small_limits_and_throwing_queries :
  let weak := {| WEBGL_debug_renderer_info := None;
                 MAX_TEXTURE_SIZE := Normal 512;
                 MAX_VERTEX_ATTRIBS := Normal 16 |} in
  let broken := {| WEBGL_debug_renderer_info := None;
                   MAX_TEXTURE_SIZE := Normal 4096;
                   MAX_VERTEX_ATTRIBS := Throw "INVALID_ENUM" |} in
  WebGLFallback.fallbackMode
    (fst (WebGLFallback.new (Samples.page_with [] 0 (Some weak)))) = true
  /\ WebGLFallback.fallbackMode
       (fst (WebGLFallback.new (Samples.page_with [] 0 (Some broken)))) = true.
Proof. vm_compute. split; reflexivity. Qed.

(** Two context-loss notifications on a live scene: one fallback canvas,
    one banner, one resize listener. *)
Example two_context_losses_on_live_scene :
  let '(s0, p0) := WebGLFallback.new Samples.live_scene in
  let '(s2, p2) := WebGLFallback.contextLosses 2 s0 p0 in
  WebGLFallback.fallbackMode s0 = false
  /\ WebGLFallback.fallbackMode s2 = true
  /\ canvases (body p2) = [2%nat]
  /\ length (body p2) = 2%nat
  /\ WebGLFallback.activations p2 = 1%nat.
Proof. vm_compute. repeat split. Qed.

(** The overlay of the context-loss path: present at 1999 ms, gone with
    the document at 2000 ms when the reload is carried out. *)
Example overlay_until_reload :
  let q := MobileOptimizer.handleWebGLContextLoss Samples.scene_renderer Samples.live_scene in
  uids (body (advance 1999 q)) = [0; 1]%nat
  /\ uids (body (advance 2000 q)) = []
  /\ reloads (advance 2000 q) = 1%nat
  /\ reloads (advance 9000 q) = 1%nat.
Proof. vm_compute. repeat split. Qed.

Example check_script_on_a_throwing_page :
  let b := {| Diagnostics.navigation := Normal tt; Diagnostics.took := 900;
              Diagnostics.events :=
                [Diagnostics.ConsoleMessage "log" "start";
                 Diagnostics.PageError Samples.thrown_on_load];
              Diagnostics.canvas_found := true |} in
  Diagnostics.stdout (Diagnostics.CheckScript.run b)
  = ["=== Console Logs ==="; "log: start"; "=== Errors ===";
     "ERROR: boom is not defined"; "Canvas exists: true"]
  /\ Diagnostics.exit_code (Diagnostics.CheckScript.run b) = 0.
Proof. vm_compute. split; reflexivity. Qed.

(** A line separator (U+2028) before the word keeps the Safari pattern
    from matching, as a line feed does; a space does not. *)
Example line_separator_before_safari :
  let sep := String "226" (String "128" (String "168" EmptyString)) in
  map MobileOptimizer.test_isSafari
      [("x" ++ sep ++ "Safari")%string;
       ("x" ++ String "010" EmptyString ++ "Safari")%string;
       "x Safari"]
  = [false; false; true].
Proof. vm_compute. reflexivity. Qed.

(** A parentless removed object is left alone, but the geometry it
    shares with a removed object that hangs in the scene is disposed
    all the same; its own material is not. *)
Example shared_geometry_is_disposed :
  let w' := fst (MobileOptimizer.emergencyMemoryCleanup Samples.shared_geometry) in
  Three.objects (MobileOptimizer.three w') !! 3%nat
  = Some (Samples.mesh None 102 (Three.SingleMaterial 203))
  /\ base.elements (Three.disposed_geometries (MobileOptimizer.three w')) = [102%nat]
  /\ base.elements (Three.disposed_materials (MobileOptimizer.three w')) = [202%nat].
Proof. repeat split; vm_compute; reflexivity. Qed.

(** With [window.scene] set and no [THREE] in scope the monitor's
    callback ends in a ReferenceError before the emergency cleanup, at
    any usage above 80 percent. *)
Example monitor_without_three :
  let w := {| MobileOptimizer.orbitalObjects := Some [0; 1; 2]%nat;
              MobileOptimizer.scene_defined := true;
              MobileOptimizer.gc_defined := true;
              MobileOptimizer.three_declared := false;
              MobileOptimizer.cache_defined := false;
              MobileOptimizer.three := MobileOptimizer.three Samples.three_in_scene;
              MobileOptimizer.cache_clears := 0%nat;
              MobileOptimizer.gc_calls := 0%nat;
              MobileOptimizer.log_lines := [] |} in
  let r := MemoryMonitor.tick (Some (1900%Q, Some 99%Q))
             (MobileOptimizer.new Samples.safari_desktop None) w in
  snd (snd r) = Some "THREE is not defined"
  /\ MobileOptimizer.orbitalObjects (fst (snd r)) = Some [0; 1; 2]%nat
  /\ MobileOptimizer.gc_calls (fst (snd r)) = 0%nat.
Proof. vm_compute. repeat split. Qed.

(** check.mjs against a host that never answers: the navigation timer
    ends the wait after 15000 ms. *)
Example check_script_on_a_silent_host :
  Diagnostics.CheckScript.main Samples.black_hole
  = Some {| Diagnostics.stdout := []; Diagnostics.stderr := [];
            Diagnostics.uncaught := Some "Navigation timeout of 15000 ms exceeded";
            Diagnostics.exit_code := 1; Diagnostics.waited := 15000 |}.
Proof. vm_compute. reflexivity. Qed.

(** Pages that crash once each before their navigation fails: eight
    crash points for four failed entries, and status 0. *)
Example safari_diagnostics_on_crashing_pages :
  option_map
    (fun ending =>
       (length (Diagnostics.SafariDiagnostics.crashPoints (fst ending)),
        Reading.failures (Diagnostics.SafariDiagnostics.performanceMetrics (fst ending)),
        Diagnostics.SafariDiagnostics.exit_status ending))
    (Diagnostics.SafariDiagnostics.run Samples.crashing (Normal tt))
  = Some (8%nat, 4%nat, 0).
Proof. vm_compute. reflexivity. Qed.

End WorkedCases.

(** * Further properties *)

(** ** Sniffing *)

Section MoreSniffing.
Import JsString Spec Reading MobileOptimizer.

Lemma matches_at_cs_iff (pat s : string) :
  matches_at false pat s = true <-> exists post, s = (pat ++ post)%string.
Proof.
  revert s. induction pat as [|p pat IH]; intros s; simpl.
  - split; [intros _; exists s; reflexivity | reflexivity].
  - destruct s as [|c s].
    + split; [discriminate | intros (post & H); discriminate].
    + rewrite andb_true_iff, IH. unfold char_eq. rewrite Ascii.eqb_eq. split.
      * intros (-> & post & ->). exists post. reflexivity.
      * intros (post & H). injection H as -> ->. split; [reflexivity|].
        exists post. reflexivity.
Qed.

Lemma matches_at_cs_ci (pat s : string) :
  matches_at false pat s = true -> matches_at true pat s = true.
Proof.
  revert s. induction pat as [|p pat IH]; intros s; simpl; [reflexivity|].
  destruct s as [|c s]; [discriminate|].
  rewrite !andb_true_iff. unfold char_eq. rewrite !Ascii.eqb_eq.
  intros (-> & H). split; [reflexivity | apply IH; exact H].
Qed.

(** [includes] is substring search. *)
Lemma includes_iff (s sub : string) :
  includes s sub = true <-> has_substring sub s.
Proof.
  unfold includes, has_substring. rewrite test_alternatives_iff. split.
  - intros (pre & suf & -> & H). unfold any_matches_at in H. simpl in H.
    rewrite orb_false_r in H. apply matches_at_cs_iff in H as (post & ->).
    exists pre, post. reflexivity.
  - intros (pre & post & ->). exists pre, (sub ++ post)%string.
    split; [reflexivity|]. unfold any_matches_at. simpl. rewrite orb_false_r.
    apply matches_at_cs_iff. exists post. reflexivity.
Qed.

Lemma test_isIOS_isMobile (ua : string) :
  test_isIOS ua = true -> test_isMobile ua = true.
Proof.
  unfold test_isIOS, test_isMobile. rewrite !test_alternatives_iff.
  intros (pre & suf & -> & H). exists pre, suf. split; [reflexivity|].
  unfold any_matches_at in *. apply existsb_exists in H as (alt & Hin & Hm).
  apply existsb_exists. exists alt. split.
  - simpl in *. tauto.
  - apply matches_at_cs_ci. exact Hm.
Qed.

(** X1. An optimizer never has the iOS flag without the mobile flag:
    whatever the user agent, a match of the case-sensitive iOS pattern is
    a match of the mobile pattern.  So the star count is 150 exactly when
    the iOS flag is set. *)
Theorem ios_flag_implies_mobile_flag (ua : string) (rawDpr : option Q) :
  let o := MobileOptimizer.new ua rawDpr in
  (isIOS o = true -> isMobile o = true)
  /\ (getOptimizedStarCount o = 150 <-> isIOS o = true).
Proof.
  intros o.
  assert (H : isIOS o = true -> isMobile o = true) by apply test_isIOS_isMobile.
  split; [exact H|].
  unfold getOptimizedStarCount.
  destruct (isMobile o) eqn:Hm, (isIOS o) eqn:Hi; split; intros E;
    try reflexivity; try discriminate; try lia;
    try (specialize (H eq_refl); discriminate).
Qed.

Lemma any_matches_at_false_iff (words : list string) (s : string) :
  any_matches_at true words s = false <->
  forall w, In w words -> ~ begins_with_ci w s.
Proof.
  unfold any_matches_at, begins_with_ci. split.
  - intros H w Hin Hb. apply matches_at_ci_iff in Hb.
    assert (Ht : existsb (fun alt => matches_at true alt s) words = true)
      by (apply existsb_exists; exists w; split; assumption).
    rewrite Ht in H. discriminate.
  - intros H. destruct (existsb _ words) eqn:E; [|reflexivity].
    apply existsb_exists in E as (w & Hin & Hm).
    exfalso. apply (H w Hin). apply matches_at_ci_iff. exact Hm.
Qed.

Lemma is_line_terminator_false_iff (s : string) :
  is_line_terminator s = false <->
  forall lt, In lt line_terminators -> ~ begins_with lt s.
Proof.
  unfold is_line_terminator, any_matches_at, begins_with. split.
  - intros H lt Hin Hb. apply matches_at_cs_iff in Hb.
    assert (Ht : existsb (fun alt => matches_at false alt s) line_terminators = true)
      by (apply existsb_exists; exists lt; split; assumption).
    rewrite Ht in H. discriminate.
  - intros H. destruct (existsb _ line_terminators) eqn:E; [|reflexivity].
    apply existsb_exists in E as (lt & Hin & Hm).
    exfalso. apply (H lt Hin). apply matches_at_cs_iff. exact Hm.
Qed.

(** The anchored pattern with a negative look-ahead, read as a split of
    the string. *)
Lemma test_guarded_prefix_iff (words : list string) (lit s : string) :
  test_guarded_prefix words lit s = true <->
  exists pre rest,
    s = (pre ++ rest)%string
    /\ begins_with_ci lit rest
    /\ clear_before words pre rest.
Proof.
  unfold begins_with_ci at 1. induction s as [|c s IH]; cbn [test_guarded_prefix].
  - rewrite orb_false_r, matches_at_ci_iff. split.
    + intros H. exists EmptyString, EmptyString. split; [reflexivity|].
      split; [exact H|]. intros pre1 a pre2 E. destruct pre1; discriminate.
    + intros (pre & rest & E & H & _).
      destruct pre; [|discriminate]. simpl in E. subst rest. exact H.
  - rewrite orb_true_iff, !andb_true_iff, !negb_true_iff, IH.
    rewrite matches_at_ci_iff, any_matches_at_false_iff, is_line_terminator_false_iff.
    split.
    + intros [H|((Hw & Hc) & pre & rest & -> & Hlit & Hclear)].
      * exists EmptyString, (String c s). split; [reflexivity|].
        split; [exact H|]. intros pre1 a pre2 E. destruct pre1; discriminate.
      * exists (String c pre), rest. split; [reflexivity|]. split; [exact Hlit|].
        intros pre1 a pre2 E. destruct pre1 as [|b pre1]; simpl in E.
        -- injection E as <- <-. split; [exact Hw | exact Hc].
        -- injection E as <- E. apply (Hclear pre1 a pre2 E).
    + intros (pre & rest & E & Hlit & Hclear).
      destruct pre as [|b pre]; simpl in E.
      * subst rest. left. exact Hlit.
      * injection E as <- ->. right.
        destruct (Hclear EmptyString c pre eq_refl) as (Hw & Hc).
        split; [split; assumption|].
        exists pre, rest. split; [reflexivity|]. split; [exact Hlit|].
        intros pre1 a pre2 E. apply (Hclear (String c pre1) a pre2).
        simpl. rewrite E. reflexivity.
Qed.

(** X3. The Safari flag is set exactly for the user agents in which
    "safari" occurs (letter case ignored) with no "chrome" and no
    "android" beginning at any earlier position and no line terminator
    (LF, CR, U+2028, U+2029) before it. *)
Theorem safari_flag_reads_as_signal (ua : string) (rawDpr : option Q) :
  isSafari (MobileOptimizer.new ua rawDpr) = true <-> safari_signal ua.
Proof. apply test_guarded_prefix_iff. Qed.

End MoreSniffing.

(** ** Presets and renderer options *)

Section MorePresets.
Import Page MobileOptimizer RendererOptions.

Lemma estimateMemoryLimit_monotone (ios : bool) (d1 d2 : Q) :
  (d1 <= d2)%Q -> estimateMemoryLimit ios d1 <= estimateMemoryLimit ios d2.
Proof.
  intros Hle. unfold estimateMemoryLimit. destruct ios; [|lia].
  assert (Hup : forall k : Q, Qle_bool k d1 = true -> Qle_bool k d2 = true).
  { intros k H. apply Qle_bool_iff. apply Qle_bool_iff in H.
    exact (Qle_trans _ _ _ H Hle). }
  destruct (Qle_bool 3 d1) eqn:A3.
  - rewrite (Hup _ A3). lia.
  - destruct (Qle_bool 2 d1) eqn:A2.
    + rewrite (Hup _ A2). destruct (Qle_bool 3 d2); lia.
    + destruct (Qle_bool 3 d2); [lia|]. destruct (Qle_bool 2 d2); lia.
Qed.

(** X2. The estimated memory limit is 1024 exactly when the iOS flag is
    not set; on iOS it is 128, 256 or 512, it is 128 when the device
    pixel ratio is missing, and it never goes down when the device pixel
    ratio goes up. *)
Theorem memory_limit_estimate (ua : string) (rawDpr : option Q) :
  let o := MobileOptimizer.new ua rawDpr in
  (memoryLimit o = 1024 <-> isIOS o = false)
  /\ (isIOS o = true ->
      memoryLimit o = 128 \/ memoryLimit o = 256 \/ memoryLimit o = 512)
  /\ (isIOS o = true -> rawDpr = None -> memoryLimit o = 128)
  /\ (forall d1 d2 : Q, (d1 <= d2)%Q ->
      estimateMemoryLimit (isIOS o) d1 <= estimateMemoryLimit (isIOS o) d2).
Proof.
  intros o. subst o. cbn [memoryLimit isIOS MobileOptimizer.new].
  unfold estimateMemoryLimit at 1 2 3 4 5.
  destruct (test_isIOS ua).
  - split; [|split; [|split]].
    + destruct (Qle_bool 3 _); [split; [lia | discriminate]|].
      destruct (Qle_bool 2 _); split; try lia; discriminate.
    + intros _. destruct (Qle_bool 3 _); [tauto|]. destruct (Qle_bool 2 _); tauto.
    + intros _ ->. reflexivity.
    + intros d1 d2. apply estimateMemoryLimit_monotone.
  - split; [tauto|]. split; [discriminate|]. split; [discriminate|].
    intros d1 d2. apply estimateMemoryLimit_monotone.
Qed.

Lemma dpr_or_1_positive (q : Q) : (0 < q)%Q -> dpr_or_1 (Some q) = q.
Proof.
  intros Hq. unfold dpr_or_1. destruct (Qeq_bool q 0) eqn:E; [|reflexivity].
  apply Qeq_bool_eq in E. rewrite E in Hq. exfalso. exact (Qlt_irrefl 0 Hq).
Qed.

(** X6. The pixel ratio handed to the renderer is never above the
    device's own and never above 2.  For a positive device pixel ratio it
    is positive; when the device pixel ratio is missing or zero it is
    exactly 1, on mobile and on desktop. *)
Theorem pixel_ratio_bounds (ua : string) (rawDpr : option Q) :
  let o := MobileOptimizer.new ua rawDpr in
  let ratio := pixelRatio (getPerformanceSettings o) in
  (ratio <= devicePixelRatio o)%Q
  /\ (ratio <= 2)%Q
  /\ (forall q, rawDpr = Some q -> (0 < q)%Q -> (0 < ratio)%Q /\ (ratio <= q)%Q)
  /\ (rawDpr = None \/ (exists q, rawDpr = Some q /\ (q == 0)%Q) -> ratio = 1%Q).
Proof.
  intros o ratio. subst ratio. cbn [pixelRatio getPerformanceSettings].
  split; [apply Q.le_min_l|].
  split.
  { eapply Qle_trans; [apply Q.le_min_r|].
    destruct (isMobile o); unfold Qle; simpl; lia. }
  split.
  - intros q -> Hq. subst o. cbn [devicePixelRatio MobileOptimizer.new].
    rewrite (dpr_or_1_positive q Hq).
    split; [|apply Q.le_min_l].
    apply Q.min_glb_lt; [exact Hq|].
    destruct (isMobile _); unfold Qlt; simpl; lia.
  - intros Hraw. assert (Hone : devicePixelRatio o = 1%Q).
    { subst o. cbn [devicePixelRatio MobileOptimizer.new].
      destruct Hraw as [->|(q & -> & Hq)]; [reflexivity|].
      unfold dpr_or_1. rewrite (Qeq_eq_bool _ _ Hq). reflexivity. }
    rewrite Hone. destruct (isMobile o); reflexivity.
Qed.

(** X4. For a mobile and a desktop optimizer on the same device pixel
    ratio, nothing in the mobile answers is above the desktop answers:
    fewer stars, a pixel ratio that is not larger, smaller shadow map
    and light count, no light more intense, a narrower and shorter view,
    and antialiasing and shadows off where the desktop has them on. *)
Theorem mobile_bundle_below_desktop (m d : optimizer) :
  isMobile m = true ->
  isMobile d = false ->
  (devicePixelRatio m == devicePixelRatio d)%Q ->
  getOptimizedStarCount m < getOptimizedStarCount d
  /\ (pixelRatio (getPerformanceSettings m) <= pixelRatio (getPerformanceSettings d))%Q
  /\ shadowMapSize (getPerformanceSettings m) < shadowMapSize (getPerformanceSettings d)
  /\ maxLights (getPerformanceSettings m) < maxLights (getPerformanceSettings d)
  /\ (intensity (sunLight (getOptimizedLighting m))
      <= intensity (sunLight (getOptimizedLighting d)))%Q
  /\ (intensity (ambientLight (getOptimizedLighting m))
      <= intensity (ambientLight (getOptimizedLighting d)))%Q
  /\ (intensity (rimLight (getOptimizedLighting m))
      <= intensity (rimLight (getOptimizedLighting d)))%Q
  /\ (intensity (textLight (getOptimizedLighting m))
      <= intensity (textLight (getOptimizedLighting d)))%Q
  /\ fov (getOptimizedCameraSettings m) < fov (getOptimizedCameraSettings d)
  /\ far (getOptimizedCameraSettings m) < far (getOptimizedCameraSettings d)
  /\ antialias (getOptimizedRendererOptions m) = false
  /\ antialias (getOptimizedRendererOptions d) = true
  /\ enableShadows (getPerformanceSettings m) = false
  /\ enableShadows (getPerformanceSettings d) = true.
Proof.
  intros Hm Hd Hdpr.
  unfold getOptimizedStarCount, getPerformanceSettings, getOptimizedLighting,
    getOptimizedCameraSettings, getOptimizedRendererOptions.
  rewrite Hm, Hd. cbn.
  split; [destruct (isIOS m); lia|].
  split.
  { apply Q.min_glb.
    - rewrite <- Hdpr. apply Q.le_min_l.
    - eapply Qle_trans; [apply Q.le_min_r|]. unfold Qle; simpl; lia. }
  repeat split; try lia; unfold Qle; simpl; lia.
Qed.

Lemma mobile_bundle_below_desktop_witness :
  getOptimizedStarCount (MobileOptimizer.new Samples.android_chrome (Some 3%Q))
  < getOptimizedStarCount (MobileOptimizer.new Samples.chrome_desktop (Some 3%Q)).
Proof.
  destruct (mobile_bundle_below_desktop
              (MobileOptimizer.new Samples.android_chrome (Some 3%Q))
              (MobileOptimizer.new Samples.chrome_desktop (Some 3%Q))
              eq_refl eq_refl (Qeq_refl _)) as (H & _).
  exact H.
Defined.

End MorePresets.

(** ** Touch gestures *)

Section Touch.
Import MobileOptimizer TouchGestures.

Lemma deliver_app (evs1 evs2 : list touch_event) (t : Z) :
  deliver (evs1 ++ evs2) t =
  (fst (deliver evs1 t) ++ fst (deliver evs2 (snd (deliver evs1 t))),
   snd (deliver evs2 (snd (deliver evs1 t)))).
Proof.
  revert t. induction evs1 as [|e evs1 IH]; intros t; simpl.
  - destruct (deliver evs2 t); reflexivity.
  - destruct (handle e t) as [b t1]. rewrite IH.
    destruct (deliver evs1 t1) as [l1 t2]. simpl.
    destruct (deliver evs2 t2); reflexivity.
Qed.

Lemma deliver_without_touchend (evs : list touch_event) (t : Z) :
  forallb (fun e => negb (is_touchend e)) evs = true ->
  snd (deliver evs t) = t.
Proof.
  revert t. induction evs as [|e evs IH]; intros t; simpl; [reflexivity|].
  rewrite andb_true_iff. intros [He Hrest].
  destruct e; simpl in He; try discriminate;
    simpl; specialize (IH t Hrest); destruct (deliver evs t); exact IH.
Qed.

(** X7. With the listeners installed (mobile optimizer), a tap is
    prevented exactly when it ends less than 300 ms after the previous
    tap ended, whatever happened in between and whether or not that
    previous tap was itself prevented; the first tap is compared with
    time 0; a touch start or move is prevented exactly when more than
    one finger is down.  On a desktop optimizer nothing is ever
    prevented. *)
Theorem double_tap_window
    (o : optimizer) (before between : list touch_event) (t1 t2 : Z) (n : nat) :
  forallb (fun e => negb (is_touchend e)) between = true ->
  (isMobile o = true ->
     last (optimizeTouchGestures o
             (before ++ [touchend t1] ++ between ++ [touchend t2]))
       = Some (t2 - t1 <? 300)
     /\ last (optimizeTouchGestures o (between ++ [touchend t2])) = Some (t2 <? 300)
     /\ last (optimizeTouchGestures o (before ++ [touchstart n])) = Some (1 <? n)%nat
     /\ last (optimizeTouchGestures o (before ++ [touchmove n])) = Some (1 <? n)%nat)
  /\ (isMobile o = false ->
      forall evs, Forall (fun b => b = false) (optimizeTouchGestures o evs)).
Proof.
  intros Hbetween. unfold optimizeTouchGestures. split.
  - intros ->. cbn [negb].
    repeat split.
    + rewrite deliver_app. cbn [fst]. rewrite deliver_app. cbn [fst snd].
      rewrite deliver_app. cbn [fst snd].
      simpl (deliver [touchend t1] _). cbn [fst snd].
      rewrite (deliver_without_touchend between t1 Hbetween).
      simpl (deliver [touchend t2] _). cbn [fst].
      rewrite !app_assoc. apply last_snoc.
    + rewrite deliver_app. cbn [fst].
      rewrite (deliver_without_touchend between 0 Hbetween).
      simpl (deliver [touchend t2] _). cbn [fst].
      rewrite Z.sub_0_r. apply last_snoc.
    + rewrite deliver_app. cbn [fst]. simpl (deliver [touchstart n] _). cbn [fst].
      apply last_snoc.
    + rewrite deliver_app. cbn [fst]. simpl (deliver [touchmove n] _). cbn [fst].
      apply last_snoc.
  - intros -> evs. cbn [negb]. induction evs; simpl; constructor; auto.
Qed.

Lemma double_tap_window_witness :
  last (optimizeTouchGestures (MobileOptimizer.new Samples.iphone_safari None)
          [touchend 1700000000000; touchstart 1; touchend 1700000000250])
  = Some true.
Proof.
  destruct (double_tap_window (MobileOptimizer.new Samples.iphone_safari None)
              [] [touchstart 1] 1700000000000 1700000000250 0 eq_refl)
    as (Hmobile & _).
  destruct (Hmobile eq_refl) as (H & _). exact H.
Defined.

End Touch.

(** ** Memory cleanup, further *)

Section MoreCleanup.
Import Three MobileOptimizer Spec MemoryMonitor.

Lemma remove_first_sublist (o : nat) (cs : list nat) :
  remove_first o cs `sublist_of` cs.
Proof.
  induction cs as [|c cs IH]; simpl; [constructor|].
  destruct (Nat.eqb c o).
  - apply sublist_cons. reflexivity.
  - apply sublist_skip. exact IH.
Qed.

Lemma remove_first_unlists (o : nat) (cs : list nat) :
  NoDup cs -> o ∉ remove_first o cs.
Proof.
  induction 1 as [|c cs Hc Hnd IH]; simpl; [apply not_elem_of_nil|].
  destruct (Nat.eqb_spec c o) as [->|Hne]; [exact Hc|].
  apply not_elem_of_cons. split; [congruence | exact IH].
Qed.

(** The shape of every record after [Object3D.remove]. *)
Lemma object_remove_shape (p o k : nat) (objs : gmap nat object3d) :
  exists f : object3d -> object3d,
    object_remove p o objs !! k = f <$> (objs !! k)
    /\ forall x,
        geometry (f x) = geometry x
        /\ material (f x) = material x
        /\ (parent (f x) = parent x \/ parent (f x) = None)
        /\ children (f x) `sublist_of` children x
        /\ (forall c, c <> o -> c ∈ children x -> c ∈ children (f x)).
Proof.
  assert (Hid : exists f : object3d -> object3d,
             objs !! k = f <$> (objs !! k)
             /\ forall x,
                 geometry (f x) = geometry x
                 /\ material (f x) = material x
                 /\ (parent (f x) = parent x \/ parent (f x) = None)
                 /\ children (f x) `sublist_of` children x
                 /\ (forall c, c <> o -> c ∈ children x -> c ∈ children (f x))).
  { exists (fun x => x). split; [destruct (objs !! k); reflexivity|].
    intros x. repeat split; auto. }
  unfold object_remove. destruct (objs !! p) as [po|] eqn:Hp; [|exact Hid].
  case_bool_decide; [|exact Hid]. clear Hid.
  destruct (decide (p = k)) as [->|Hpk]; destruct (decide (o = k)) as [->|Hok].
  - exists (fun x => set_children (remove_first k (children (set_parent None x)))
                                  (set_parent None x)).
    rewrite !lookup_alter_eq. split; [destruct (objs !! k); reflexivity|].
    intros x. simpl. repeat split; auto using remove_first_sublist.
    intros c Hc Hin. apply remove_first_other; assumption.
  - exists (fun x => set_children (remove_first o (children x)) x).
    rewrite lookup_alter_eq, lookup_alter_ne by exact Hok.
    split; [destruct (objs !! k); reflexivity|].
    intros x. simpl. repeat split; auto using remove_first_sublist.
    intros c Hc Hin. apply remove_first_other; assumption.
  - exists (set_parent None).
    rewrite lookup_alter_ne by exact Hpk. rewrite lookup_alter_eq.
    split; [destruct (objs !! k); reflexivity|].
    intros x. simpl. repeat split; auto.
  - exists (fun x => x).
    rewrite !lookup_alter_ne by assumption.
    split; [destruct (objs !! k); reflexivity|].
    intros x. repeat split; auto.
Qed.

Lemma cleanup_object_shape (st : scene) (o k : nat) :
  exists f : object3d -> object3d,
    objects (cleanup_object st o) !! k = f <$> (objects st !! k)
    /\ forall x,
        geometry (f x) = geometry x
        /\ material (f x) = material x
        /\ (parent (f x) = parent x \/ parent (f x) = None)
        /\ children (f x) `sublist_of` children x
        /\ (forall c, c <> o -> c ∈ children x -> c ∈ children (f x)).
Proof.
  rewrite cleanup_object_objects.
  destruct (objects st !! o) as [ob|] eqn:Hob.
  2:{ exists (fun x => x). split; [destruct (objects st !! k); reflexivity|].
      intros x. repeat split; auto. }
  destruct (parent ob) as [p|] eqn:Hpar.
  2:{ exists (fun x => x). split; [destruct (objects st !! k); reflexivity|].
      intros x. repeat split; auto. }
  apply object_remove_shape.
Qed.

(** The shape of every record after the whole loop. *)
Lemma cleanup_fold_shape (l : list nat) (st : scene) (k : nat) :
  exists f : object3d -> object3d,
    objects (fold_left cleanup_object l st) !! k = f <$> (objects st !! k)
    /\ forall x,
        geometry (f x) = geometry x
        /\ material (f x) = material x
        /\ (parent (f x) = parent x \/ parent (f x) = None)
        /\ children (f x) `sublist_of` children x
        /\ (forall c, c ∉ l -> c ∈ children x -> c ∈ children (f x)).
Proof.
  revert st. induction l as [|o l IH]; intros st; simpl.
  - exists (fun x => x). split; [destruct (objects st !! k); reflexivity|].
    intros x. repeat split; auto.
  - destruct (cleanup_object_shape st o k) as (f1 & Hf1 & H1).
    destruct (IH (cleanup_object st o)) as (f2 & Hf2 & H2).
    exists (fun x => f2 (f1 x)). split.
    + rewrite Hf2, Hf1. destruct (objects st !! k); reflexivity.
    + intros x.
      destruct (H1 x) as (Hg1 & Hm1 & Hp1 & Hs1 & Hc1).
      destruct (H2 (f1 x)) as (Hg2 & Hm2 & Hp2 & Hs2 & Hc2).
      split; [congruence|]. split; [congruence|].
      split.
      { destruct Hp2 as [Hp2|Hp2]; [|right; exact Hp2].
        destruct Hp1 as [Hp1|Hp1]; [left|right]; congruence. }
      split; [etransitivity; eassumption|].
      intros c Hc Hin. apply not_elem_of_cons in Hc as [Hco Hc].
      apply Hc2; [exact Hc|]. apply Hc1; assumption.
Qed.

Lemma cleanup_fold_disposed_mono (l : list nat) (st : scene) :
  (forall g, g ∈ disposed_geometries st ->
             g ∈ disposed_geometries (fold_left cleanup_object l st))
  /\ (forall m, m ∈ disposed_materials st ->
                m ∈ disposed_materials (fold_left cleanup_object l st)).
Proof.
  revert st. induction l as [|o l IH]; intros st; simpl; [split; auto|].
  destruct (IH (cleanup_object st o)) as (Hg & Hm).
  destruct (cleanup_object_disposed_mono st o) as (Hg1 & Hm1).
  split; auto.
Qed.

Lemma emergencyMemoryCleanup_undefined (w : globals) :
  orbitalObjects w = None ->
  orbitalObjects (fst (emergencyMemoryCleanup w)) = None
  /\ three (fst (emergencyMemoryCleanup w)) = three w.
Proof.
  intros Harr. destruct (emergencyMemoryCleanup_effect w) as (H1 & H2 & _).
  rewrite H1, H2, Harr. split; reflexivity.
Qed.

Lemma emergencyMemoryCleanup_scene (w : globals) :
  three (fst (emergencyMemoryCleanup w))
  = fold_left cleanup_object
      (match orbitalObjects w with Some arr => drop 2 arr | None => [] end) (three w).
Proof.
  destruct (orbitalObjects w) as [arr|] eqn:Harr.
  - apply (emergencyMemoryCleanup_fields w arr Harr).
  - apply (emergencyMemoryCleanup_undefined w Harr).
Qed.

(** X8. The cleanup never deletes or creates a scene object and never
    changes what an object refers to: under every key the record keeps
    its geometry and material references, its parent link is kept or
    cleared (never redirected), and its children are a sub-sequence of
    the former children.  Nothing disposed becomes undisposed. *)
Theorem emergency_cleanup_preserves_store (w : globals) (k : nat) :
  let w' := fst (emergencyMemoryCleanup w) in
  (forall x, objects (three w) !! k = Some x ->
     exists x', objects (three w') !! k = Some x'
       /\ geometry x' = geometry x
       /\ material x' = material x
       /\ (parent x' = parent x \/ parent x' = None)
       /\ children x' `sublist_of` children x)
  /\ (objects (three w) !! k = None -> objects (three w') !! k = None)
  /\ (forall g, g ∈ disposed_geometries (three w) -> g ∈ disposed_geometries (three w'))
  /\ (forall m, m ∈ disposed_materials (three w) -> m ∈ disposed_materials (three w')).
Proof.
  intros w'. subst w'. rewrite emergencyMemoryCleanup_scene.
  set (l := match orbitalObjects w with Some arr => drop 2 arr | None => [] end).
  destruct (cleanup_fold_shape l (three w) k) as (f & Hf & Hprops).
  destruct (cleanup_fold_disposed_mono l (three w)) as (Hg & Hm).
  split; [|split; [|split; assumption]].
  - intros x Hx. exists (f x). rewrite Hf, Hx. split; [reflexivity|].
    destruct (Hprops x) as (H1 & H2 & H3 & H4 & _). repeat split; assumption.
  - intros Hnone. rewrite Hf, Hnone. reflexivity.
Qed.

(** X9. With [window.orbitalObjects] undefined or holding at most two
    objects the cleanup removes nothing: the array and the whole scene,
    disposals included, are as before. *)
Theorem emergency_cleanup_nothing_to_remove (w : globals) :
  orbitalObjects w = None
  \/ (exists arr, orbitalObjects w = Some arr /\ (length arr <= 2)%nat) ->
  orbitalObjects (fst (emergencyMemoryCleanup w)) = orbitalObjects w
  /\ three (fst (emergencyMemoryCleanup w)) = three w.
Proof.
  intros [Hnone|(arr & Harr & Hlen)].
  - destruct (emergencyMemoryCleanup_undefined w Hnone) as (H1 & H2).
    rewrite H1, Hnone. split; [reflexivity | exact H2].
  - destruct (emergencyMemoryCleanup_fields w arr Harr) as (H1 & H2).
    rewrite H1, H2, Harr.
    rewrite (take_ge arr 2) by exact Hlen.
    rewrite (drop_ge arr 2) by exact Hlen.
    split; reflexivity.
Qed.

Lemma emergency_cleanup_nothing_to_remove_witness :
  let w := Samples.globals_with [0; 1]%nat
             (list_to_map [(0%nat, Samples.mesh (Some 10%nat) 100 NoMaterial);
                           (1%nat, Samples.mesh (Some 10%nat) 101 NoMaterial);
                           (10%nat, Samples.group [0; 1]%nat)]) in
  orbitalObjects (fst (emergencyMemoryCleanup w)) = Some [0; 1]%nat
  /\ three (fst (emergencyMemoryCleanup w)) = three w.
Proof.
  intros w.
  assert (H : orbitalObjects w = None
              \/ (exists arr, orbitalObjects w = Some arr /\ (length arr <= 2)%nat)).
  { right. exists [0; 1]%nat. split; [reflexivity | simpl; lia]. }
  destruct (emergency_cleanup_nothing_to_remove w H) as (H1 & H2).
  split; [exact H1 | exact H2].
Defined.

(** X10. Running the cleanup a second time changes neither the array
    nor the scene: after one run at most two objects are listed and
    nothing is left to remove. *)
Theorem emergency_cleanup_idempotent (w : globals) :
  let once := fst (emergencyMemoryCleanup w) in
  orbitalObjects (fst (emergencyMemoryCleanup once)) = orbitalObjects once
  /\ three (fst (emergencyMemoryCleanup once)) = three once
  /\ (forall arr, orbitalObjects once = Some arr -> (length arr <= 2)%nat).
Proof.
  intros once. subst once.
  destruct (orbitalObjects w) as [arr|] eqn:Harr.
  - destruct (emergencyMemoryCleanup_fields w arr Harr) as (H1 & H2).
    destruct (emergencyMemoryCleanup_fields _ _ H1) as (H3 & H4).
    assert (Hlen : (length (take 2 arr) <= 2)%nat) by (rewrite length_take; lia).
    rewrite H3, H4, H1.
    rewrite (take_ge (take 2 arr) 2) by exact Hlen.
    rewrite (drop_ge (take 2 arr) 2) by exact Hlen.
    split; [reflexivity|]. split; [reflexivity|].
    intros arr' [= <-]. exact Hlen.
  - destruct (emergencyMemoryCleanup_undefined w Harr) as (H1 & H2).
    destruct (emergencyMemoryCleanup_undefined _ H1) as (H3 & H4).
    rewrite H3, H4, H1. split; [reflexivity|]. split; [reflexivity|].
    intros arr' H. discriminate.
Qed.

End MoreCleanup.

Section Unlisting.
Import Three MobileOptimizer Spec.

(** Processing a linked object takes it out of its parent's children
    when the parent lists it once. *)
Lemma cleanup_object_unlists (st : scene) (o : nat) (x : object3d) (p : nat) :
  linked_to_parent st o x p ->
  (forall po, objects st !! p = Some po -> NoDup (children po)) ->
  exists po', objects (cleanup_object st o) !! p = Some po' /\ o ∉ children po'.
Proof.
  intros (x' & po & Hx & Hpar & _ & _ & Hp & Hin) Hnd.
  specialize (Hnd po Hp).
  rewrite cleanup_object_objects, Hx, Hpar.
  unfold object_remove. rewrite Hp. rewrite bool_decide_eq_true_2 by exact Hin.
  rewrite lookup_alter_eq.
  destruct (decide (o = p)) as [->|Hop].
  - rewrite lookup_alter_eq, Hp. simpl. eexists. split; [reflexivity|].
    simpl. apply remove_first_unlists. exact Hnd.
  - rewrite lookup_alter_ne by exact Hop. rewrite Hp. simpl.
    eexists. split; [reflexivity|]. simpl. apply remove_first_unlists. exact Hnd.
Qed.

Lemma unlisted_step (st : scene) (o o' p : nat) :
  (exists po', objects st !! p = Some po' /\ o ∉ children po') ->
  exists po', objects (cleanup_object st o') !! p = Some po' /\ o ∉ children po'.
Proof.
  intros (po & Hp & Hout).
  destruct (cleanup_object_shape st o' p) as (f & Hf & Hprops).
  exists (f po). rewrite Hf, Hp. split; [reflexivity|].
  destruct (Hprops po) as (_ & _ & _ & Hsub & _).
  intros Hin. apply Hout. exact (elem_of_sublist _ _ _ Hin Hsub).
Qed.

Lemma unlisted_fold (l : list nat) (st : scene) (o p : nat) :
  (exists po', objects st !! p = Some po' /\ o ∉ children po') ->
  exists po', objects (fold_left cleanup_object l st) !! p = Some po' /\ o ∉ children po'.
Proof.
  revert st. induction l as [|o' l IH]; intros st H; simpl; [exact H|].
  apply IH, unlisted_step, H.
Qed.

Lemma nodup_children_step (st : scene) (o' p : nat) :
  (forall po, objects st !! p = Some po -> NoDup (children po)) ->
  forall po, objects (cleanup_object st o') !! p = Some po -> NoDup (children po).
Proof.
  intros Hnd po' Hp'.
  destruct (cleanup_object_shape st o' p) as (f & Hf & Hprops).
  rewrite Hf in Hp'. destruct (objects st !! p) as [po|] eqn:Hp; [|discriminate].
  injection Hp' as <-.
  destruct (Hprops po) as (_ & _ & _ & Hsub & _).
  exact (sublist_NoDup _ _ (Hnd po eq_refl) Hsub).
Qed.

Lemma cleanup_fold_unlists (l : list nat) (st : scene) (o : nat) (x : object3d) (p : nat) :
  o ∈ l ->
  linked_to_parent st o x p ->
  (forall po, objects st !! p = Some po -> NoDup (children po)) ->
  exists po', objects (fold_left cleanup_object l st) !! p = Some po' /\ o ∉ children po'.
Proof.
  revert st. induction l as [|o' l IH]; intros st Hin Hlink Hnd; [inversion Hin|].
  simpl. destruct (decide (o' = o)) as [->|Hne].
  - apply unlisted_fold. exact (cleanup_object_unlists st o x p Hlink Hnd).
  - apply elem_of_cons in Hin as [->|Hin]; [contradiction|].
    apply IH; [exact Hin | |].
    + apply linked_to_parent_step; assumption.
    + apply nodup_children_step. exact Hnd.
Qed.

(** X11. A removed object that hung under a parent listing it once is
    no longer among that parent's children after the cleanup.  The
    parent's children that were not removed are all still there, in
    their former order. *)
Theorem emergency_cleanup_unlists_removed
    (w : globals) (arr : list nat) (o : nat) (x : object3d) (p : nat) (po : object3d) :
  orbitalObjects w = Some arr ->
  o ∈ drop 2 arr ->
  objects (three w) !! o = Some x ->
  parent x = Some p ->
  objects (three w) !! p = Some po ->
  o ∈ children po ->
  NoDup (children po) ->
  exists po',
    objects (three (fst (emergencyMemoryCleanup w))) !! p = Some po'
    /\ (o ∉ children po')
    /\ (children po' `sublist_of` children po)
    /\ (forall c, c ∈ children po -> c ∉ drop 2 arr -> c ∈ children po').
Proof.
  intros Harr Hin Hx Hpar Hp Hchild Hnd.
  destruct (emergencyMemoryCleanup_fields w arr Harr) as (_ & ->).
  destruct (cleanup_fold_unlists (drop 2 arr) (three w) o x p Hin) as (po' & Hp' & Hout).
  { exists x, po. repeat split; assumption. }
  { intros q Hq. rewrite Hp in Hq. injection Hq as <-. exact Hnd. }
  exists po'. split; [exact Hp'|]. split; [exact Hout|].
  destruct (cleanup_fold_shape (drop 2 arr) (three w) p) as (f & Hf & Hprops).
  rewrite Hf, Hp in Hp'. injection Hp' as <-.
  destruct (Hprops po) as (_ & _ & _ & Hsub & Hkeep).
  split; [exact Hsub|]. intros c Hc Hnot. apply Hkeep; assumption.
Qed.

Lemma emergency_cleanup_unlists_removed_witness :
  exists po',
    objects (three (fst (emergencyMemoryCleanup Samples.three_in_scene))) !! 10%nat = Some po'
    /\ (2%nat ∉ children po').
Proof.
  assert (Hin : 2%nat ∈ drop 2 [0; 1; 2]%nat)
    by (simpl; apply list_elem_of_singleton; reflexivity).
  assert (Hchild : 2%nat ∈ children (Samples.group [0; 1; 2]%nat)).
  { simpl. apply elem_of_cons. right. apply elem_of_cons. right.
    apply list_elem_of_singleton. reflexivity. }
  assert (Hnd : NoDup (children (Samples.group [0; 1; 2]%nat))).
  { simpl. repeat (constructor; [rewrite ?elem_of_cons, ?elem_of_nil; lia|]).
    constructor. }
  destruct (emergency_cleanup_unlists_removed Samples.three_in_scene [0; 1; 2]%nat
              2%nat (Samples.mesh (Some 10%nat) 102 (MaterialArray [202; 203]%nat))
              10%nat (Samples.group [0; 1; 2]%nat)
              eq_refl Hin eq_refl eq_refl eq_refl Hchild Hnd)
    as (po' & Hp & Hout & _).
  exists po'. split; [exact Hp | exact Hout].
Defined.

End Unlisting.

(** ** Memory monitoring *)

Section Monitoring.
Import Three MobileOptimizer MemoryMonitor.

Lemma above_iff (threshold u : Q) :
  above threshold (Some u) = true <-> (threshold < u)%Q.
Proof.
  unfold above. rewrite negb_true_iff. split.
  - intros H. apply Qnot_le_lt. intros Hle.
    apply Qle_bool_iff in Hle. rewrite Hle in H. discriminate.
  - intros Hlt. destruct (Qle_bool u threshold) eqn:E; [|reflexivity].
    apply Qle_bool_iff in E. exfalso. exact (Qlt_not_le _ _ Hlt E).
Qed.

(** X12. One run of the memory monitor.  Without a memory reading, or
    with a usage that is not a number or at most 80 percent, nothing is
    touched.  With a reading the optimizer records the used megabytes.
    Above 80 percent [triggerMemoryCleanup] runs; when [window.scene]
    exists and no [THREE] is declared it raises a ReferenceError that
    ends the callback at once: nothing is cleared or collected and,
    even above 95 percent, the emergency cleanup is never reached, so
    the array and the scene stay as they are.  Otherwise, up to 95
    percent the ordinary cleanup runs once and leaves the array and the
    scene alone, and above 95 percent it runs twice (once by itself and
    once at the end of the emergency cleanup) and the array is cut down
    to its first two entries. *)
Theorem memory_monitor_tick
    (usedMB : Q) (usage : option Q) (o : optimizer) (w : globals) :
  let r := tick (Some (usedMB, usage)) o w in
  let w' := fst (snd r) in
  let raises := scene_defined w && negb (three_declared w) in
  let clears (n : nat) :=
    if scene_defined w && three_declared w && cache_defined w then n else 0%nat in
  let collects (n : nat) := if gc_defined w then n else 0%nat in
  tick None o w = (o, (w, None))
  /\ currentMemoryUsage (fst r) = usedMB
  /\ (usage = None \/ (exists u, usage = Some u /\ (u <= 80)%Q) ->
      snd r = (w, None))
  /\ (forall u, usage = Some u -> (80 < u)%Q -> raises = true ->
      snd (snd r) = Some "THREE is not defined"
      /\ orbitalObjects w' = orbitalObjects w
      /\ three w' = three w
      /\ cache_clears w' = cache_clears w
      /\ gc_calls w' = gc_calls w)
  /\ (forall u, usage = Some u -> (80 < u)%Q -> (u <= 95)%Q -> raises = false ->
      snd (snd r) = None
      /\ orbitalObjects w' = orbitalObjects w
      /\ three w' = three w
      /\ cache_clears w' = (cache_clears w + clears 1%nat)%nat
      /\ gc_calls w' = (gc_calls w + collects 1%nat)%nat)
  /\ (forall u, usage = Some u -> (95 < u)%Q -> raises = false ->
      snd (snd r) = None
      /\ orbitalObjects w' = take 2 <$> orbitalObjects w
      /\ three w' = three (fst (emergencyMemoryCleanup w))
      /\ cache_clears w' = (cache_clears w + clears 2%nat)%nat
      /\ gc_calls w' = (gc_calls w + collects 2%nat)%nat).
Proof.
  intros r w' raises clears collects. subst r w' raises clears collects. cbn beta.
  split; [reflexivity|].
  split.
  { unfold tick. destruct (above 80 usage); [|destruct (above 95 usage)];
      repeat match goal with
             | |- context [let '(_, _) := ?x in _] => destruct x as [? [?|]]
             | |- context [if ?b then _ else _] => destruct b
             end; reflexivity. }
  split; [|split; [|split]].
  - intros Hlow.
    assert (H80 : above 80 usage = false).
    { destruct Hlow as [->|(u & -> & Hu)]; [reflexivity|].
      destruct (above 80 (Some u)) eqn:E; [|reflexivity].
      apply above_iff in E. exfalso. exact (Qlt_not_le _ _ E Hu). }
    assert (H95 : above 95 usage = false).
    { destruct Hlow as [->|(u & -> & Hu)]; [reflexivity|].
      destruct (above 95 (Some u)) eqn:E; [|reflexivity].
      apply above_iff in E. exfalso.
      apply (Qlt_not_le _ _ E). eapply Qle_trans; [exact Hu|]. unfold Qle; simpl; lia. }
    unfold tick. rewrite H80, H95. reflexivity.
  - intros u -> Hhigh Hraise.
    assert (H80 : above 80 (Some u) = true) by (apply above_iff; exact Hhigh).
    unfold tick. rewrite H80.
    destruct (triggerMemoryCleanup_effect (add_log "⚠️ High memory usage" w))
      as (H1 & H2 & _ & _ & _ & _ & H7 & H8 & H9).
    cbn [scene_defined three_declared cache_defined gc_defined cache_clears gc_calls
         orbitalObjects three add_log] in H1, H2, H7, H8, H9.
    rewrite Hraise in H7, H9.
    assert (Hno : scene_defined w && three_declared w && cache_defined w = false).
    { apply andb_true_iff in Hraise as (-> & Hn). apply negb_true_iff in Hn.
      rewrite Hn. reflexivity. }
    rewrite Hno in H8. rewrite andb_false_r in H9.
    destruct (triggerMemoryCleanup (add_log "⚠️ High memory usage" w)) as [w1 e].
    cbn [fst snd] in *. subst e. cbn [fst snd].
    rewrite H1, H2, H8, H9. repeat split; lia.
  - intros u -> Hhigh Hnot Hraise.
    assert (H80 : above 80 (Some u) = true) by (apply above_iff; exact Hhigh).
    assert (H95 : above 95 (Some u) = false).
    { destruct (above 95 (Some u)) eqn:E; [|reflexivity].
      apply above_iff in E. exfalso. exact (Qlt_not_le _ _ E Hnot). }
    unfold tick. rewrite H80, H95.
    destruct (triggerMemoryCleanup_effect (add_log "⚠️ High memory usage" w))
      as (H1 & H2 & _ & _ & _ & _ & H7 & H8 & H9).
    cbn [scene_defined three_declared cache_defined gc_defined cache_clears gc_calls
         orbitalObjects three add_log] in H1, H2, H7, H8, H9.
    rewrite Hraise in H7, H9. rewrite andb_true_r in H9.
    destruct (triggerMemoryCleanup (add_log "⚠️ High memory usage" w)) as [w1 e].
    cbn [fst snd] in *. subst e. cbn [fst snd].
    rewrite H1, H2, H8, H9. repeat split.
  - intros u -> Hcrit Hraise.
    assert (H95 : above 95 (Some u) = true) by (apply above_iff; exact Hcrit).
    assert (H80 : above 80 (Some u) = true).
    { apply above_iff. eapply Qlt_trans; [|exact Hcrit]. unfold Qlt; simpl; lia. }
    unfold tick. rewrite H80, H95.
    destruct (triggerMemoryCleanup_effect (add_log "⚠️ High memory usage" w))
      as (H1 & H2 & F1 & F2 & F3 & F4 & H7 & H8 & H9).
    cbn [scene_defined three_declared cache_defined gc_defined cache_clears gc_calls
         orbitalObjects three add_log] in H1, H2, F1, F2, F3, F4, H7, H8, H9.
    rewrite Hraise in H7, H9. rewrite andb_true_r in H9.
    destruct (triggerMemoryCleanup (add_log "⚠️ High memory usage" w)) as [w1 e].
    cbn [fst snd] in *. subst e. cbn [fst snd].
    set (w1' := add_log "🚨 Critical memory usage - forcing cleanup" w1).
    destruct (emergencyMemoryCleanup_effect w1')
      as (E1 & E2 & _ & _ & _ & _ & E7 & E8 & E9).
    destruct (emergencyMemoryCleanup_effect w) as (_ & W2 & _).
    cbn [scene_defined three_declared cache_defined gc_defined cache_clears gc_calls
         orbitalObjects three add_log w1'] in E1, E2, E7, E8, E9.
    rewrite F1, F2 in E7. rewrite F1, F2, F3, H8 in E8. rewrite F1, F2, F4, H9 in E9.
    rewrite Hraise in E7, E9. rewrite andb_true_r in E9.
    rewrite H1 in E1, E2. rewrite H2 in E2.
    rewrite E7, E1, E2, W2, E8, E9.
    split; [reflexivity|]. split; [reflexivity|]. split; [reflexivity|].
    split; [destruct (scene_defined w && three_declared w && cache_defined w)
           | destruct (gc_defined w)]; lia.
Qed.

End Monitoring.

(** ** The page, further *)

Section PageInvariant.
Import Dom Page Reading.

Lemma flat_map_sublist {A B : Type} (f g : A -> list B) (l : list A) :
  List.Forall (fun a => f a `sublist_of` g a) l ->
  flat_map f l `sublist_of` flat_map g l.
Proof.
  induction 1; simpl; [constructor | apply sublist_app; assumption].
Qed.

Lemma flat_map_nested {A B C : Type} (f : A -> list B) (g : B -> list C) (l : list A) :
  flat_map g (flat_map f l) = flat_map (fun a => flat_map g (f a)) l.
Proof.
  induction l as [|a l IH]; simpl; [reflexivity|].
  rewrite List.flat_map_app, IH. reflexivity.
Qed.

Lemma elements_prune_sublist (u : nat) (n : node) :
  elements (prune u n) `sublist_of` preorder n.
Proof.
  induction n as [v t h cs IH] using node_children_ind. simpl.
  destruct (Nat.eqb v u); [apply sublist_nil_l|].
  unfold elements. simpl. rewrite app_nil_r. apply sublist_skip.
  rewrite flat_map_nested. apply flat_map_sublist. exact IH.
Qed.

Lemma sublist_map {A B : Type} (f : A -> B) (l k : list A) :
  l `sublist_of` k -> map f l `sublist_of` map f k.
Proof. induction 1; simpl; constructor; assumption. Qed.

(** Detaching keeps the remaining elements in their order. *)
Lemma uids_remove_sublist (u : nat) (f : list node) :
  uids (remove u f) `sublist_of` uids f.
Proof.
  unfold uids. apply sublist_map. unfold elements, remove.
  rewrite flat_map_nested. apply flat_map_sublist.
  apply List.Forall_forall. intros n _. apply elements_prune_sublist.
Qed.

Lemma well_formed_shrink (p q : page) :
  well_formed p ->
  uids (body q) `sublist_of` uids (body p) ->
  (next_id p <= next_id q)%nat ->
  well_formed q.
Proof.
  intros [Hb Hd] Hsub Hle. split.
  - apply List.Forall_forall. intros u Hu.
    rewrite List.Forall_forall in Hb.
    assert (Hin : In u (uids (body p))).
    { apply list_elem_of_In. apply list_elem_of_In in Hu.
      exact (elem_of_sublist _ _ _ Hu Hsub). }
    specialize (Hb u Hin). simpl in Hb. lia.
  - exact (sublist_NoDup _ _ Hd Hsub).
Qed.

Lemma well_formed_extend (p q : page) (u : nat) (t : tag) (h : string) :
  well_formed p ->
  (next_id p <= u)%nat -> (u < next_id q)%nat ->
  body q = body p ++ [Elem u t h []] ->
  well_formed q.
Proof.
  intros [Hb Hd] Hlo Hhi Hbody. unfold well_formed. rewrite Hbody, uids_app.
  change (uids [Elem u t h []]) with [u].
  rewrite List.Forall_forall in Hb. split.
  - apply List.Forall_forall. intros v Hv.
    apply List.in_app_or in Hv as [Hv|[<-|[]]]; [|exact Hhi].
    specialize (Hb v Hv). simpl in Hb. lia.
  - apply NoDup_app. split; [exact Hd|]. split; [|apply NoDup_singleton].
    intros v Hv Hu. apply list_elem_of_singleton in Hu. subst v.
    apply list_elem_of_In in Hv. specialize (Hb u Hv). simpl in Hb. lia.
Qed.

Lemma well_formed_same (p q : page) :
  well_formed p -> body q = body p -> next_id q = next_id p -> well_formed q.
Proof. unfold well_formed. intros H -> ->. exact H. Qed.

Lemma well_formed_empty (q : page) : body q = [] -> well_formed q.
Proof. unfold well_formed. intros ->. split; constructor. Qed.

Lemma well_formed_message (msg : string) (p : page) :
  well_formed p -> well_formed (MobileOptimizer.showFallbackMessage msg p).
Proof.
  intros H.
  apply (well_formed_extend p _ (next_id p) div (MobileOptimizer.overlay_html msg) H);
    [lia | simpl; lia | reflexivity].
Qed.

Lemma well_formed_notification (p : page) :
  well_formed p -> well_formed (WebGLFallback.showFallbackNotification p).
Proof.
  intros H.
  apply (well_formed_extend p _ (next_id p) div WebGLFallback.notification_html H);
    [lia | simpl; lia | reflexivity].
Qed.

Lemma well_formed_removeElement (u : nat) (p : page) :
  well_formed p -> well_formed (removeElement u p).
Proof.
  intros H. apply (well_formed_shrink p _ H); [apply uids_remove_sublist | simpl; lia].
Qed.

Lemma enableFallbackMode_next_id (s : WebGLFallback.fallback) (p : page) :
  next_id (snd (WebGLFallback.enableFallbackMode s p)) = S (S (S (next_id p))).
Proof.
  unfold WebGLFallback.enableFallbackMode, WebGLFallback.initializeFallbackCanvas.
  destruct (querySelector_canvas (body p)); reflexivity.
Qed.

Lemma well_formed_enable (s : WebGLFallback.fallback) (p : page) :
  well_formed p -> well_formed (snd (WebGLFallback.enableFallbackMode s p)).
Proof.
  intros H.
  set (p1 := match querySelector_canvas (body p) with
             | Some existing => removeElement existing p
             | None => p
             end).
  assert (H1 : well_formed p1).
  { subst p1. destruct (querySelector_canvas (body p));
      [apply well_formed_removeElement|]; exact H. }
  assert (Hn1 : next_id p1 = next_id p)
    by (subst p1; destruct (querySelector_canvas (body p)); reflexivity).
  set (p2 := appendChild (next_id p) Dom.canvas "" (set_next_id (S (next_id p)) p1)).
  assert (H2 : well_formed p2).
  { apply (well_formed_extend p1 p2 (next_id p) Dom.canvas "" H1);
      [lia | simpl; lia | reflexivity]. }
  apply (well_formed_extend p2 _ (S (S (next_id p))) div WebGLFallback.notification_html H2).
  - simpl. lia.
  - rewrite enableFallbackMode_next_id. lia.
  - rewrite enableFallbackMode_body. subst p2 p1. simpl.
    destruct (querySelector_canvas (body p)); simpl; rewrite <- app_assoc; reflexivity.
Qed.

Lemma well_formed_optimizer_handler (r : renderer) (p : page) :
  well_formed p -> well_formed (MobileOptimizer.handleWebGLContextLoss r p).
Proof.
  intros H.
  apply (well_formed_extend p _ (next_id p) div
           (MobileOptimizer.overlay_html MobileOptimizer.contextLostMessage) H).
  - lia.
  - unfold MobileOptimizer.handleWebGLContextLoss.
    destruct (has_setAnimationLoop r); simpl; lia.
  - unfold MobileOptimizer.handleWebGLContextLoss.
    destruct (has_setAnimationLoop r); reflexivity.
Qed.

Lemma well_formed_fire (a : timer_action) (p : page) :
  well_formed p -> well_formed (fire a p).
Proof.
  intros H. destruct a as [u|]; simpl.
  - apply well_formed_removeElement. exact H.
  - apply well_formed_empty. reflexivity.
Qed.

Lemma well_formed_run_timers (fuel : nat) (until : Z) (p : page) :
  well_formed p -> well_formed (run_timers fuel until p).
Proof.
  revert p. induction fuel as [|fuel IH]; intros p H; simpl; [exact H|].
  destruct (next_timer (timers p)) as [[m rest]|]; [|exact H].
  destruct (due m <=? until); [|exact H].
  apply IH, well_formed_fire.
  apply (well_formed_same p); [exact H | reflexivity | reflexivity].
Qed.

Lemma well_formed_listener (l : listener) (p : page) :
  well_formed p -> well_formed (Browser.run_listener l p).
Proof.
  intros H. destruct l as [r|r|]; simpl; [| |exact H].
  - unfold MobileOptimizer.on_contextlost. apply well_formed_optimizer_handler.
    apply (well_formed_same p); [exact H | reflexivity | reflexivity].
  - unfold MobileOptimizer.on_contextrestored, MobileOptimizer.handleWebGLContextRestore.
    destruct (_ && _); apply (well_formed_same p); try exact H; reflexivity.
Qed.

(** X13. Distinct element identities below the creation counter are an
    invariant of the page: raising a banner, enabling the fallback,
    constructing it, handling a context loss on either side, letting
    time pass with its timers firing, and dispatching an event all keep
    it. *)
Theorem page_stays_well_formed (p : page) :
  well_formed p ->
  (forall msg, well_formed (MobileOptimizer.showFallbackMessage msg p))
  /\ well_formed (WebGLFallback.showFallbackNotification p)
  /\ (forall s, well_formed (snd (WebGLFallback.enableFallbackMode s p)))
  /\ well_formed (snd (WebGLFallback.new p))
  /\ (forall s, well_formed (snd (WebGLFallback.handleWebGLContextLoss s p)))
  /\ (forall r, well_formed (MobileOptimizer.handleWebGLContextLoss r p))
  /\ (forall delay, well_formed (advance delay p))
  /\ (forall tg e, well_formed (Browser.dispatchEvent tg e p)).
Proof.
  intros H.
  split; [intros msg; apply well_formed_message; exact H|].
  split; [apply well_formed_notification; exact H|].
  split; [intros s; apply well_formed_enable; exact H|].
  split.
  { unfold WebGLFallback.new.
    destruct (detectWebGLSupport_cases p) as [(_ & line & ->)|(_ & ->)]; cbn [snd].
    - apply well_formed_enable.
      apply (well_formed_shrink p); [exact H | reflexivity | simpl; lia].
    - apply (well_formed_shrink p); [exact H | reflexivity | simpl; lia]. }
  split.
  { intros s. unfold WebGLFallback.handleWebGLContextLoss.
    destruct (negb _); [|exact H].
    apply well_formed_enable.
    apply (well_formed_same p); [exact H | reflexivity | reflexivity]. }
  split; [intros r; apply well_formed_optimizer_handler; exact H|].
  split.
  { intros delay. unfold advance.
    apply (well_formed_same (run_timers (length (timers p)) (now p + delay) p));
      [apply well_formed_run_timers; exact H | reflexivity | reflexivity]. }
  intros tg e. unfold Browser.dispatchEvent.
  generalize (Browser.listeners_for tg e p). intros ls.
  revert p H. induction ls as [|l ls IH]; intros p H; simpl; [exact H|].
  apply IH, well_formed_listener, H.
Qed.

Lemma page_stays_well_formed_witness :
  well_formed (snd (WebGLFallback.new Samples.one_canvas_no_webgl))
  /\ well_formed (advance 5000 Samples.one_canvas_no_webgl).
Proof.
  assert (H : well_formed Samples.one_canvas_no_webgl).
  { split.
    - repeat constructor.
    - change (NoDup [1; 0]%nat).
      apply NoDup_cons. split; [|apply NoDup_singleton].
      rewrite list_elem_of_singleton. lia. }
  destruct (page_stays_well_formed Samples.one_canvas_no_webgl H)
    as (_ & _ & _ & Hnew & _ & _ & Hadv & _).
  split; [exact Hnew | exact (Hadv 5000)].
Defined.

End PageInvariant.

(** ** The fallback, further *)

Section MoreFallback.
Import Dom Page WebGLFallback Reading.

Lemma enableFallbackMode_scene (s : fallback) (p : page) :
  stars (fst (enableFallbackMode s p)) = starfield_size p
  /\ orbitalObjects (fst (enableFallbackMode s p)) = fallbackOrbitals
  /\ earthImage (fst (enableFallbackMode s p)) = Some (S (next_id p))
  /\ animationTime (fst (enableFallbackMode s p)) = S (animationTime s).
Proof.
  unfold enableFallbackMode, initializeFallbackCanvas.
  destruct (querySelector_canvas (body p)); repeat split.
Qed.

(** X14. The fallback starfield never has more than 200 stars: it has
    one star per started thousand of viewport pixels (width times
    height), none on an empty viewport and exactly 200 from 199001
    pixels on. *)
Theorem starfield_bounds (s : fallback) (p : page) :
  let n := Z.of_nat (stars (fst (enableFallbackMode s p))) in
  let area := innerWidth p * innerHeight p in
  0 <= n <= 200
  /\ (area <= 0 -> n = 0)
  /\ (199000 < area -> n = 200)
  /\ (0 < area <= 199000 -> 1000 * (n - 1) < area <= 1000 * n).
Proof.
  intros n area. subst n.
  destruct (enableFallbackMode_scene s p) as (-> & _).
  unfold starfield_size. fold area.
  assert (Hdiv : 1000 * ((area + 999) / 1000) <= area + 999
                 < 1000 * ((area + 999) / 1000) + 1000).
  { pose proof (Z.div_mod (area + 999) 1000 ltac:(lia)) as E.
    pose proof (Z.mod_pos_bound (area + 999) 1000 ltac:(lia)) as B. lia. }
  set (q := (area + 999) / 1000) in *.
  repeat split; intros; lia.
Qed.

Lemma remove_keeps_last (u v : nat) (t : tag) (h : string) (f : list node) :
  v <> u -> remove u (f ++ [Elem v t h []]) = remove u f ++ [Elem v t h []].
Proof.
  intros Hne. unfold remove. rewrite List.flat_map_app. simpl.
  destruct (Nat.eqb_spec v u); [contradiction | reflexivity].
Qed.

(** X15. [enableFallbackMode] called twice in a row on a document with
    at most one canvas still leaves a single canvas, the one created by
    the second call (the first fallback canvas is taken for the existing
    canvas and removed); but both notification banners are in the
    document and two resize listeners are registered.  Only the guard in
    [handleWebGLContextLoss] keeps a second activation from happening. *)
Theorem enable_twice_single_canvas (s : fallback) (p : page) :
  (length (canvases (body p)) <= 1)%nat ->
  let first := enableFallbackMode s p in
  let second := enableFallbackMode (fst first) (snd first) in
  canvases (body (snd second)) = [(next_id p + 3)%nat]
  /\ canvas (fst second) = Some (next_id p + 3)%nat
  /\ attached (next_id p + 2)%nat (body (snd second))
  /\ attached (next_id p + 5)%nat (body (snd second))
  /\ activations (snd second) = S (S (activations p))
  /\ length (timers (snd second)) = S (S (length (timers p))).
Proof.
  intros Hlen first second. subst second first.
  set (r1 := enableFallbackMode s p).
  assert (Hc1 : canvases (body (snd r1)) = [next_id p])
    by exact (enableFallbackMode_single_canvas s p Hlen).
  assert (Hn1 : next_id (snd r1) = (next_id p + 3)%nat)
    by (subst r1; rewrite enableFallbackMode_next_id; lia).
  assert (Hbody1 := enableFallbackMode_body s p). fold r1 in Hbody1.
  assert (Ha1 := enableFallbackMode_activations s p). fold r1 in Ha1.
  destruct (enableFallbackMode_timers s p) as (Ht1 & _). fold r1 in Ht1.
  clearbody r1.
  assert (Hlen1 : (length (canvases (body (snd r1))) <= 1)%nat)
    by (rewrite Hc1; simpl; lia).
  split.
  { rewrite (enableFallbackMode_single_canvas (fst r1) (snd r1) Hlen1), Hn1. reflexivity. }
  split.
  { destruct (enableFallbackMode_fields (fst r1) (snd r1)) as (_ & Hcv & _).
    rewrite Hcv, Hn1. reflexivity. }
  assert (Hbody2 : body (snd (enableFallbackMode (fst r1) (snd r1)))
                   = remove (next_id p) (body (snd r1))
                       ++ [Elem (next_id (snd r1)) Dom.canvas "" [];
                           Elem (S (S (next_id (snd r1)))) div notification_html []]).
  { rewrite enableFallbackMode_body. unfold querySelector_canvas. rewrite Hc1.
    reflexivity. }
  assert (Hrem : remove (next_id p) (body (snd r1))
                 = remove (next_id p)
                     (match querySelector_canvas (body p) with
                      | Some existing => remove existing (body p)
                      | None => body p
                      end ++ [Elem (next_id p) Dom.canvas "" []])
                   ++ [Elem (S (S (next_id p))) div notification_html []]).
  { rewrite Hbody1.
    change (?a ++ [?x; ?y]) with (a ++ [x] ++ [y]).
    rewrite app_assoc. apply remove_keeps_last. lia. }
  rewrite Hrem in Hbody2.
  split.
  { rewrite Hbody2. unfold attached. rewrite !uids_app.
    apply List.in_or_app. left. apply List.in_or_app. right.
    replace (next_id p + 2)%nat with (S (S (next_id p))) by lia.
    left. reflexivity. }
  split.
  { rewrite Hbody2. unfold attached. rewrite !uids_app.
    apply List.in_or_app. right. simpl. right. left. rewrite Hn1. lia. }
  split.
  { rewrite enableFallbackMode_activations, Ha1. reflexivity. }
  destruct (enableFallbackMode_timers (fst r1) (snd r1)) as (Ht2 & _).
  rewrite Ht2, Ht1, !length_app. simpl. lia.
Qed.

Lemma enable_twice_single_canvas_witness :
  let first := enableFallbackMode initial Samples.live_scene in
  let second := enableFallbackMode (fst first) (snd first) in
  canvases (body (snd second)) = [4%nat]
  /\ activations (snd second) = 2%nat.
Proof.
  intros first second.
  destruct (enable_twice_single_canvas initial Samples.live_scene (le_n 1))
    as (H1 & _ & _ & _ & H5 & _).
  split; [exact H1 | exact H5].
Defined.

(** X16. A device is blocklisted exactly when its renderer string or
    its vendor string contains one of the four driver names as a
    substring, letter case respected. *)
Theorem blocklist_is_substring_match (d : debug_renderer_info) :
  hasProblematicDriver d = true <->
  exists driver,
    In driver problematicDrivers
    /\ (has_substring driver (UNMASKED_RENDERER_WEBGL d)
        \/ has_substring driver (UNMASKED_VENDOR_WEBGL d)).
Proof.
  unfold hasProblematicDriver. rewrite existsb_exists. split.
  - intros (driver & Hin & Hor). exists driver. split; [exact Hin|].
    apply orb_true_iff in Hor as [H|H]; apply includes_iff in H; [left|right]; exact H.
  - intros (driver & Hin & Hor). exists driver. split; [exact Hin|].
    apply orb_true_iff. destruct Hor as [H|H]; apply includes_iff in H; [left|right]; exact H.
Qed.

End MoreFallback.

(** ** Reload after a context loss *)

Section Reload.
Import Dom Page Reading.

Lemma run_timers_idle (fuel : nat) (until : Z) (p : page) :
  timers p = [] -> run_timers fuel until p = p.
Proof. intros H. destruct fuel; simpl; [reflexivity|]. rewrite H. reflexivity. Qed.

(** A pending reload that falls due is carried out, by itself or by an
    earlier one, and the loop ends on a discarded page. *)
Lemma run_timers_reloads (fuel : nat) (until : Z) (p : page) :
  (length (timers p) <= fuel)%nat ->
  (exists tm, In tm (timers p) /\ action tm = ReloadPage /\ due tm <= until) ->
  discarded (run_timers fuel until p)
  /\ animationLoop (run_timers fuel until p) = false
  /\ (reloads p < reloads (run_timers fuel until p))%nat.
Proof.
  revert p. induction fuel as [|fuel IH]; intros p Hlen (tm & Hin & Hact & Hdue).
  - destruct (timers p); [destruct Hin | simpl in Hlen; lia].
  - simpl. destruct (next_timer (timers p)) as [[m rest]|] eqn:E.
    2:{ apply next_timer_none in E. rewrite E in Hin. destruct Hin. }
    destruct (next_timer_some _ _ _ E) as (Hmem & Hmin & Hl).
    destruct (Z.leb_spec (due m) until) as [Hm|Hm];
      [|specialize (Hmin tm Hin); lia].
    destruct (action m) as [v|] eqn:Ham.
    + apply Hmem in Hin as [->|Hin]; [congruence|].
      destruct (IH (fire (RemoveIfAttached v)
                      (set_now (Z.max (now p) (due m)) (set_timers rest p))))
        as (Hd & Ha & Hr).
      * simpl. lia.
      * exists tm. split; [exact Hin|]. split; assumption.
      * split; [exact Hd|]. split; [exact Ha|]. simpl in Hr. exact Hr.
    + rewrite run_timers_idle by reflexivity.
      split; [repeat split|]. split; [reflexivity | simpl; lia].
Qed.

Lemma advance_reloads (delay : Z) (p : page) :
  (exists tm, In tm (timers p) /\ action tm = ReloadPage /\ due tm <= now p + delay) ->
  discarded (advance delay p)
  /\ animationLoop (advance delay p) = false
  /\ (reloads p < reloads (advance delay p))%nat.
Proof.
  intros H. unfold advance.
  destruct (run_timers_reloads (length (timers p)) (now p + delay) p (le_n _) H)
    as ((Hb & Ht & Hl) & Ha & Hr).
  split; [repeat split; assumption|]. split; [exact Ha | exact Hr].
Qed.

(** X17. Two seconds after the optimizer has handled a context loss the
    page has been reloaded: the document, the timers and the listeners
    are discarded and the animation loop is off, whatever else was
    pending.  A context restoration in between restarts the animation
    loop but does not call the reload off. *)
Theorem context_loss_ends_in_reload (r : renderer) (p : page) (delay : Z) :
  2000 <= delay ->
  (let q := advance delay (MobileOptimizer.handleWebGLContextLoss r p) in
   discarded q /\ animationLoop q = false /\ (reloads p < reloads q)%nat)
  /\ (let q := advance delay
                 (MobileOptimizer.on_contextrestored r
                    (MobileOptimizer.on_contextlost r p)) in
      discarded q /\ animationLoop q = false /\ (reloads p < reloads q)%nat).
Proof.
  intros Hdelay.
  assert (Hpending : forall p0 : page,
             exists tm, In tm (timers (MobileOptimizer.handleWebGLContextLoss r p0))
                        /\ action tm = ReloadPage
                        /\ due tm <= now (MobileOptimizer.handleWebGLContextLoss r p0) + delay).
  { intros p0. exists {| due := now p0 + 2000; action := ReloadPage |}.
    unfold MobileOptimizer.handleWebGLContextLoss.
    destruct (has_setAnimationLoop r); simpl;
      (split; [apply List.in_or_app; right; left; reflexivity|]);
      (split; [reflexivity | lia]). }
  split.
  - intros q. subst q.
    destruct (advance_reloads delay _ (Hpending p)) as (Hd & Ha & Hr).
    split; [exact Hd|]. split; [exact Ha|].
    assert (Hsame : reloads (MobileOptimizer.handleWebGLContextLoss r p) = reloads p).
    { unfold MobileOptimizer.handleWebGLContextLoss.
      destruct (has_setAnimationLoop r); reflexivity. }
    rewrite Hsame in Hr. exact Hr.
  - intros q. subst q.
    unfold MobileOptimizer.on_contextrestored, MobileOptimizer.on_contextlost.
    set (p0 := set_defaultPrevented true
                 (log "🚨 WebGL context lost - preventing default" p)).
    set (lost := MobileOptimizer.handleWebGLContextLoss r p0).
    set (restored := MobileOptimizer.handleWebGLContextRestore r
                       (log "✅ WebGL context restored" lost)).
    assert (Hkeep : timers restored = timers lost /\ now restored = now lost
                    /\ reloads restored = reloads lost).
    { subst restored. unfold MobileOptimizer.handleWebGLContextRestore.
      destruct (_ && _); repeat split. }
    destruct Hkeep as (Ht & Hn & Hr0).
    destruct (advance_reloads delay restored) as (Hd & Ha & Hr).
    { rewrite Ht, Hn. apply Hpending. }
    split; [exact Hd|]. split; [exact Ha|].
    rewrite Hr0 in Hr.
    assert (Hsame : reloads lost = reloads p).
    { subst lost. unfold MobileOptimizer.handleWebGLContextLoss.
      destruct (has_setAnimationLoop r); reflexivity. }
    rewrite Hsame in Hr. exact Hr.
Qed.

Lemma context_loss_ends_in_reload_witness :
  let q := advance 2000
             (MobileOptimizer.on_contextrestored Samples.scene_renderer
                (MobileOptimizer.on_contextlost Samples.scene_renderer Samples.live_scene)) in
  discarded q /\ (0 < reloads q)%nat.
Proof.
  intros q.
  destruct (context_loss_ends_in_reload Samples.scene_renderer Samples.live_scene 2000
              (Z.le_refl 2000)) as (_ & Hd & _ & Hr).
  split; [exact Hd | exact Hr].
Defined.

End Reload.

(** ** Diagnostic scripts, further *)

Section MoreScripts.
Import Page Diagnostics Spec Reading.

Lemma check_logs_from (evs : list page_event) (logs errors : list string) :
  fst (fold_left (fun '(logs, errors) ev =>
                    match ev with
                    | ConsoleMessage ty tx => (CheckScript.on_console logs ty tx, errors)
                    | PageError e => (logs, CheckScript.on_pageerror errors e)
                    | _ => (logs, errors)
                    end) evs (logs, errors))
  = logs ++ console_lines evs.
Proof.
  revert logs errors. induction evs as [|ev evs IH]; intros logs errors; simpl.
  - rewrite app_nil_r. reflexivity.
  - destruct ev; rewrite IH; try reflexivity.
    unfold CheckScript.on_console. rewrite <- app_assoc. reflexivity.
Qed.

(** X18. What check.mjs prints is fixed by the events of the session.
    After a successful navigation it exits with status 0 however many
    script errors the page threw, and prints the console messages in
    order, then one "ERROR:" line per script error in order, or "No
    errors" when there was none.  After a failed navigation it prints
    nothing of what the listeners had collected. *)
Theorem check_output_from_events (b : session) :
  (forall u, navigation b = Normal u ->
     exit_code (CheckScript.run b) = 0
     /\ stderr (CheckScript.run b) = []
     /\ stdout (CheckScript.run b)
        = ["=== Console Logs ==="] ++ console_lines (events b) ++ ["=== Errors ==="]
          ++ (match page_errors (events b) with
              | [] => ["No errors"]
              | errs => map (fun e => ("ERROR: " ++ message e)%string) errs
              end)
          ++ [("Canvas exists: " ++ show_bool (canvas_found b))%string])
  /\ (forall msg, navigation b = Throw msg ->
        stdout (CheckScript.run b) = [] /\ exit_code (CheckScript.run b) = 1).
Proof.
  split.
  - intros u Hnav. unfold CheckScript.run. rewrite Hnav.
    pose proof (check_logs_from (events b) [] []) as Hl.
    pose proof (check_listen_from (events b) [] []) as He.
    fold (CheckScript.listen (events b)) in Hl, He.
    destruct (CheckScript.listen (events b)) as [logs errors].
    simpl in Hl, He. subst logs errors. cbn [exit_code stderr stdout].
    split; [reflexivity|]. split; [reflexivity|].
    destruct (page_errors (events b)) as [|e errs]; [reflexivity|].
    cbn [map]. rewrite List.map_map. reflexivity.
  - intros msg Hnav. unfold CheckScript.run. rewrite Hnav. split; reflexivity.
Qed.

Lemma detailed_failed_from (evs : list page_event) (logs errors failed : list string)
      (line : string) :
  In line (snd (fold_left (fun '(logs, errors, failed) ev =>
                    match ev with
                    | ConsoleMessage ty tx =>
                        (CheckDetailedScript.on_console logs ty tx, errors, failed)
                    | PageError e =>
                        (logs, CheckDetailedScript.on_pageerror errors e, failed)
                    | RequestFailed u t =>
                        (logs, errors, CheckDetailedScript.on_requestfailed failed u t)
                    | Response st u =>
                        (logs, errors, CheckDetailedScript.on_response failed st u)
                    end) evs (logs, errors, failed)))
  <-> In line failed
      \/ (exists u t, In (RequestFailed u t) evs /\ line = (u ++ " - " ++ t)%string)
      \/ (exists st u, In (Response st u) evs /\ 400 <= st
                       /\ line = (show_Z st ++ " " ++ u)%string).
Proof.
  revert logs errors failed.
  induction evs as [|ev evs IH]; intros logs errors failed; simpl.
  - split; [intros H; left; exact H|].
    intros [H|[(u & t & [] & _)|(st & u & [] & _)]]. exact H.
  - destruct ev as [ty tx|e|u t|st u]; rewrite IH; clear IH.
    + split.
      * intros [H|[(u & t & H & E)|(st & u & H & E)]]; [tauto| |].
        -- right. left. exists u, t. split; [right; exact H | exact E].
        -- right. right. exists st, u. split; [right; exact H | exact E].
      * intros [H|[(u & t & [H|H] & E)|(st & u & [H|H] & E)]];
          try discriminate; [tauto| |].
        -- right. left. exists u, t. split; assumption.
        -- right. right. exists st, u. split; assumption.
    + split.
      * intros [H|[(u & t & H & E)|(st & u & H & E)]]; [tauto| |].
        -- right. left. exists u, t. split; [right; exact H | exact E].
        -- right. right. exists st, u. split; [right; exact H | exact E].
      * intros [H|[(u & t & [H|H] & E)|(st & u & [H|H] & E)]];
          try discriminate; [tauto| |].
        -- right. left. exists u, t. split; assumption.
        -- right. right. exists st, u. split; assumption.
    + unfold CheckDetailedScript.on_requestfailed. split.
      * intros [H|[(u' & t' & H & E)|(st & u' & H & E)]].
        -- apply List.in_app_or in H as [H|[<-|[]]]; [tauto|].
           right. left. exists u, t. split; [left; reflexivity | reflexivity].
        -- right. left. exists u', t'. split; [right; exact H | exact E].
        -- right. right. exists st, u'. split; [right; exact H | exact E].
      * intros [H|[(u' & t' & [H|H] & E)|(st & u' & [H|H] & E)]];
          try discriminate.
        -- left. apply List.in_or_app. left. exact H.
        -- injection H as <- <-. left. apply List.in_or_app. right. left.
           symmetry. exact E.
        -- right. left. exists u', t'. split; assumption.
        -- right. right. exists st, u'. split; assumption.
    + unfold CheckDetailedScript.on_response. split.
      * intros [H|[(u' & t' & H & E)|(st' & u' & H & E)]].
        -- destruct (Z.leb_spec 400 st) as [Hst|Hst]; [|tauto].
           apply List.in_app_or in H as [H|[<-|[]]]; [tauto|].
           right. right. exists st, u. split; [left; reflexivity|].
           split; [exact Hst | reflexivity].
        -- right. left. exists u', t'. split; [right; exact H | exact E].
        -- right. right. exists st', u'. split; [right; exact H | exact E].
      * intros [H|[(u' & t' & [H|H] & E)|(st' & u' & [H|H] & E)]];
          try discriminate.
        -- left. destruct (400 <=? st); [apply List.in_or_app; left|]; exact H.
        -- right. left. exists u', t'. split; assumption.
        -- injection H as <- <-. destruct E as (Hst & E). left.
           destruct (Z.leb_spec 400 st) as [_|Hlt]; [|lia].
           apply List.in_or_app. right. left. symmetry. exact E.
        -- right. right. exists st', u'. split; assumption.
Qed.

(** X19. The failed-request list of check-detailed.mjs holds exactly one
    kind of line per failed request and per response with a status of
    400 or more; a response with a status below 400 never appears in
    it. *)
Theorem detailed_failed_requests (evs : list page_event) (line : string) :
  In line (snd (CheckDetailedScript.listen evs))
  <-> (exists u t, In (RequestFailed u t) evs /\ line = (u ++ " - " ++ t)%string)
      \/ (exists st u, In (Response st u) evs /\ 400 <= st
                       /\ line = (show_Z st ++ " " ++ u)%string).
Proof.
  unfold CheckDetailedScript.listen. rewrite detailed_failed_from.
  split; [intros [[]|H]; exact H | intros H; right; exact H].
Qed.

Lemma site_requests_from (evs : list page_event) (logs errors reqs : list string)
      (line : string) :
  In line (snd (fold_left (fun '(logs, errors, networkRequests) ev =>
               match ev with
               | ConsoleMessage ty tx =>
                   (CheckSiteScript.on_console logs ty tx, errors, networkRequests)
               | PageError e => (logs, CheckSiteScript.on_pageerror errors e, networkRequests)
               | Response st u =>
                   (logs, errors, CheckSiteScript.on_response networkRequests st u)
               | RequestFailed _ _ => (logs, errors, networkRequests)
               end) evs (logs, errors, reqs)))
  <-> In line reqs
      \/ (exists st u, In (Response st u) evs
                       /\ has_substring "Fabric_Lace" u
                       /\ line = (show_Z st ++ " " ++ u)%string).
Proof.
  revert logs errors reqs.
  induction evs as [|ev evs IH]; intros logs errors reqs; simpl.
  - split; [intros H; left; exact H | intros [H|(st & u & [] & _)]; exact H].
  - destruct ev as [ty tx|e|u t|st u]; rewrite IH; clear IH.
    + split.
      * intros [H|(st & u & H & E)]; [tauto|].
        right. exists st, u. split; [right; exact H | exact E].
      * intros [H|(st & u & [H|H] & E)]; try discriminate; [tauto|].
        right. exists st, u. split; assumption.
    + split.
      * intros [H|(st & u & H & E)]; [tauto|].
        right. exists st, u. split; [right; exact H | exact E].
      * intros [H|(st & u & [H|H] & E)]; try discriminate; [tauto|].
        right. exists st, u. split; assumption.
    + split.
      * intros [H|(st & u' & H & E)]; [tauto|].
        right. exists st, u'. split; [right; exact H | exact E].
      * intros [H|(st & u' & [H|H] & E)]; try discriminate; [tauto|].
        right. exists st, u'. split; assumption.
    + unfold CheckSiteScript.on_response. split.
      * intros [H|(st' & u' & H & E)].
        -- destruct (JsString.includes u "Fabric_Lace") eqn:Hinc; [|tauto].
           apply List.in_app_or in H as [H|[<-|[]]]; [tauto|].
           right. exists st, u. split; [left; reflexivity|].
           split; [apply includes_iff; exact Hinc | reflexivity].
        -- right. exists st', u'. split; [right; exact H | exact E].
      * intros [H|(st' & u' & [H|H] & E)].
        -- left. destruct (JsString.includes u "Fabric_Lace");
             [apply List.in_or_app; left|]; exact H.
        -- injection H as <- <-. destruct E as (Hsub & E). left.
           apply includes_iff in Hsub. rewrite Hsub.
           apply List.in_or_app. right. left. symmetry. exact E.
        -- right. exists st', u'. split; assumption.
Qed.

(** X20. check-site.mjs lists a response exactly when its URL contains
    "Fabric_Lace", and of the console messages it prints exactly those
    that contain "font", "texture" or "load". *)
Theorem site_lists_lace_requests (evs : list page_event) (line : string) :
  (In line (snd (CheckSiteScript.listen evs))
   <-> exists st u, In (Response st u) evs
                    /\ has_substring "Fabric_Lace" u
                    /\ line = (show_Z st ++ " " ++ u)%string)
  /\ (forall logs,
        In line (List.filter CheckSiteScript.relevant logs)
        <-> In line logs
            /\ (has_substring "font" line \/ has_substring "texture" line
                \/ has_substring "load" line)).
Proof.
  split.
  - unfold CheckSiteScript.listen. rewrite site_requests_from.
    split; [intros [[]|H]; exact H | intros H; right; exact H].
  - intros logs. rewrite List.filter_In. unfold CheckSiteScript.relevant.
    rewrite !orb_true_iff, !includes_iff. tauto.
Qed.

End MoreScripts.

(** ** The Safari diagnostics run, further *)

Section MoreSafari.
Import Page Diagnostics Diagnostics.SafariDiagnostics Reading.

Lemma failures_app (ms ms' : list (string * metrics)) :
  failures (ms ++ ms') = (failures ms + failures ms')%nat.
Proof.
  unfold failures. rewrite List.filter_app, List.length_app. reflexivity.
Qed.

(** The inner [try ... catch] always comes to an end (both waits have
    their timer on) and leaves one metrics entry under the
    configuration's name; the crash points it adds are those of the
    page's error events and one more when the entry is a failure. *)
Lemma navigate_shape (c : config) (a : attempt) (d : diagnostics) :
  ~ In (cfg_name c) (map fst (performanceMetrics d)) ->
  exists d1 v crs,
    navigate c a d = Some d1
    /\ performanceMetrics d1 = performanceMetrics d ++ [(cfg_name c, v)]
    /\ crashPoints d1 = crashPoints d ++ crs
    /\ length crs = (failures [(cfg_name c, v)] + length (crashes a))%nat
    /\ Forall (fun x => crash_config x = cfg_name c) crs
    /\ saved d1 = saved d.
Proof.
  intros Hfresh. unfold navigate.
  destruct (on_error_fold c (crashes a) d) as (F1 & F2 & F3 & F4 & F5).
  set (d0 := fold_left (on_error c) (crashes a) d) in *.
  assert (Hfresh0 : ~ In (cfg_name c) (map fst (performanceMetrics d0)))
    by (rewrite F3; exact Hfresh).
  assert (Hevents : Forall (fun x => crash_config x = cfg_name c)
                      (map (fun m => {| crash_config := cfg_name c; crash_error := m |})
                           (crashes a))).
  { apply List.Forall_forall. intros x Hx. apply List.in_map_iff in Hx as (m & <- & _).
    reflexivity. }
  assert (Hfail : forall msg dt,
             exists d1 v crs,
               Some (on_failure c msg dt d0) = Some d1
               /\ performanceMetrics d1 = performanceMetrics d ++ [(cfg_name c, v)]
               /\ crashPoints d1 = crashPoints d ++ crs
               /\ length crs = (failures [(cfg_name c, v)] + length (crashes a))%nat
               /\ Forall (fun x => crash_config x = cfg_name c) crs
               /\ saved d1 = saved d).
  { intros msg dt. eexists _, (Failed msg), _. split; [reflexivity|].
    cbn [performanceMetrics crashPoints saved on_failure].
    rewrite (assign_fresh _ _ _ Hfresh0), F1, F3, F5, <- app_assoc.
    split; [reflexivity|]. split; [reflexivity|].
    split; [rewrite List.length_app, List.length_map; simpl; lia|].
    split; [|reflexivity].
    apply List.Forall_app. split; [exact Hevents|].
    constructor; [reflexivity | constructor]. }
  destruct (race_settles navigation_timeout
              ("Navigation timeout of " ++ show_Z navigation_timeout ++ " ms exceeded")
              (site a)) as (o1 & t1 & H1 & _); [unfold navigation_timeout; lia|].
  fold (goto navigation_timeout (site a)) in H1. rewrite H1.
  destruct o1 as [[]|msg]; [|apply Hfail].
  destruct (race_settles initialisation_timeout
              ("Waiting failed: " ++ show_Z initialisation_timeout ++ "ms exceeded")
              (initialised a)) as (o2 & t2 & H2 & _); [unfold initialisation_timeout; lia|].
  fold (waitForFunction initialisation_timeout (initialised a)) in H2. rewrite H2.
  destruct o2 as [[]|msg]; [|apply Hfail].
  destruct (probes a) as [n|msg]; [|apply Hfail].
  eexists _, (Succeeded _), _. split; [reflexivity|].
  cbn [performanceMetrics crashPoints saved on_success].
  rewrite (assign_fresh _ _ _ Hfresh0), F1, F3, F5.
  split; [reflexivity|]. split; [reflexivity|].
  split; [rewrite List.length_map; reflexivity|].
  split; [exact Hevents | reflexivity].
Qed.

(** One configuration: either the inner block never ran (the launch or
    the set-up failed), nothing is recorded and the call is rejected;
    or it ran, and the call is rejected only by a failing
    [browser.close]. *)
Lemma testSafariConfig_shape (c : config) (a : attempt) (d : diagnostics) :
  ~ In (cfg_name c) (map fst (performanceMetrics d)) ->
  exists d1 out ms crs,
    testSafariConfig c a d = Some (d1, out)
    /\ performanceMetrics d1 = performanceMetrics d ++ ms
    /\ crashPoints d1 = crashPoints d ++ crs
    /\ saved d1 = saved d
    /\ Forall (fun x => crash_config x = cfg_name c) crs
    /\ (out = None <->
        launch a = Normal tt /\ setup a = Normal tt /\ close a = Normal tt)
    /\ ((ms = [] /\ crs = [] /\ out <> None)
        \/ (exists v, ms = [(cfg_name c, v)]
                      /\ length crs = (failures ms + length (crashes a))%nat)).
Proof.
  intros Hfresh. unfold testSafariConfig.
  destruct (launch a) as [[]|msg].
  2:{ exists d, (Some msg), [], []. rewrite !app_nil_r.
      split; [reflexivity|]. split; [reflexivity|]. split; [reflexivity|].
      split; [reflexivity|]. split; [constructor|].
      split; [split; [discriminate | intros (H & _); discriminate]|].
      left. repeat split. discriminate. }
  destruct (setup a) as [[]|msg].
  2:{ eexists d, _, [], []. rewrite !app_nil_r.
      split; [reflexivity|]. split; [reflexivity|]. split; [reflexivity|].
      split; [reflexivity|]. split; [constructor|].
      split.
      - split; [|intros (_ & H & _); discriminate].
        destruct (close a); discriminate.
      - left. repeat split. destruct (close a); discriminate. }
  destruct (navigate_shape c a d Hfresh) as (d1 & v & crs & Hnav & Hpm & Hcr & Hlen & Hall & Hsv).
  rewrite Hnav. cbn [option_map].
  exists d1, (match close a with Throw m => Some m | Normal _ => None end),
         [(cfg_name c, v)], crs.
  split; [reflexivity|]. split; [exact Hpm|]. split; [exact Hcr|].
  split; [exact Hsv|]. split; [exact Hall|].
  split.
  - destruct (close a) as [[]|m].
    + split; [intros _; repeat split | reflexivity].
    + split; [discriminate | intros (_ & _ & H); discriminate].
  - right. exists v. split; [reflexivity | exact Hlen].
Qed.

(** The loop over the configurations, whatever the browsers do. *)
Lemma test_each_shape (env : string -> attempt) (cs : list config) (d : diagnostics) :
  List.NoDup (map cfg_name cs) ->
  (forall c, In c cs -> ~ In (cfg_name c) (map fst (performanceMetrics d))) ->
  exists d' out n ms crs,
    test_each env cs d = Some (d', out)
    /\ (n <= length cs)%nat
    /\ performanceMetrics d' = performanceMetrics d ++ ms
    /\ map fst ms = map cfg_name (take n cs)
    /\ crashPoints d' = crashPoints d ++ crs
    /\ length crs
       = (failures ms
          + length (flat_map (fun c => crashes (env (cfg_name c))) (take n cs)))%nat
    /\ Forall (fun x => In (crash_config x) (map cfg_name cs)) crs
    /\ saved d' = saved d
    /\ (out = None -> n = length cs)
    /\ (out = None <->
        forall c, In c cs ->
          launch (env (cfg_name c)) = Normal tt
          /\ setup (env (cfg_name c)) = Normal tt
          /\ close (env (cfg_name c)) = Normal tt).
Proof.
  revert d. induction cs as [|c cs IH]; intros d Hnd Hfresh.
  - exists d, None, 0%nat, [], []. rewrite !app_nil_r.
    split; [reflexivity|]. split; [simpl; lia|]. split; [reflexivity|].
    split; [reflexivity|]. split; [reflexivity|]. split; [reflexivity|].
    split; [constructor|]. split; [reflexivity|]. split; [reflexivity|].
    split; [intros _ c0 [] | reflexivity].
  - inversion Hnd as [|? ? Hc Hnd']; subst.
    destruct (testSafariConfig_shape c (env (cfg_name c)) d)
      as (d1 & out1 & ms1 & crs1 & Hrun1 & Hpm1 & Hcr1 & Hsv1 & Hall1 & Hout1 & Hran);
      [apply Hfresh; left; reflexivity|].
    assert (Hnames1 : Forall (fun x => In (crash_config x) (map cfg_name (c :: cs))) crs1).
    { eapply List.Forall_impl; [|exact Hall1]. intros x ->. left. reflexivity. }
    destruct out1 as [e|].
    + (* the call is rejected: the loop ends here *)
      assert (Hstop : test_each env (c :: cs) d = Some (d1, Some e))
        by (cbn [test_each]; rewrite Hrun1; reflexivity).
      assert (Hnot : ~ (forall c0, In c0 (c :: cs) ->
                          launch (env (cfg_name c0)) = Normal tt
                          /\ setup (env (cfg_name c0)) = Normal tt
                          /\ close (env (cfg_name c0)) = Normal tt)).
      { intros Hallok. specialize (Hallok c (or_introl eq_refl)).
        apply Hout1 in Hallok. discriminate. }
      destruct Hran as [(-> & -> & _)|(v & -> & Hlen)].
      * exists d1, (Some e), 0%nat, [], [].
        split; [exact Hstop|]. split; [simpl; lia|]. split; [exact Hpm1|].
        split; [reflexivity|]. split; [exact Hcr1|]. split; [reflexivity|].
        split; [constructor|]. split; [exact Hsv1|].
        split; [discriminate|]. split; [discriminate | contradiction].
      * exists d1, (Some e), 1%nat, [(cfg_name c, v)], crs1.
        split; [exact Hstop|]. split; [simpl; lia|]. split; [exact Hpm1|].
        split; [reflexivity|]. split; [exact Hcr1|].
        split; [simpl; rewrite app_nil_r; exact Hlen|].
        split; [exact Hnames1|]. split; [exact Hsv1|].
        split; [discriminate|]. split; [discriminate | contradiction].
    + (* the call returns: on to the next configuration *)
      destruct Hran as [(_ & _ & Hno)|(v & -> & Hlen)]; [contradiction|].
      destruct (IH d1 Hnd')
        as (d' & out & n & ms & crs & Hrun & Hn & Hpm & Hkeys & Hcr & Hcount & Hnames
            & Hsv & Hfull & Hiff).
      { intros c' Hc' Hin. rewrite Hpm1, List.map_app in Hin.
        apply List.in_app_or in Hin as [Hin|[Hin|[]]].
        - apply (Hfresh c'); [right; exact Hc' | exact Hin].
        - apply Hc. simpl in Hin. rewrite Hin. apply List.in_map. exact Hc'. }
      exists d', out, (S n), ((cfg_name c, v) :: ms), (crs1 ++ crs).
      split; [cbn [test_each]; rewrite Hrun1; exact Hrun|].
      split; [simpl; lia|].
      split; [rewrite Hpm, Hpm1, <- app_assoc; reflexivity|].
      split; [simpl; rewrite Hkeys; reflexivity|].
      split; [rewrite Hcr, Hcr1, <- app_assoc; reflexivity|].
      split.
      { rewrite List.length_app, Hlen, Hcount.
        change ((cfg_name c, v) :: ms) with ([(cfg_name c, v)] ++ ms).
        rewrite failures_app. cbn [take flat_map]. rewrite List.length_app. lia. }
      split.
      { apply List.Forall_app. split; [exact Hnames1|].
        eapply List.Forall_impl; [|exact Hnames]. intros x Hx. right. exact Hx. }
      split; [rewrite Hsv; exact Hsv1|].
      split; [intros Hnone; simpl; rewrite (Hfull Hnone); reflexivity|].
      rewrite Hiff. split.
      * intros Hrest c' [<-|Hc']; [apply Hout1; reflexivity | apply Hrest; exact Hc'].
      * intros Hallok c' Hc'. apply Hallok. right. exact Hc'.
Qed.

(** X21. Whatever the four browsers do, the Safari diagnostics come to
    an end: the navigation and the wait for three.js have their timers
    on (every other awaited step is taken to settle, normally or with
    an exception).  The metrics hold one entry for each configuration whose inner
    block ran, in the order of the configurations; there are as many
    crash points as failed entries and error events of those pages
    together, each under the name of a configuration.  The run returns
    (status 0) exactly when every browser could be started, set up and
    closed and the report file could be written; then all four
    configurations have their entry and the report is saved.  When the
    run is rejected no report is saved. *)
Theorem safari_metrics_per_configuration
    (env : string -> attempt) (write : completion unit) :
  exists ending n,
    SafariDiagnostics.run env write = Some ending
    /\ (n <= 4)%nat
    /\ map fst (performanceMetrics (fst ending)) = map cfg_name (take n testConfigs)
    /\ length (crashPoints (fst ending))
       = (failures (performanceMetrics (fst ending))
          + length (flat_map (fun c => crashes (env (cfg_name c))) (take n testConfigs)))%nat
    /\ Forall (fun x => In (crash_config x) (map cfg_name testConfigs))
         (crashPoints (fst ending))
    /\ (snd ending = None <->
        (forall c, In c testConfigs ->
           launch (env (cfg_name c)) = Normal tt
           /\ setup (env (cfg_name c)) = Normal tt
           /\ close (env (cfg_name c)) = Normal tt)
        /\ write = Normal tt)
    /\ (snd ending = None ->
        n = 4%nat
        /\ exit_status ending = 0
        /\ saved (fst ending)
           = Some {| report_crashPoints := crashPoints (fst ending);
                     report_performanceMetrics := performanceMetrics (fst ending);
                     recommendations := generateRecommendations (crashPoints (fst ending)) |})
    /\ (snd ending <> None -> exit_status ending = 1 /\ saved (fst ending) = None).
Proof.
  destruct (test_each_shape env testConfigs initial testConfigs_distinct)
    as (d' & out & n & ms & crs & Hrun & Hn & Hpm & Hkeys & Hcr & Hcount & Hnames
        & Hsv & Hfull & Hiff).
  { intros c _ []. }
  change (performanceMetrics initial) with (@nil (string * metrics)) in Hpm.
  change (crashPoints initial) with (@nil crash) in Hcr.
  change (saved initial) with (@None report) in Hsv.
  cbn [app] in Hpm, Hcr. subst ms crs.
  unfold SafariDiagnostics.run, testSafariCompatibility. rewrite Hrun.
  destruct out as [e|].
  - exists (d', Some e), n. cbn [fst snd].
    split; [reflexivity|]. split; [exact Hn|]. split; [exact Hkeys|].
    split; [exact Hcount|]. split; [exact Hnames|].
    split.
    { split; [discriminate|]. intros (Hallok & _). apply Hiff in Hallok. discriminate. }
    split; [discriminate|]. intros _. split; [reflexivity | exact Hsv].
  - specialize (Hfull eq_refl). unfold generateDiagnosticReport.
    destruct write as [[]|msg].
    + eexists (_, None), n. cbn [fst snd crashPoints performanceMetrics saved].
      split; [reflexivity|]. split; [exact Hn|]. split; [exact Hkeys|].
      split; [exact Hcount|]. split; [exact Hnames|].
      split.
      { split; [intros _; split; [apply Hiff; reflexivity | reflexivity] | reflexivity]. }
      split; [|intros H; contradiction].
      intros _. split; [exact Hfull|]. split; reflexivity.
    + exists (d', Some msg), n. cbn [fst snd].
      split; [reflexivity|]. split; [exact Hn|]. split; [exact Hkeys|].
      split; [exact Hcount|]. split; [exact Hnames|].
      split.
      { split; [discriminate | intros (_ & H); discriminate]. }
      split; [discriminate|]. intros _. split; [reflexivity | exact Hsv].
Qed.

Lemma existsb_weaken {A : Type} (f g : A -> bool) (l : list A) :
  (forall x, f x = true -> g x = true) -> existsb f l = true -> existsb g l = true.
Proof.
  intros Hfg. rewrite !existsb_exists. intros (x & Hin & Hx).
  exists x. split; [exact Hin | apply Hfg; exact Hx].
Qed.

(** X22. The saved recommendations are narrower than the printed ones:
    a category saved in the JSON report always has its section printed
    on the console, but crash points that only name an iPad or a lost
    "context" print both sections and save no recommendation at all. *)
Theorem saved_recommendations_narrower (cs : list crash) :
  (In mobile_optimization (generateRecommendations cs) -> hasMobileIssues cs = true)
  /\ (In webgl_stability (generateRecommendations cs) -> hasWebGLCrashes cs = true)
  /\ ((forall c, In c cs ->
         has_substring "iPad" (crash_config c)
         /\ ~ has_substring "Mobile" (crash_config c)
         /\ has_substring "context" (crash_error c)
         /\ ~ has_substring "WebGL" (crash_error c)) ->
      generateRecommendations cs = []
      /\ (cs <> [] -> hasMobileIssues cs = true /\ hasWebGLCrashes cs = true)).
Proof.
  unfold generateRecommendations, hasMobileIssues, hasWebGLCrashes.
  split; [|split].
  - intros Hin. apply List.in_app_or in Hin as [Hin|Hin].
    + destruct (existsb (fun c => JsString.includes (crash_config c) "Mobile") cs) eqn:He;
        [|destruct Hin].
      revert He. apply existsb_weaken. intros x ->. reflexivity.
    + destruct (existsb (fun c => JsString.includes (crash_error c) "WebGL") cs);
        [|destruct Hin].
      destruct Hin as [Hin|[]]. discriminate Hin.
  - intros Hin. apply List.in_app_or in Hin as [Hin|Hin].
    + destruct (existsb (fun c => JsString.includes (crash_config c) "Mobile") cs);
        [|destruct Hin].
      destruct Hin as [Hin|[]]. discriminate Hin.
    + destruct (existsb (fun c => JsString.includes (crash_error c) "WebGL") cs) eqn:He;
        [|destruct Hin].
      revert He. apply existsb_weaken. intros x ->. reflexivity.
  - intros Hall. split.
    + assert (H1 : existsb (fun c => JsString.includes (crash_config c) "Mobile") cs = false).
      { apply not_true_is_false. rewrite existsb_exists. intros (x & Hx & Hinc).
        apply includes_iff in Hinc. destruct (Hall x Hx) as (_ & Hn & _). exact (Hn Hinc). }
      assert (H2 : existsb (fun c => JsString.includes (crash_error c) "WebGL") cs = false).
      { apply not_true_is_false. rewrite existsb_exists. intros (x & Hx & Hinc).
        apply includes_iff in Hinc. destruct (Hall x Hx) as (_ & _ & _ & Hn). exact (Hn Hinc). }
      rewrite H1, H2. reflexivity.
    + intros Hne. destruct cs as [|c cs]; [congruence|].
      destruct (Hall c) as (Hi & _ & Hc & _); [left; reflexivity|].
      apply includes_iff in Hi. apply includes_iff in Hc.
      cbn [existsb]. rewrite Hi, Hc, !orb_true_r. split; reflexivity.
Qed.

End MoreSafari.
